(** * kredittkort: the feed-to-CMS reconciler of [card.py], embedded in Rocq

    The development follows the source file top to bottom.  Python values
    are modelled as the code uses them:
    - a [str] is the list of its Unicode code points;
    - a [float] is an IEEE-754 binary64 number ([spec_float] with 53 bits of
      precision), every arithmetic operation rounding to nearest-even;
    - a [dict] used as a map is a [gmap]; the module-level [field_mapping],
      whose iteration order the code relies on, is an ordered association list;
    - exceptions are values of [exn] carried by the result type [res];
    - network calls, the clock, printing, logging and sleeping are effects of
      the monad [M]: the outside world is an oracle [world] indexed by the
      number of earlier calls, and every effect leaves an [event].

    The request headers and credentials are not modelled.
    [fetch_webflow_item] and [update_specific_item], which [main] never
    reaches, stand apart in the module [Single]. *)

From Stdlib Require Import ZArith NArith QArith Qpower Lqa Lia List String Ascii.
From Stdlib Require Import Floats.SpecFloat.
From stdpp Require Import base option countable gmap list.

Local Open Scope Z_scope.

(** ** Python strings *)

Module PyStr.

(** A Python [str]: its code points, in order. *)
Abbreviation str := (list N).

(** An ASCII literal of the source, as a [str]. *)
Definition u (s : string) : str :=
  List.map N_of_ascii (list_ascii_of_string s).
Arguments u : simpl never.

(** [Py_UNICODE_ISSPACE]: the code points [str.strip], [str.isspace] and the
    regular expression class [\s] treat as whitespace. *)
Definition isspace (c : N) : bool :=
  ((9 <=? c) && (c <=? 13) || (28 <=? c) && (c <=? 32)
   || (c =? 133) || (c =? 160) || (c =? 5760)
   || (8192 <=? c) && (c <=? 8202)
   || (c =? 8232) || (c =? 8233) || (c =? 8239) || (c =? 8287)
   || (c =? 12288))%N.

Fixpoint lstrip (s : str) : str :=
  match s with
  | c :: s' => if isspace c then lstrip s' else s
  | [] => []
  end.

Definition rstrip (s : str) : str := rev (lstrip (rev s)).

(** [s.strip()] *)
Definition strip (s : str) : str := rstrip (lstrip s).

Definition str_eqb (a b : str) : bool := bool_decide (a = b).

(** [s.startswith(p)] *)
Fixpoint startswith (p s : str) : bool :=
  match p, s with
  | [], _ => true
  | a :: p', b :: s' => (a =? b)%N && startswith p' s'
  | _ :: _, [] => false
  end.

(** [k in s] for strings: [k] occurs in [s] as a substring. *)
Fixpoint contains (k s : str) : bool :=
  startswith k s ||
  match s with
  | [] => false
  | _ :: s' => contains k s'
  end.

(** [s.replace(a, b)] for one-character [a] and [b]. *)
Definition replace1 (a b : N) (s : str) : str :=
  List.map (fun c => if (c =? a)%N then b else c) s.

(** [s.split(sep)] for a one-character separator: never empty. *)
Fixpoint split (sep : N) (s : str) : list str :=
  match s with
  | [] => [[]]
  | c :: s' =>
      if (c =? sep)%N then [] :: split sep s'
      else match split sep s' with
           | w :: ws => (c :: w) :: ws
           | [] => [[c]]
           end
  end.

(** Decimal digits of a natural number, most significant first
    ([str(n)] for a non-negative [int]). *)
Fixpoint digits_fuel (fuel : nat) (n : N) (acc : str) : str :=
  match fuel with
  | O => acc
  | S fuel' =>
      let acc' := (48 + n mod 10)%N :: acc in
      if (n <? 10)%N then acc' else digits_fuel fuel' (n / 10)%N acc'
  end.

Definition digits (n : N) : str := digits_fuel (S (N.to_nat (N.log2 n))) n [].

(** [str(z)] for an [int]. *)
Definition str_of_Z (z : Z) : str :=
  if z <? 0 then 45%N :: digits (Z.abs_N z) else digits (Z.abs_N z).

End PyStr.
Import PyStr.

(** The parts of the Unicode character database the code reaches through
    [str.lower], [unicodedata.normalize('NFKD', _)] and [float]: they belong
    to the Python runtime, not to this repository, and are a parameter of
    the embedding. *)
Class Unicode := {
  (** [s.lower()] *)
  lower : str -> str;
  (** [unicodedata.normalize('NFKD', s)] *)
  nfkd : str -> str;
  (** [Py_UNICODE_TODECIMAL] of a code point above ASCII: its value as a
      decimal digit, if it is one. *)
  todecimal : N -> option N
}.

(** ** Exceptions *)

(** The exception classes the code can meet; all derive from [Exception]. *)
Inductive exn :=
  | ValueError | OverflowError | AttributeError | KeyError | IndexError
  | RequestException.

(** The outcome of evaluating a Python expression. *)
Inductive res (A : Type) :=
  | Ok (a : A)
  | Raise (e : exn).
Arguments Ok {A} a.
Arguments Raise {A} e.

#[global] Instance res_ret : MRet res := fun A a => Ok a.
#[global] Instance res_bind : MBind res := fun A B f r =>
  match r with
  | Ok a => f a
  | Raise e => Raise e
  end.

(** ** Python floats *)

Module Float64.

Abbreviation float := spec_float.

Definition prec : Z := 53.
Definition emax : Z := 1024.

(** [float(z)] for an [int]. *)
Definition of_Z (z : Z) : float := binary_normalize prec emax z 0 false.

Definition fadd : float -> float -> float := SFadd prec emax.
Definition fsub : float -> float -> float := SFsub prec emax.
Definition fmul : float -> float -> float := SFmul prec emax.
(** Division by a non-zero constant: the code never divides by a variable. *)
Definition fdiv : float -> float -> float := SFdiv prec emax.
Definition feqb : float -> float -> bool := SFeqb.

Definition is_digit (c : N) : bool := ((48 <=? c) && (c <=? 57))%N.

(** [Py_ISSPACE]: the ASCII whitespace [float] strips. *)
Definition is_ascii_space (c : N) : bool :=
  ((9 <=? c) && (c <=? 13) || (c =? 32))%N.

(** [_PyUnicode_TransformDecimalAndSpaceToASCII]: code points above ASCII
    that are whitespace become a space, decimal digits their ASCII digit;
    any other makes the literal invalid. *)
Fixpoint to_ascii `{U : Unicode} (s : str) : option str :=
  match s with
  | [] => Some []
  | c :: s' =>
      let c' :=
        if (c <? 127)%N then Some c
        else if isspace c then Some 32%N
        else match todecimal c with
             | Some d => Some (48 + d)%N
             | None => None
             end in
      match c', to_ascii s' with
      | Some a, Some r => Some (a :: r)
      | _, _ => None
      end
  end.

Fixpoint lstrip_ascii (s : str) : str :=
  match s with
  | c :: s' => if is_ascii_space c then lstrip_ascii s' else s
  | [] => []
  end.

Definition strip_ascii (s : str) : str :=
  rev (lstrip_ascii (rev (lstrip_ascii s))).

(** [_Py_string_to_number_with_underscores]: an underscore is dropped when
    it stands between two digits, and is an error anywhere else. *)
Fixpoint drop_underscores (prev : N) (s : str) : option str :=
  match s with
  | [] => if (prev =? 95)%N then None else Some []
  | c :: s' =>
      if (c =? 95)%N then
        if is_digit prev then drop_underscores c s' else None
      else if (prev =? 95)%N && negb (is_digit c) then None
      else option_map (cons c) (drop_underscores c s')
  end.

(** The leading run of ASCII digits of [s]: how many, their value continuing
    [acc], and the rest of [s]. *)
Fixpoint take_digits (acc : N) (s : str) : nat * N * str :=
  match s with
  | c :: s' =>
      if is_digit c then
        let '(n, v, r) := take_digits (10 * acc + (c - 48))%N s' in (S n, v, r)
      else (O, acc, s)
  | [] => (O, acc, [])
  end.

Definition take_sign (s : str) : bool * str :=
  match s with
  | 45%N :: s' => (true, s')
  | 43%N :: s' => (false, s')
  | _ => (false, s)
  end.

Definition ascii_lower (c : N) : N :=
  if ((65 <=? c) && (c <=? 90))%N then (c + 32)%N else c.

(** The binary64 number nearest to [d * 10^e10] (ties to even), with the
    sign [neg]; an overflow is an infinity, as in [float('1e999')]. *)
Definition of_decimal (neg : bool) (d : N) (e10 : Z) : float :=
  match d with
  | N0 => S754_zero neg
  | Npos m =>
      if 310 <=? e10 then S754_infinity neg
      else if e10 <? - (Z.of_N (N.log2 d) + 1100) then S754_zero neg
      else if 0 <=? e10 then
        binary_round prec emax neg (m * Z.to_pos (10 ^ e10)) 0
      else
        fdiv (S754_finite neg m 0) (S754_finite false (Z.to_pos (10 ^ (- e10))) 0)
  end.

(** The optional exponent part of a literal: [Some 0] when absent. *)
Definition parse_exponent (s : str) : option Z :=
  match s with
  | [] => Some 0
  | c :: s' =>
      if (ascii_lower c =? 101)%N then
        let '(neg, s'') := take_sign s' in
        match take_digits 0 s'' with
        | (S _, v, []) => Some (if neg then - Z.of_N v else Z.of_N v)
        | _ => None
        end
      else None
  end.

(** [float(s)] for a [str]: [None] stands for the [ValueError] of a literal
    that is not a number. *)
Definition parse_float `{U : Unicode} (s : str) : option float :=
  a ← to_ascii s;
  b ← drop_underscores 0 (strip_ascii a);
  let '(neg, body) := take_sign b in
  let name := List.map ascii_lower body in
  if str_eqb name (u "inf") || str_eqb name (u "infinity") then
    Some (S754_infinity neg)
  else if str_eqb name (u "nan") then Some S754_nan
  else
    let '(ni, vi, r1) := take_digits 0 body in
    let '(nf, v, r2) :=
      match r1 with
      | 46%N :: r => take_digits vi r
      | _ => (O, vi, r1)
      end in
    match (ni + nf)%nat with
    | O => None
    | S _ =>
        e ← parse_exponent r2;
        Some (of_decimal neg v (e - Z.of_nat nf))
    end.

Definition float_of_str `{U : Unicode} (s : str) : res float :=
  match parse_float s with
  | Some x => Ok x
  | None => Raise ValueError
  end.

(** [int(x)]: truncation towards zero. *)
Definition int_of_float (x : float) : res Z :=
  match x with
  | S754_nan => Raise ValueError
  | S754_infinity _ => Raise OverflowError
  | S754_zero _ => Ok 0
  | S754_finite s m e => Ok (cond_Zopp s (Z.shiftl (Zpos m) e))
  end.

(** [math.pow(x, n)] for a positive integer [n].  Python hands finite
    arguments to the C library's [pow] and raises [OverflowError] when the
    result is infinite.  The C function is modelled by the exact power
    rounded once; this idealises it, for a C library need not round [pow]
    correctly and may answer with a neighbouring float.  The properties
    below rest on the special values and on the error only, never on the
    last digit of a finite power. *)
Definition math_pow (x : float) (n : positive) : res float :=
  let neg s := s && Z.odd (Zpos n) in
  match x with
  | S754_nan => Ok S754_nan
  | S754_infinity s => Ok (S754_infinity (neg s))
  | S754_zero s => Ok (S754_zero (neg s))
  | S754_finite s m e =>
      match binary_round prec emax (neg s) (m ^ n) (e * Zpos n) with
      | S754_infinity _ => Raise OverflowError
      | r => Ok r
      end
  end.

Definition sign_of (x : float) : bool :=
  match x with
  | S754_zero s | S754_infinity s | S754_finite s _ _ => s
  | S754_nan => false
  end.

(** The integer nearest to [|x| * 10^p], ties to even, for finite [x]. *)
Definition scaled (p : nat) (x : float) : N :=
  match x with
  | S754_finite _ m e =>
      let num := Zpos m * 10 ^ Z.of_nat p * 2 ^ Z.max e 0 in
      let den := 2 ^ Z.max (- e) 0 in
      let q := num / den in
      let r := num mod den in
      Z.to_N (if (den <? 2 * r) || (den =? 2 * r) && Z.odd q then q + 1 else q)
  | _ => 0%N
  end.

Definition zfill (n : nat) (s : str) : str :=
  repeat 48%N (n - length s) ++ s.

(** [f"{x:.pf}"]: fixed-point notation with [p] decimals. *)
Definition format_f (p : nat) (x : float) : str :=
  let sign := if sign_of x then [45%N] else [] in
  match x with
  | S754_nan => u "nan"
  | S754_infinity _ => sign ++ u "inf"
  | _ =>
      let ds := zfill (S p) (digits (scaled p x)) in
      let k := (length ds - p)%nat in
      sign ++ firstn k ds ++
        match p with O => [] | S _ => 46%N :: skipn k ds end
  end.

End Float64.
Import Float64.

(** ** Text and number normalizer *)

Section Normalizer.
Context `{U : Unicode}.

(** The characters the pattern [[+%,:&()/.]] matches. *)
Definition strip_set : str := u "+%,:&()/.".

Definition in_strip_set (c : N) : bool := bool_decide (c ∈ strip_set).

(** [bytes.decode('utf-8')] after [str.encode('ascii', 'ignore')]: the code
    points above ASCII are dropped, the others kept. *)
Definition encode_ascii_ignore (s : str) : str :=
  List.filter (fun c => (c <? 128)%N) s.

(** [re.sub(r'[+%,:&()/.]', '', s)] *)
Definition sub_strip_set (s : str) : str :=
  List.filter (fun c => negb (in_strip_set c)) s.

Definition normalize_for_slug (text : option str) : str :=
  let text_or_empty := match text with Some t => t | None => [] end in
  let lowered := lower text_or_empty in
  let replaced := replace1 229 97 (replace1 248 111 (replace1 230 97 lowered)) in
  let ascii := encode_ascii_ignore (nfkd replaced) in
  strip (sub_strip_set (replace1 32 45 ascii)).

(** [re.sub(r'\s+', ' ', s)]: every maximal run of whitespace becomes one
    space; [in_run] tells that the previous character was whitespace. *)
Fixpoint sub_whitespace (in_run : bool) (s : str) : str :=
  match s with
  | [] => []
  | c :: s' =>
      if isspace c then
        if in_run then sub_whitespace true s' else 32%N :: sub_whitespace true s'
      else c :: sub_whitespace false s'
  end.

Definition sanitize_text (text : str) : str :=
  let sanitized := sub_whitespace false text in
  strip sanitized.

(** A comma after every third digit, on the digits least significant first. *)
Fixpoint group_rev (ds : str) : str :=
  match ds with
  | a :: b :: c :: rest =>
      match rest with
      | [] => ds
      | _ :: _ => a :: b :: c :: 44%N :: group_rev rest
      end
  | _ => ds
  end.

(** [f"{num:,}"] for an [int]. *)
Definition format_comma (num : Z) : str :=
  (if num <? 0 then [45%N] else []) ++ rev (group_rev (rev (digits (Z.abs_N num)))).

(** The [try] evaluates [int(float(number))]; only a [ValueError] is handled
    by the [except] clause, any other exception leaves the function. *)
Definition format_norwegian_number (number : str) : res str :=
  match x ← float_of_str number; int_of_float x with
  | Ok num => Ok (replace1 44 32 (format_comma num))
  | Raise ValueError => Ok number
  | Raise e => Raise e
  end.

End Normalizer.

(** [l[i]] for a Python list: a negative index counts from the end. *)
Definition py_index {A} (l : list A) (i : Z) : res A :=
  let n := Z.of_nat (length l) in
  let j := if i <? 0 then i + n else i in
  if (0 <=? j) && (j <? n) then
    match l !! Z.to_nat j with
    | Some x => Ok x
    | None => Raise IndexError
    end
  else Raise IndexError.

(** A calendar date, as [datetime] exposes it. *)
Record date := { year : Z; month : Z; day : Z }.

Definition months : list str :=
  [u "januar"; u "februar"; u "mars"; u "april"; u "mai"; u "juni"; u "juli";
   u "august"; u "september"; u "oktober"; u "november"; u "desember"].

(** [get_norwegian_date], given [yesterday = datetime.now() - timedelta(days=1)]. *)
Definition norwegian_date (yesterday : date) : res str :=
  name ← py_index months (month yesterday - 1);
  mret (u "Oppdatert " ++ str_of_Z (day yesterday) ++ u ". " ++ name ++ u " "
        ++ str_of_Z (year yesterday) ++ u " - 23:59").

(** ** Feature extractor *)

Section Extractor.
Context `{U : Unicode}.

Definition any_in (keywords : list str) (text : str) : bool :=
  existsb (fun keyword => contains keyword text) keywords.

(** The returned dict, in the order of its literal. *)
Definition check_andre_fordeler (andre_fordeler_beskrivelse : option str)
  : list (str * bool) :=
  let text :=
    match andre_fordeler_beskrivelse with
    | Some ((_ :: _) as t) => lower t
    | _ => []
    end in
  let priority_pass := any_in [u "priority pass"; u "lounge"] text in
  let cashback := any_in [u "cashback"; u "cash back"; u "penger tilbake"] text in
  let rabatter := contains (u "rabatt") text in
  let bonuser := contains (u "bonus") text in
  [(u "priority-pass", priority_pass); (u "cashback", cashback);
   (u "rabatter", rabatter); (u "bonuser", bonuser)].

End Extractor.

(** ** Cost calculator *)

(** The arithmetic [calculate_apr] is written in.  The code runs it on
    floats; the same expressions read over the rationals give the exact
    values the floats approximate. *)
Class Arith (F : Type) := {
  of_int : Z -> F;
  add_ : F -> F -> F;
  sub_ : F -> F -> F;
  mul_ : F -> F -> F;
  div_ : F -> F -> F;
  pow_ : F -> positive -> res F
}.

Declare Scope arith_scope.
Delimit Scope arith_scope with arith.
Infix "+" := add_ : arith_scope.
Infix "-" := sub_ : arith_scope.
Infix "*" := mul_ : arith_scope.
Infix "/" := div_ : arith_scope.

#[global] Instance float_arith : Arith float := {|
  of_int := of_Z; add_ := fadd; sub_ := fsub; mul_ := fmul; div_ := fdiv;
  pow_ := math_pow
|}.


(** The local variables of [calculate_apr]. *)
Record costs (F : Type) := {
  effective_rate : F;
  total_fees : F;
  total_interest : F;
  total_cost : F;
  adjusted_effective_rate : F;
  total_amount : F
}.
Arguments effective_rate {F}.
Arguments total_fees {F}.
Arguments total_interest {F}.
Arguments total_cost {F}.
Arguments adjusted_effective_rate {F}.
Arguments total_amount {F}.

Definition loan_amount : Z := 30000.

(** Lines 84-99 of the source: from the nominal rate (already divided by
    100) and the two fees to the adjusted rate and the amounts. *)
Definition yearly_costs {F} `{Arith F} (nominal_rate annual_fee term_fee : F)
  : res (costs F) :=
  let n := 12%positive in
  p ← pow_ (of_int 1 + (nominal_rate / of_int (Zpos n)))%arith n;
  let effective_rate := (p - of_int 1)%arith in
  let total_fees := (annual_fee + (term_fee * of_int 12))%arith in
  let total_interest := (of_int loan_amount * effective_rate)%arith in
  let total_cost := (total_fees + total_interest)%arith in
  let adjusted_effective_rate := (total_cost / of_int loan_amount)%arith in
  let total_amount := (of_int loan_amount + total_cost)%arith in
  mret {| effective_rate := effective_rate; total_fees := total_fees;
          total_interest := total_interest; total_cost := total_cost;
          adjusted_effective_rate := adjusted_effective_rate;
          total_amount := total_amount |}.

(** The dict [calculate_apr] returns. *)
Record apr := { apr_effective_rate : str; apr_example : str }.

Section Calculator.
Context `{U : Unicode}.

(** [float(xml_data.get(key, 0))] *)
Definition float_field (xml_data : gmap str str) (key : str) : res float :=
  match xml_data !! key with
  | Some text => float_of_str text
  | None => Ok (of_Z 0)
  end.

Definition percent (x : float) : str :=
  format_f 2 (fmul x (of_Z 100)) ++ u "%".

(** The body of the [try] in [calculate_apr]. *)
Definition calculate_apr_try (xml_data : gmap str str) : res apr :=
  rate ← float_field xml_data (u "kredittkort_nominell_rente");
  let nominal_rate := fdiv rate (of_Z 100) in
  annual_fee ← float_field xml_data (u "kredittkort_kort_arsgebyr");
  term_fee ← float_field xml_data (u "kredittkort_termingebyr");
  c ← yearly_costs nominal_rate annual_fee term_fee;
  let example :=
    u "Nom.rente " ++ percent nominal_rate
    ++ u ", eff.rente " ++ percent (adjusted_effective_rate c)
    ++ u ", l" ++ [229%N] ++ u "nebel" ++ [248%N] ++ u "p "
    ++ str_of_Z loan_amount
    ++ u ", nedbetalt o/ 12 m" ++ [229%N] ++ u "neder, kost: "
    ++ format_f 0 (total_cost c) ++ u ", tot: " ++ format_f 0 (total_amount c)
    ++ u "." in
  mret {| apr_effective_rate := percent (adjusted_effective_rate c);
          apr_example := example |}.

End Calculator.

(** ** The data that crosses the network *)

(** A JSON value as the code handles it: a string or a boolean. *)
Inductive pyval :=
  | VStr (s : str)
  | VBool (b : bool).

#[global] Instance pyval_eq_dec : EqDecision pyval.
Proof. solve_decision. Defined.

#[global] Instance pyval_countable : Countable pyval :=
  inj_countable'
    (fun v => match v with VStr s => inl s | VBool b => inr b end)
    (fun x => match x with inl s => VStr s | inr b => VBool b end)
    (fun v => match v with VStr _ | VBool _ => eq_refl end).

(** A CMS item as the list endpoints return it: ['id'] and ['fieldData']. *)
Record item := { item_id : str; item_fieldData : gmap str pyval }.

(** The JSON body of a write call. *)
Record payload := {
  isArchived : bool;
  isDraft : bool;
  fieldData : gmap str pyval
}.

(** An element of the parsed feed: its tag as (namespace, local name), its
    text ([None] when it has none) and its child elements. *)
Inductive element :=
  | Element (tag : str * str) (text : option str) (children : list element).

Definition tag_of (e : element) : str * str :=
  match e with Element tag _ _ => tag end.
Definition text_of (e : element) : option str :=
  match e with Element _ text _ => text end.
Definition children_of (e : element) : list element :=
  match e with Element _ _ children => children end.

(** The [namespaces] of the source. *)
Definition atom_ns : str := u "http://www.w3.org/2005/Atom".
Definition f_ns : str := u "http://www.finansportalen.no/feed/ns/1.0".

(** [e.find('prefix:name', namespaces)]: the first child with that tag. *)
Definition find (tag : str * str) (e : element) : option element :=
  List.find (fun c => bool_decide (tag_of c = tag)) (children_of e).

(** [e.findall('prefix:name', namespaces)] *)
Definition findall (tag : str * str) (e : element) : list element :=
  List.filter (fun c => bool_decide (tag_of c = tag)) (children_of e).

(** [e.findall('prefix:*', namespaces)]: the children in that namespace. *)
Definition findall_ns (ns : str) (e : element) : list element :=
  List.filter (fun c => bool_decide (fst (tag_of c) = ns)) (children_of e).

(** ** Effects *)

(** The calls the program makes.  [GetItems] and [GetBanks] list the offers
    collection and the bank collection; [PatchLive] and [PostLive] write to
    the offers collection's live endpoints. *)
Inductive request :=
  | GetFeed
  | GetItems (limit offset : nat)
  | GetBanks (limit offset : nat)
  | PatchLive (id : str) (json : payload)
  | PostLive (json : payload).

(** What the program prints or logs. *)
Inductive line :=
  | TotalEntries (total_entries : nat)
  | FeedFailed (status_code : Z)
  | AprError (e : exn)
  | ItemStatus (numerical_id : str) (status_code : Z)
  | NewItemStatus (numerical_id : str) (status_code : Z)
  | CreateFailed (numerical_id : str) (text : str)
  | EntryError (numerical_id : str) (e : exn)
  | Summary (successful_updates total_entries : nat)
  | Created (new_items_created : nat)
  | FetchFailed (status_code : Z)
  | Fetched (unique_items : nat)
  | BankFound (id orgnr : str)
  | BankPageFailed (offset : nat) (status_code : Z)
  | BankNotFound (orgnr : str).

Inductive event :=
  | Call (r : request)
  | Out (l : line)
  | Sleep (seconds : nat).

(** How a call ends: with an exception (the transport fails, or the body is
    not of the shape the code subscripts), or with a status code and a body. *)
Inductive outcome (A : Type) :=
  | Fails (e : exn)
  | Responds (status_code : Z) (body : A).
Arguments Fails {A} e.
Arguments Responds {A} status_code body.

(** The outside world, as an oracle: the first argument of every field is
    the number of calls made before. *)
Record world := {
  feed : nat -> outcome element;
  offers_page : nat -> nat -> outcome (list item);
  banks_page : nat -> nat -> outcome (list item);
  patch_live : nat -> str -> payload -> outcome unit;
  post_live : nat -> payload -> outcome str;
  yesterday : nat -> date
}.

(** A computation with effects: from the number of calls made so far to its
    result ([None] when a loop was still running as the fuel ran out), the
    events it left, and the number of calls made after it. *)
Definition M (A : Type) : Type := nat -> option (res A) * list event * nat.

#[global] Instance M_ret : MRet M := fun A a t => (Some (Ok a), [], t).
#[global] Instance M_bind : MBind M := fun A B f m t =>
  match m t with
  | (Some (Ok a), evs, t') =>
      let '(r, evs', t'') := f a t' in (r, evs ++ evs', t'')
  | (Some (Raise e), evs, t') => (Some (Raise e), evs, t')
  | (None, evs, t') => (None, evs, t')
  end.

Definition lift {A} (r : res A) : M A := fun t => (Some r, [], t).
Definition emit (ev : event) : M unit := fun t => (Some (Ok tt), [ev], t).
Definition print (l : line) : M unit := emit (Out l).
Definition sleep (seconds : nat) : M unit := emit (Sleep seconds).
Definition out_of_fuel {A} : M A := fun t => (None, [], t).

(** [requests.get], [requests.patch] and [requests.post]: the call is made,
    and the oracle says how it ends. *)
Definition http {A} (oracle : nat -> outcome A) (r : request) : M (Z * A) :=
  fun t =>
    match oracle t with
    | Fails e => (Some (Raise e), [Call r], S t)
    | Responds status_code body => (Some (Ok (status_code, body)), [Call r], S t)
    end.

(** [try: m except Exception as e: handler(e)] *)
Definition try_except {A} (m : M A) (handler : exn -> M A) : M A := fun t =>
  match m t with
  | (Some (Raise e), evs, t') =>
      let '(r, evs', t'') := handler e t' in (r, evs ++ evs', t'')
  | other => other
  end.

Definition events {A} (x : option (res A) * list event * nat) : list event :=
  snd (fst x).
Definition result {A} (x : option (res A) * list event * nat) : option (res A) :=
  fst (fst x).

(** ** The field-mapping table *)

(** [d[k] = v] on a dict kept in insertion order. *)
Fixpoint dict_set {V} (k : str) (v : V) (d : list (str * V)) : list (str * V) :=
  match d with
  | [] => [(k, v)]
  | (k', v') :: d' =>
      if decide (k' = k) then (k, v) :: d' else (k', v') :: dict_set k v d'
  end.

(** A dict literal: its pairs are set from left to right. *)
Definition dict_literal {V} (pairs : list (str * V)) : list (str * V) :=
  foldl (fun d kv => dict_set (fst kv) (snd kv) d) [] pairs.

(** The literal of the source, pair by pair (one key is written twice). *)
Definition field_mapping : list (str * str) := dict_literal [
  (u "kredittkort_andre_fordeler", u "kredittkort-andre-fordeler");
  (u "min_alder", u "aldersgrense-2");
  (u "maks_alder", u "min-alder-2");
  (u "kredittkort_reiseforsikring", u "reiseforsikring");
  (u "kredittkort_reiseforsikring_beskrivelse",
   u "kredittkort-reiseforsikring-beskrivelse-3");
  (u "leverandor_tekst", u "leverandor-tekst");
  (u "kredittkort_maks_ramme", u "kredittkort-maks-ramme-2");
  (u "kredittkort_min_inntekt", u "kredittkort-min-inntekt-2");
  (u "kredittkort_termingebyr", u "kredittkort-termingebyr-2");
  (u "kredittkort_nominell_rente", u "kredittkort-nominell-rente-3");
  (u "kredittkort_rentefri_periode", u "kredittkort-rentefri-periode-2");
  (u "kredittkort_andre_fordeler_beskrivelse",
   u "kredittkort-andre-fordeler-beskrivelse-2");
  (u "kredittkort_reiseforsikring_beskrivelse",
   u "kredittkort-reiseforsikring-beskrivelse-3");
  (u "kredittkort_uttak_egen_bank_i_apningstid_transgebyr",
   u "kredittkort-uttak-egen-bank-i-apningstid-2");
  (u "kredittkort_uttak_utland_valutapaslag",
   u "kredittkort-uttak-utland-valutapaslag-2");
  (u "effektiv_rente", u "effektiv-rente-4");
  (u "kredittkort_kort_arsgebyr", u "kredittkort-kort-arsgebyr-2");
  (u "eksempel_rente", u "eksempel-rente");
  (u "spesielle_betingelser", u "spesielle-betingelser")
].

(** ** Directory fetcher *)

(** The directory index: from an item's own ['slug'] to the item. *)
Abbreviation index := (gmap pyval item).

(** [range(start, stop, step)] for a positive step. *)
Definition range (start stop step : nat) : list nat :=
  List.map (fun k => start + k * step)%nat
           (seq 0 ((stop - start + step - 1) / step)).

Section Directory.
Context (w : world).

(** [all_items[item['fieldData'].get('slug', '')] = item] for every item of
    a page, in order. *)
Definition index_page (all_items : index) (items : list item) : index :=
  foldl (fun all_items item =>
           <[default (VStr []) (item_fieldData item !! u "slug") := item]> all_items)
        all_items items.

(** The [while True] loop of [fetch_all_webflow_items]; [fuel] bounds the
    number of pages. *)
Fixpoint fetch_pages (fuel : nat) (offset : nat) (all_items : index) : M index :=
  let limit := 100%nat in
  match fuel with
  | O => out_of_fuel
  | S fuel' =>
      '(status_code, items) ← http (fun t => offers_page w t offset)
                                   (GetItems limit offset);
      if status_code =? 200 then
        let all_items := index_page all_items items in
        if (length items <? limit)%nat then mret all_items
        else
          sleep 1;;
          fetch_pages fuel' (offset + limit)%nat all_items
      else
        print (FetchFailed status_code);;
        mret all_items
  end.

Definition fetch_all_webflow_items (fuel : nat) : M index :=
  all_items ← fetch_pages fuel 0 ∅;
  print (Fetched (size all_items));;
  mret all_items.

(** The first item of a page whose ['name'] equals [orgnr]: its ['id']. *)
Definition find_bank (orgnr : str) (items : list item) : option str :=
  item_id <$>
    List.find (fun item =>
                 bool_decide (item_fieldData item !! u "name" = Some (VStr orgnr)))
              items.

(** The [for offset in range(0, 400, 100)] loop of [get_bank_id]. *)
Fixpoint scan_banks (orgnr : str) (offsets : list nat) : M (option str) :=
  match offsets with
  | [] =>
      print (BankNotFound orgnr);;
      mret None
  | offset :: rest =>
      '(status_code, items) ← http (fun t => banks_page w t offset)
                                   (GetBanks 100 offset);
      if status_code =? 200 then
        match find_bank orgnr items with
        | Some id =>
            print (BankFound id orgnr);;
            mret (Some id)
        | None => scan_banks orgnr rest
        end
      else
        print (BankPageFailed offset status_code);;
        scan_banks orgnr rest
  end.

Definition get_bank_id (orgnr : str) : M (option str) :=
  scan_banks orgnr (range 0 400 100).

End Directory.

(** ** Reconciler *)

(** An entry of [xml_entries]: [(title, orgnr, xml_data, numerical_id)]. *)
Record xml_entry := {
  title : str;
  orgnr : str;
  xml_data : gmap str str;
  numerical_id : str
}.

Section Reconciler.
Context `{U : Unicode} (w : world).

(** [get_norwegian_date()]: the clock is read when the call is made. *)
Definition get_norwegian_date : M str :=
  fun t => lift (norwegian_date (yesterday w t)) t.

(** [calculate_apr]: any exception of the body is logged and turned into
    [None]. *)
Definition calculate_apr (xml_data : gmap str str) : M (option apr) :=
  match calculate_apr_try xml_data with
  | Ok result => mret (Some result)
  | Raise e =>
      print (AprError e);;
      mret None
  end.

(** One round of the loop over [field_mapping.items()]. *)
Definition map_field (xml_data : gmap str str) (fields : gmap str pyval)
    (kv : str * str) : res (gmap str pyval) :=
  let '(xml_field, webflow_field) := kv in
  match xml_data !! xml_field with
  | Some value =>
      if bool_decide (webflow_field ∈
           [u "kredittkort-reiseforsikring-beskrivelse-3";
            u "kredittkort-andre-fordeler-beskrivelse-2"])
      then Ok (<[webflow_field := VStr (sanitize_text value)]> fields)
      else if bool_decide (webflow_field = u "kredittkort-maks-ramme-2")
      then
        formatted ← format_norwegian_number value;
        Ok (<[webflow_field := VStr formatted]> fields)
      else Ok (<[webflow_field := VStr value]> fields)
  | None => Ok fields
  end.

Fixpoint map_fields (xml_data : gmap str str) (mapping : list (str * str))
    (fields : gmap str pyval) : res (gmap str pyval) :=
  match mapping with
  | [] => Ok fields
  | kv :: rest =>
      fields ← map_field xml_data fields kv;
      map_fields xml_data rest fields
  end.

(** [d.update(other)] *)
Definition dict_update (other : list (str * bool)) (d : gmap str pyval)
  : gmap str pyval :=
  foldl (fun d kv => <[fst kv := VBool (snd kv)]> d) d other.

Definition add_apr (result : option apr) (fields : gmap str pyval)
  : gmap str pyval :=
  match result with
  | Some a =>
      <[u "eksempel-rente" := VStr (apr_example a)]>
        (<[u "effektiv-rente-4" := VStr (apr_effective_rate a)]> fields)
  | None => fields
  end.

(** [if bank_id: fieldData['bank'] = bank_id]: an empty id is falsy. *)
Definition add_bank (bank_id : option str) (fields : gmap str pyval)
  : gmap str pyval :=
  match bank_id with
  | Some ((_ :: _) as id) => <[u "bank" := VStr id]> fields
  | _ => fields
  end.

(** Lines 193-225: the payload of an entry. *)
Definition build_payload (e : xml_entry) : M payload :=
  sist_oppdatert ← get_norwegian_date;
  let base : gmap str pyval :=
    <[u "sist-oppdatert" := VStr sist_oppdatert]>
      (<[u "leverandor-tekst" := VStr (orgnr e)]>
         (<[u "name" := VStr (title e)]> ∅)) in
  mapped ← lift (map_fields (xml_data e) field_mapping base);
  let andre_fordeler :=
    check_andre_fordeler
      (Some (default [] (xml_data e !! u "kredittkort_andre_fordeler_beskrivelse"))) in
  let flagged := dict_update andre_fordeler mapped in
  result ← calculate_apr (xml_data e);
  let costed := add_apr result flagged in
  bank_id ← get_bank_id w (orgnr e);
  mret {| isArchived := false; isDraft := false;
          fieldData := add_bank bank_id costed |}.

(** [create_payload]: the copy is shallow, so the slug is written into the
    one [fieldData] dict both payloads share; the update payload is not used
    after that. *)
Definition with_slug (numerical_id : str) (update_payload : payload) : payload :=
  {| isArchived := isArchived update_payload;
     isDraft := isDraft update_payload;
     fieldData := <[u "slug" := VStr numerical_id]> (fieldData update_payload) |}.

(** Lines 227-257: look the entry up and write.  Every item of the index is
    a non-empty dict, so [if webflow_item:] holds exactly when the key is
    found. *)
Definition dispatch (webflow_items : index) (numerical_id : str)
    (update_payload : payload) (successful_updates new_items_created : nat)
  : M (nat * nat) :=
  match webflow_items !! VStr numerical_id with
  | Some webflow_item =>
      '(status_code, _) ←
        http (fun t => patch_live w t (item_id webflow_item) update_payload)
             (PatchLive (item_id webflow_item) update_payload);
      print (ItemStatus numerical_id status_code);;
      if status_code =? 200
      then mret (S successful_updates, new_items_created)
      else mret (successful_updates, new_items_created)
  | None =>
      let create_payload := with_slug numerical_id update_payload in
      '(status_code, text) ←
        http (fun t => post_live w t create_payload) (PostLive create_payload);
      print (NewItemStatus numerical_id status_code);;
      if status_code =? 200
      then mret (successful_updates, S new_items_created)
      else
        print (CreateFailed numerical_id text);;
        mret (successful_updates, new_items_created)
  end.

(** The body of the [try] for one entry. *)
Definition entry_try (webflow_items : index) (e : xml_entry)
    (successful_updates new_items_created : nat) : M (nat * nat) :=
  update_payload ← build_payload e;
  dispatch webflow_items (numerical_id e) update_payload
           successful_updates new_items_created.

(** One round of the loop: the [try], its [except], and the delay. *)
Definition process_entry (webflow_items : index) (e : xml_entry)
    (successful_updates new_items_created : nat) : M (nat * nat) :=
  counters ←
    try_except
      (entry_try webflow_items e successful_updates new_items_created)
      (fun exc =>
         print (EntryError (numerical_id e) exc);;
         mret (successful_updates, new_items_created));
  sleep 1;;
  mret counters.

Fixpoint reconcile (webflow_items : index) (xml_entries : list xml_entry)
    (successful_updates new_items_created : nat) : M (nat * nat) :=
  match xml_entries with
  | [] => mret (successful_updates, new_items_created)
  | e :: rest =>
      '(successful_updates, new_items_created) ←
        process_entry webflow_items e successful_updates new_items_created;
      reconcile webflow_items rest successful_updates new_items_created
  end.

(** The two lines printed after the loop. *)
Definition summary (counters : nat * nat) (total_entries : nat) : M unit :=
  print (Summary (fst counters) total_entries);;
  print (Created (snd counters)).

Definition check_webflow_existence (fuel : nat) (xml_entries : list xml_entry)
    (total_entries : nat) : M unit :=
  webflow_items ← fetch_all_webflow_items w fuel;
  counters ← reconcile webflow_items xml_entries 0 0;
  summary counters total_entries.

(** ** Feed reader *)

(** [extract_id]: the last path segment of the entry's [atom:id]. *)
Definition extract_id (entry : element) : res str :=
  match find (atom_ns, u "id") entry with
  | Some id =>
      match text_of id with
      | Some text => py_index (split 47 text) (-1)
      | None => Raise AttributeError
      end
  | None => Raise AttributeError
  end.

(** [x.text.strip()]: [None] has no [strip]. *)
Definition text_strip (x : option element) : res str :=
  match x with
  | Some e =>
      match text_of e with
      | Some text => Ok (strip text)
      | None => Raise AttributeError
      end
  | None => Raise AttributeError
  end.

(** The dict comprehension over [entry.findall('f:*', namespaces)]: a later
    element of the same name replaces an earlier one. *)
Definition fields_of (entry : element) : gmap str str :=
  foldl (fun d elem =>
           <[snd (tag_of elem) :=
               match text_of elem with
               | Some ((_ :: _) as text) => strip text
               | _ => []
               end]> d)
        ∅ (findall_ns f_ns entry).

(** One tuple of the list comprehension of lines 123-126. *)
Definition parse_entry (entry : element) : res xml_entry :=
  title ← text_strip (find (atom_ns, u "title") entry);
  orgnr ←
    match find (f_ns, u "leverandor_tekst") entry with
    | Some _ as found => text_strip found
    | None => Ok []
    end;
  let xml_data := fields_of entry in
  numerical_id ← extract_id entry;
  mret {| title := title; orgnr := orgnr; xml_data := xml_data;
          numerical_id := numerical_id |}.

Fixpoint parse_entries (entries : list element) : res (list xml_entry) :=
  match entries with
  | [] => Ok []
  | entry :: rest =>
      e ← parse_entry entry;
      es ← parse_entries rest;
      mret (e :: es)
  end.

Definition parse_xml_and_process (fuel : nat) : M unit :=
  '(status_code, root) ← http (feed w) GetFeed;
  if status_code =? 200 then
    let entries := findall (atom_ns, u "entry") root in
    let total_entries := length entries in
    print (TotalEntries total_entries);;
    xml_entries ← lift (parse_entries entries);
    check_webflow_existence fuel xml_entries total_entries
  else
    print (FeedFailed status_code).

Definition main (fuel : nat) : M unit := parse_xml_and_process fuel.

End Reconciler.

(** ** Single items

    [fetch_webflow_item] and [update_specific_item] read and write one item
    of the offers collection by its id.  [main] does not call them; they
    have their own calls and log lines, and are written with the clock
    passed along explicitly: each takes the number of calls made before and
    returns its result, the events it left and the number of calls made
    after. *)
Module Single.

Inductive request :=
  | GetItem (item_id : str)
  | PatchItemLive (slug_id : str) (json : payload).

Inductive line :=
  | ItemFetchFailed (item_id : str) (status_code : Z)
  | SlugFetchFailed (slug_id : str) (status_code : Z)
  | ItemUpdated (slug_id : str)
  | ItemUpdateFailed (slug_id : str) (status_code : Z).

Inductive event :=
  | Call (r : request)
  | Log (l : line).

(** The oracle of these calls, indexed like [world]. *)
Record world := {
  get_item : nat -> str -> outcome item;
  patch_item : nat -> str -> payload -> outcome unit;
  yesterday : nat -> date
}.


(** The payload of lines 145-154: two fields copied from the fetched item,
    an absent one read as [''], and the date line. *)
Definition update_payload_of (item : item) (sist_oppdatert : str) : payload :=
  {| isArchived := false;
     isDraft := false;
     fieldData :=
       <[u "sist-oppdatert" := VStr sist_oppdatert]>
         (<[u "f-leverandor-tekst" :=
              default (VStr []) (item_fieldData item !! u "f-leverandor-tekst")]>
            (<[u "name" := default (VStr []) (item_fieldData item !! u "name")]>
               ∅)) |}.

Definition update_specific_item (w : world) (slug_id : str) (t : nat)
  : res unit * list event * nat :=
  match get_item w t slug_id with
  | Fails e => (Raise e, [Call (GetItem slug_id)], S t)
  | Responds status_code item =>
      if negb (status_code =? 200)
      then (Ok tt,
            [Call (GetItem slug_id); Log (SlugFetchFailed slug_id status_code)],
            S t)
      else
        match norwegian_date (yesterday w (S t)) with
        | Raise e => (Raise e, [Call (GetItem slug_id)], S t)
        | Ok sist_oppdatert =>
            let update_payload := update_payload_of item sist_oppdatert in
            let calls :=
              [Call (GetItem slug_id);
               Call (PatchItemLive slug_id update_payload)] in
            match patch_item w (S t) slug_id update_payload with
            | Fails e => (Raise e, calls, S (S t))
            | Responds status_code _ =>
                (Ok tt,
                 calls ++ [Log (if status_code =? 200
                                then ItemUpdated slug_id
                                else ItemUpdateFailed slug_id status_code)],
                 S (S t))
            end
        end
  end.

(** The payload of a write call. *)
Definition sent (ev : event) : option payload :=
  match ev with
  | Call (PatchItemLive _ json) => Some json
  | _ => None
  end.

End Single.

(** ** A fragment of the Unicode character database *)

(** The compatibility decompositions of the code points below U+0100 and of
    the letterlike symbols U+2103, U+2116, U+2121 and U+2122. *)
Definition nfkd_table : list (N * str) :=
  [(160, [32]); (168, [32; 776]); (170, [97]); (175, [32; 772]); (178, [50]);
   (179, [51]); (180, [32; 769]); (181, [956]); (184, [32; 807]); (185, [49]);
   (186, [111]); (188, [49; 8260; 52]); (189, [49; 8260; 50]);
   (190, [51; 8260; 52]); (192, [65; 768]); (193, [65; 769]); (194, [65; 770]);
   (195, [65; 771]); (196, [65; 776]); (197, [65; 778]); (199, [67; 807]);
   (200, [69; 768]); (201, [69; 769]); (202, [69; 770]); (203, [69; 776]);
   (204, [73; 768]); (205, [73; 769]); (206, [73; 770]); (207, [73; 776]);
   (209, [78; 771]); (210, [79; 768]); (211, [79; 769]); (212, [79; 770]);
   (213, [79; 771]); (214, [79; 776]); (217, [85; 768]); (218, [85; 769]);
   (219, [85; 770]); (220, [85; 776]); (221, [89; 769]); (224, [97; 768]);
   (225, [97; 769]); (226, [97; 770]); (227, [97; 771]); (228, [97; 776]);
   (229, [97; 778]); (231, [99; 807]); (232, [101; 768]); (233, [101; 769]);
   (234, [101; 770]); (235, [101; 776]); (236, [105; 768]); (237, [105; 769]);
   (238, [105; 770]); (239, [105; 776]); (241, [110; 771]); (242, [111; 768]);
   (243, [111; 769]); (244, [111; 770]); (245, [111; 771]); (246, [111; 776]);
   (249, [117; 768]); (250, [117; 769]); (251, [117; 770]); (252, [117; 776]);
   (253, [121; 769]); (255, [121; 776]);
   (8451, [176; 67]); (8470, [78; 111]); (8481, [84; 69; 76]); (8482, [84; 77])]%N.

Definition nfkd_point (c : N) : str :=
  match List.find (fun kv => (fst kv =? c)%N) nfkd_table with
  | Some kv => snd kv
  | None => [c]
  end.

(** The lower-case mapping of the same code points: the letters A-Z and
    U+00C0-U+00DE (the multiplication sign apart) move up by 32. *)
Definition lower_point (c : N) : N :=
  if ((65 <=? c) && (c <=? 90)
      || (192 <=? c) && (c <=? 222) && negb (c =? 215))%N
  then (c + 32)%N else c.

(** The code points the fragment covers. *)
Definition in_fragment (s : str) : bool :=
  forallb (fun c => (c <? 256)%N || bool_decide (c ∈ [8451; 8470; 8481; 8482]%N)) s.

(** On a string of the fragment, [lower] and [nfkd] are what
    [str.lower] and [unicodedata.normalize('NFKD', _)] compute, and no code
    point of the fragment above ASCII is a decimal digit. *)
#[global] Instance latin1 : Unicode := {|
  lower := List.map lower_point;
  nfkd := fun s => List.concat (List.map nfkd_point s);
  todecimal := fun _ => None
|}.

(** ** Sample inputs

    Concrete entries and worlds on which the definitions above are run, with
    the Unicode tables of [latin1]. *)

(** The day every sample world reports as yesterday. *)
Definition sample_day : date := {| year := 2026; month := 11; day := 2 |}.

(** A world with an empty CMS in which every call succeeds with status 200. *)
Definition quiet_world : world := {|
  feed := fun _ => Responds 200 (Element (atom_ns, u "feed") None []);
  offers_page := fun _ _ => Responds 200 [];
  banks_page := fun _ _ => Responds 200 [];
  patch_live := fun _ _ _ => Responds 200 tt;
  post_live := fun _ _ => Responds 200 [];
  yesterday := fun _ => sample_day
|}.

Definition sample_bank : item :=
  {| item_id := u "b1"; item_fieldData := {[ u "name" := VStr (u "Bank") ]} |}.

(** A world whose first bank page fails with status 500 and whose second
    bank page lists [sample_bank]. *)
Definition bank_retry_world : world := {|
  feed := feed quiet_world;
  offers_page := offers_page quiet_world;
  banks_page := fun _ offset =>
    if (offset =? 0)%nat then Responds 500 []
    else if (offset =? 100)%nat then Responds 200 [sample_bank]
    else Responds 200 [];
  patch_live := patch_live quiet_world;
  post_live := post_live quiet_world;
  yesterday := yesterday quiet_world
|}.

(** A directory whose first page is full and whose second page fails. *)
Definition sample_offer : item :=
  {| item_id := u "i1"; item_fieldData := {[ u "slug" := VStr (u "101") ]} |}.


(** Feed entries: a complete one, one without provider, one without title
    and one without id. *)
Definition atom_id : element :=
  Element (atom_ns, u "id") (Some (u "https://www.finansportalen.no/kredittkort/101")) [].
Definition atom_title : element :=
  Element (atom_ns, u "title") (Some (u " Gullkort ")) [].
Definition f_provider : element :=
  Element (f_ns, u "leverandor_tekst") (Some (u "Bank")) [].
Definition f_fee : element :=
  Element (f_ns, u "kredittkort_termingebyr") (Some (u "35")) [].

Definition entry_complete : element :=
  Element (atom_ns, u "entry") None [atom_id; atom_title; f_provider; f_fee].
Definition entry_without_provider : element :=
  Element (atom_ns, u "entry") None [atom_id; atom_title; f_fee].
Definition entry_without_title : element :=
  Element (atom_ns, u "entry") None [atom_id; f_provider; f_fee].
Definition entry_without_id : element :=
  Element (atom_ns, u "entry") None [atom_title; f_provider; f_fee].

(** A world whose feed holds a complete entry and one without id. *)
Definition broken_feed_world : world := {|
  feed := fun _ =>
    Responds 200 (Element (atom_ns, u "feed") None [entry_complete; entry_without_id]);
  offers_page := offers_page quiet_world;
  banks_page := banks_page quiet_world;
  patch_live := patch_live quiet_world;
  post_live := post_live quiet_world;
  yesterday := yesterday quiet_world
|}.

(** A world whose feed holds a complete entry and one without title. *)
Definition untitled_feed_world : world := {|
  feed := fun _ =>
    Responds 200
      (Element (atom_ns, u "feed") None [entry_complete; entry_without_title]);
  offers_page := offers_page quiet_world;
  banks_page := banks_page quiet_world;
  patch_live := patch_live quiet_world;
  post_live := post_live quiet_world;
  yesterday := yesterday quiet_world
|}.

(** Entries as the feed reader hands them to the reconciler. *)
Definition sample_entry : xml_entry := {|
  title := u "Gullkort";
  orgnr := u "Bank";
  xml_data :=
    <[u "kredittkort_nominell_rente" := u "20"]>
      (<[u "kredittkort_kort_arsgebyr" := u "300"]>
         (<[u "kredittkort_termingebyr" := u "35"]>
            (<[u "effektiv_rente" := u "24.5"]> ∅)));
  numerical_id := u "101"
|}.

(** The same entry with a fee that is no number. *)
Definition entry_with_bad_fee : xml_entry := {|
  title := title sample_entry;
  orgnr := orgnr sample_entry;
  xml_data := <[u "kredittkort_termingebyr" := u "abc"]> (xml_data sample_entry);
  numerical_id := numerical_id sample_entry
|}.

(** An entry whose credit limit is infinite: formatting it raises. *)
Definition entry_with_infinite_limit : xml_entry := {|
  title := title sample_entry;
  orgnr := orgnr sample_entry;
  xml_data := <[u "kredittkort_maks_ramme" := u "inf"]> (xml_data sample_entry);
  numerical_id := u "102"
|}.

(** A directory that knows the sample entry. *)
Definition sample_index : index := index_page ∅ [sample_offer].

(** Worlds for the directory, the feed and the single-item calls. *)

(** A directory of two pages: a full one and a short one. *)
Definition two_page_world : world := {|
  feed := feed quiet_world;
  offers_page := fun _ offset =>
    if (offset =? 0)%nat then Responds 200 (repeat sample_offer 100)
    else Responds 200 [sample_offer];
  banks_page := banks_page quiet_world;
  patch_live := patch_live quiet_world;
  post_live := post_live quiet_world;
  yesterday := yesterday quiet_world
|}.

(** A world whose directory is down: every page answers 503. *)
Definition outage_world : world := {|
  feed := feed quiet_world;
  offers_page := fun _ _ => Responds 503 [];
  banks_page := banks_page quiet_world;
  patch_live := patch_live quiet_world;
  post_live := post_live quiet_world;
  yesterday := yesterday quiet_world
|}.

(** A world whose feed answers 503, and one whose feed holds the complete
    sample entry. *)
Definition feed_down_world : world := {|
  feed := fun _ => Responds 503 (Element (atom_ns, u "feed") None []);
  offers_page := offers_page quiet_world;
  banks_page := banks_page quiet_world;
  patch_live := patch_live quiet_world;
  post_live := post_live quiet_world;
  yesterday := yesterday quiet_world
|}.

Definition one_entry_world : world := {|
  feed := fun _ => Responds 200 (Element (atom_ns, u "feed") None [entry_complete]);
  offers_page := offers_page quiet_world;
  banks_page := banks_page quiet_world;
  patch_live := patch_live quiet_world;
  post_live := post_live quiet_world;
  yesterday := yesterday quiet_world
|}.

(** A store holding one item, which every call finds. *)
Definition sample_item : item :=
  {| item_id := u "i1";
     item_fieldData := {[ u "name" := VStr (u "Gullkort") ]} |}.

Definition single_world : Single.world := {|
  Single.get_item := fun _ _ => Responds 200 sample_item;
  Single.patch_item := fun _ _ _ => Responds 200 tt;
  Single.yesterday := fun _ => sample_day
|}.

(** ** The vocabulary of the properties *)

Definition is_ascii_upper (c : N) : bool := ((65 <=? c) && (c <=? 90))%N.

(** [spec P Q m]: every event [m] leaves satisfies [P], and a value it
    returns satisfies [Q]. *)
Definition spec {A} (P : event -> Prop) (Q : A -> Prop) (m : M A) : Prop :=
  forall t, Forall P (events (m t)) /\
            forall a, result (m t) = Some (Ok a) -> Q a.

(** [total m]: [m] returns or raises, whatever the fuel. *)
Definition total {A} (m : M A) : Prop := forall t, result (m t) <> None.

(** The world answers the calls from time [t] on with the full pages
    [pages], starting at [offset]. *)
Fixpoint serves (w : world) (t offset : nat) (pages : list (list item)) : Prop :=
  match pages with
  | [] => True
  | items :: rest =>
      offers_page w t offset = Responds 200 items /\
      (100 <= length items)%nat /\
      serves w (S t) (offset + 100) rest
  end.

(** What the loop leaves while it reads [k] full pages from [offset]. *)
Fixpoint full_page_events (offset k : nat) : list event :=
  match k with
  | O => []
  | S k' =>
      Call (GetItems 100 offset) :: Sleep 1 :: full_page_events (offset + 100) k'
  end.

(** The field names a write payload may carry. *)
Definition base_fields : list str :=
  [u "name"; u "leverandor-tekst"; u "sist-oppdatert"].
Definition flag_names : list str :=
  [u "priority-pass"; u "cashback"; u "rabatter"; u "bonuser"].
Definition cost_fields : list str := [u "effektiv-rente-4"; u "eksempel-rente"].
Definition update_whitelist : list str :=
  base_fields ++ List.map snd field_mapping ++ flag_names ++ cost_fields
  ++ [u "bank"].
Definition create_whitelist : list str := u "slug" :: update_whitelist.

Definition keys_within (allowed : list str) (d : gmap str pyval) : Prop :=
  forall k, is_Some (d !! k) -> k ∈ allowed.

(** A payload that publishes the item and carries allowed fields only. *)
Definition published (allowed : list str) (json : payload) : Prop :=
  isArchived json = false /\ isDraft json = false /\
  keys_within allowed (fieldData json).

Definition write_ok (ev : event) : Prop :=
  match ev with
  | Call (PatchLive _ json) => published update_whitelist json
  | Call (PostLive json) => published create_whitelist json
  | _ => True
  end.

(** The events of building a payload: bank pages and their lines, and the
    line of a failed cost calculation. *)
Definition preparing (ev : event) : Prop :=
  match ev with
  | Call (GetBanks _ _) | Out (AprError _) | Out (BankFound _ _)
  | Out (BankPageFailed _ _) | Out (BankNotFound _) => True
  | _ => False
  end.

(** The line that closes the processing of an entry names the entry. *)
Definition outcome_of (ev : event) : option str :=
  match ev with
  | Out (ItemStatus numerical_id _) | Out (NewItemStatus numerical_id _)
  | Out (EntryError numerical_id _) => Some numerical_id
  | _ => None
  end.

(** What [calculate_apr] returns, apart from the line it logs. *)
Definition apr_of `{U : Unicode} (xml_data : gmap str str) : option apr :=
  match calculate_apr_try xml_data with
  | Ok result => Some result
  | Raise _ => None
  end.

(** The write call of an entry: an update of the item found under the
    entry's identifier, or a creation. *)
Definition write_request (webflow_items : index) (numerical_id : str)
    (json : payload) : request :=
  match webflow_items !! VStr numerical_id with
  | Some webflow_item => PatchLive (item_id webflow_item) json
  | None => PostLive (with_slug numerical_id json)
  end.

(** The field [k] of the payload a write call carries. *)
Definition sent_field (k : str) (ev : event) : option (option pyval) :=
  match ev with
  | Call (PatchLive _ json) | Call (PostLive json) => Some (fieldData json !! k)
  | _ => None
  end.

(** The CMS fields the mapping loop copies as they are. *)
Definition copied (webflow_field : str) : Prop :=
  (webflow_field ∉ [u "kredittkort-reiseforsikring-beskrivelse-3";
                    u "kredittkort-andre-fordeler-beskrivelse-2"]) /\
  webflow_field <> u "kredittkort-maks-ramme-2".


(** A text is tidy when its only whitespace is single spaces that stand
    between two other characters; [after_space] tells that the text before
    ended with a space, or that there is none. *)
Fixpoint tidy_from (after_space : bool) (s : str) : bool :=
  match s with
  | [] => negb after_space
  | c :: s' =>
      if isspace c then (c =? 32)%N && negb after_space && tidy_from true s'
      else tidy_from false s'
  end.

Definition tidy (s : str) : bool :=
  match s with
  | [] => true
  | _ :: _ => tidy_from true s
  end.

(** The characters of a text that are not whitespace, in order. *)
Definition ink (s : str) : str := List.filter (fun c => negb (isspace c)) s.

(** [k] occurs in [s]: what Python's [k in s] decides for two strings. *)
Definition occurs (k s : str) : Prop := exists a b, s = a ++ k ++ b.

(** The value the dict comprehension of [parse_xml_and_process] gives an
    element: [elem.text.strip() if elem.text else '']. *)
Definition field_text (elem : element) : str :=
  match text_of elem with
  | Some ((_ :: _) as text) => strip text
  | _ => []
  end.

(** The key [fetch_all_webflow_items] files an item under:
    [item['fieldData'].get('slug', '')]. *)
Definition slug_key (it : item) : pyval :=
  default (VStr []) (item_fieldData it !! u "slug").

(** Kinds of events, and how many of a kind a trace holds. *)
Definition is_call (ev : event) : bool :=
  match ev with Call _ => true | _ => false end.
Definition is_write (ev : event) : bool :=
  match ev with Call (PatchLive _ _) | Call (PostLive _) => true | _ => false end.
Definition is_patch (ev : event) : bool :=
  match ev with Call (PatchLive _ _) => true | _ => false end.
Definition is_sleep (ev : event) : bool :=
  match ev with Sleep _ => true | _ => false end.
(** The line of an update, or of a creation, that the CMS answered with 200. *)
Definition updated (ev : event) : bool :=
  match ev with Out (ItemStatus _ status_code) => status_code =? 200 | _ => false end.
Definition created (ev : event) : bool :=
  match ev with Out (NewItemStatus _ status_code) => status_code =? 200 | _ => false end.
Definition count (kind : event -> bool) (evs : list event) : nat :=
  length (List.filter kind evs).

(** * Properties *)

(** ** The normalizer *)

Lemma lstrip_incl (s : str) (c : N) : c ∈ lstrip s -> c ∈ s.
Proof.
  induction s as [|a s IH]; simpl; [done|].
  destruct (isspace a); [|done].
  intros Hc. apply elem_of_cons. right. by apply IH.
Qed.

Lemma strip_incl (s : str) (c : N) : c ∈ strip s -> c ∈ s.
Proof.
  unfold strip, rstrip. intros Hc.
  apply list_elem_of_In, in_rev, list_elem_of_In, lstrip_incl in Hc.
  apply list_elem_of_In, in_rev, list_elem_of_In in Hc.
  by apply lstrip_incl.
Qed.

(** Whatever the Unicode tables say, no character of the strip set survives
    in a slug: the substitution runs after every other step but the trim. *)
Lemma normalize_for_slug_strip_set `{U : Unicode} (text : option str) (c : N) :
  c ∈ normalize_for_slug text -> c ∉ strip_set.
Proof.
  unfold normalize_for_slug. intros Hc%strip_incl.
  unfold sub_strip_set in Hc.
  apply list_elem_of_In, filter_In in Hc as [_ Hc].
  unfold in_strip_set in Hc. by case_bool_decide.
Qed.

(** An empty or absent text gives the empty slug, as soon as the lower-case
    and the normal form of the empty string are empty. *)
Lemma normalize_for_slug_empty `{U : Unicode} :
  lower [] = [] -> nfkd [] = [] ->
  normalize_for_slug None = [] /\ normalize_for_slug (Some []) = [].
Proof.
  intros Hlower Hnfkd. unfold normalize_for_slug.
  rewrite Hlower. cbn [replace1 List.map]. rewrite Hnfkd. by split.
Qed.

(** C8, at the input that breaks it: the trade mark sign U+2122 has no
    lower-case form, so [lower] leaves it alone, and its compatibility
    decomposition, taken afterwards, is the two capital letters T and M.  The
    slug of that one character is "TM": it holds upper-case ASCII letters. *)
Theorem normalize_for_slug_trademark :
  in_fragment [8482%N] = true /\
  normalize_for_slug (U:=latin1) (Some [8482%N]) = u "TM" /\
  existsb is_ascii_upper (normalize_for_slug (U:=latin1) (Some [8482%N])) = true.
Proof. repeat split; vm_compute; reflexivity. Qed.

(** [float(s)] fails with a [ValueError] or not at all. *)
Lemma float_of_str_error `{U : Unicode} (s : str) (e : exn) :
  float_of_str s = Raise e -> e = ValueError.
Proof.
  unfold float_of_str. destruct (parse_float s); [discriminate|].
  by intros [= <-].
Qed.

(** *** Grouping by three *)










(** An infinity parses as a float but has no integer value: the
    [OverflowError] of [int] is not a [ValueError] and leaves the function. *)
Example format_norwegian_number_inf :
  format_norwegian_number (u "inf") = Raise OverflowError.
Proof. vm_compute; reflexivity. Qed.

(** ** The effect monad *)

Lemma bind_run {A B} (m : M A) (f : A -> M B) (t : nat) :
  (m ≫= f) t =
  match m t with
  | (Some (Ok a), evs, t') =>
      let '(r, evs', t'') := f a t' in (r, evs ++ evs', t'')
  | (Some (Raise e), evs, t') => (Some (Raise e), evs, t')
  | (None, evs, t') => (None, evs, t')
  end.
Proof. reflexivity. Qed.

Lemma http_run {A} (oracle : nat -> outcome A) (r : request) (t : nat) :
  http oracle r t =
  match oracle t with
  | Fails e => (Some (Raise e), [Call r], S t)
  | Responds status_code body => (Some (Ok (status_code, body)), [Call r], S t)
  end.
Proof. reflexivity. Qed.

Lemma emit_then {A} (ev : event) (k : M A) (t : nat) :
  (emit ev ≫= fun _ => k) t =
  let '(r, evs, t') := k t in (r, ev :: evs, t').
Proof. rewrite bind_run. unfold emit. by destruct (k t) as [[r evs] t']. Qed.

Lemma spec_ret {A} (P : event -> Prop) (Q : A -> Prop) (a : A) :
  Q a -> spec P Q (mret a).
Proof.
  intros Ha t. split; [constructor|].
  intros a' [= <-]. exact Ha.
Qed.

Lemma spec_bind {A B} (P : event -> Prop) (Q1 : A -> Prop) (Q2 : B -> Prop)
    (m : M A) (f : A -> M B) :
  spec P Q1 m -> (forall a, Q1 a -> spec P Q2 (f a)) -> spec P Q2 (m ≫= f).
Proof.
  intros Hm Hf t. rewrite bind_run.
  destruct (Hm t) as [Hev Hres]. unfold events, result in *.
  destruct (m t) as [[[[a|e]|] evs] t']; simpl in *;
    [|split; [done|discriminate]..].
  destruct (Hf a (Hres a eq_refl) t') as [Hev' Hres'].
  unfold events, result in *.
  destruct (f a t') as [[r evs'] t'']; simpl in *.
  split; [by apply Forall_app|done].
Qed.

Lemma spec_weaken {A} (P P' : event -> Prop) (Q Q' : A -> Prop) (m : M A) :
  (forall ev, P ev -> P' ev) -> (forall a, Q a -> Q' a) ->
  spec P Q m -> spec P' Q' m.
Proof.
  intros HP HQ Hm t. destruct (Hm t) as [Hev Hres].
  split; [by eapply Forall_impl|auto].
Qed.

Lemma spec_emit (P : event -> Prop) (Q : unit -> Prop) (ev : event) :
  P ev -> Q tt -> spec P Q (emit ev).
Proof.
  intros Hev HQ t. split; [by repeat constructor|].
  by intros [] _.
Qed.

Lemma spec_lift {A} (P : event -> Prop) (Q : A -> Prop) (r : res A) :
  (forall a, r = Ok a -> Q a) -> spec P Q (lift r).
Proof.
  intros HQ t. split; [constructor|].
  intros a [= ->]. by apply HQ.
Qed.

Lemma spec_http {A} (P : event -> Prop) (oracle : nat -> outcome A) (r : request) :
  P (Call r) -> spec P (fun _ => True) (http oracle r).
Proof.
  intros Hr t. rewrite http_run.
  destruct (oracle t); (split; [by repeat constructor|done]).
Qed.

Lemma total_ret {A} (a : A) : total (mret a : M A).
Proof. by intros t. Qed.

Lemma total_bind {A B} (m : M A) (f : A -> M B) :
  total m -> (forall a, total (f a)) -> total (m ≫= f).
Proof.
  intros Hm Hf t. rewrite bind_run.
  specialize (Hm t). unfold result in *.
  destruct (m t) as [[[[a|e]|] evs] t']; simpl in *; [|done..].
  specialize (Hf a t'). unfold result in Hf.
  by destruct (f a t') as [[r evs'] t''].
Qed.

Lemma total_emit (ev : event) : total (emit ev).
Proof. by intros t. Qed.

Lemma total_lift {A} (r : res A) : total (lift r).
Proof. by intros t. Qed.

Lemma total_http {A} (oracle : nat -> outcome A) (r : request) :
  total (http oracle r).
Proof. intros t. rewrite http_run. by destruct (oracle t). Qed.

(** ** Directory fetcher *)

Section DirectoryFacts.
Context (w : world).

(** A page that does not answer 200 ends the directory fetch at once: the
    failure is printed and the index built so far is returned. *)
Lemma fetch_pages_failed (fuel offset t : nat) (all_items : index)
    (status_code : Z) (items : list item) :
  offers_page w t offset = Responds status_code items ->
  status_code <> 200 ->
  fetch_pages w (S fuel) offset all_items t =
  (Some (Ok all_items),
   [Call (GetItems 100 offset); Out (FetchFailed status_code)], S t).
Proof.
  intros Hpage Hstatus. cbn [fetch_pages].
  rewrite bind_run, http_run, Hpage.
  apply Z.eqb_neq in Hstatus. cbn. by rewrite Hstatus.
Qed.

(** A full page answered with 200 is indexed, and the loop goes on with the
    next offset after the delay. *)
Lemma fetch_pages_full (fuel offset t : nat) (all_items : index)
    (items : list item) :
  offers_page w t offset = Responds 200 items ->
  (100 <= length items)%nat ->
  fetch_pages w (S fuel) offset all_items t =
  let '(r, evs, t') :=
    fetch_pages w fuel (offset + 100) (index_page all_items items) (S t) in
  (r, Call (GetItems 100 offset) :: Sleep 1 :: evs, t').
Proof.
  intros Hpage Hlen. cbn [fetch_pages].
  rewrite bind_run, http_run, Hpage. cbn.
  assert ((length items <=? 99)%nat = false) as -> by (apply Nat.leb_gt; lia).
  rewrite bind_run. cbn.
  by destruct (fetch_pages w fuel (offset + 100) _ (S t)) as [[r evs] t'].
Qed.



End DirectoryFacts.




(** ** Feed reader *)

(** [l[-1]] is the last element of [l]. *)
Lemma py_index_last {A} (l : list A) :
  py_index l (-1) = match last l with Some x => Ok x | None => Raise IndexError end.
Proof.
  unfold py_index. change (-1 <? 0) with true. cbv beta iota.
  destruct (last l) as [x|] eqn:Hlast.
  - apply last_Some in Hlast as [l' ->]. rewrite length_app. cbn [length].
    assert ((0 <=? -1 + Z.of_nat (length l' + 1))
            && (-1 + Z.of_nat (length l' + 1) <? Z.of_nat (length l' + 1)) = true)
      as -> by (apply andb_true_intro; split; [apply Z.leb_le|apply Z.ltb_lt]; lia).
    replace (Z.to_nat (-1 + Z.of_nat (length l' + 1))) with (length l') by lia.
    by rewrite list_lookup_middle.
  - apply last_None in Hlast as ->. reflexivity.
Qed.

(** [s.split(sep)] is never empty: its last piece is what follows the last
    separator, or all of [s] when there is none. *)
Lemma split_segments (sep : N) (s : str) :
  exists w ws,
    split sep s = w :: ws /\ (sep ∉ w) /\
    (ws = [] -> s = w) /\
    (forall r, last ws = Some r -> (sep ∉ r) /\ exists p, s = p ++ sep :: r).
Proof.
  induction s as [|c s (w & ws & Hsplit & Hw & Hone & Hlast)]; cbn [split].
  - exists [], []. split; [done|]. split; [apply not_elem_of_nil|]. by split.
  - rewrite Hsplit. destruct (c =? sep)%N eqn:Hc.
    + apply N.eqb_eq in Hc as ->. exists [], (w :: ws).
      split; [done|]. split; [apply not_elem_of_nil|]. split; [done|].
      intros r Hr. destruct ws as [|w' ws].
      * injection Hr as <-. split; [done|]. exists []. by rewrite (Hone eq_refl).
      * destruct (Hlast r Hr) as (Hsep & p & ->).
        split; [done|]. by exists (sep :: p).
    + apply N.eqb_neq in Hc. exists (c :: w), ws. split; [done|].
      split; [by apply not_elem_of_cons|].
      split; [by intros ->%Hone|].
      intros r Hr. destruct (Hlast r Hr) as (Hsep & p & ->).
      split; [done|]. by exists (c :: p).
Qed.

Lemma split_last (sep : N) (s : str) :
  exists r, last (split sep s) = Some r /\ (sep ∉ r) /\
            (s = r \/ exists p, s = p ++ sep :: r).
Proof.
  destruct (split_segments sep s) as (w & ws & -> & Hw & Hone & Hlast).
  destruct ws as [|w' ws].
  - exists w. split; [done|]. split; [done|]. left. by apply Hone.
  - destruct (last (w' :: ws)) as [r|] eqn:Hr.
    + exists r. destruct (Hlast r eq_refl) as [Hsep Hp].
      split; [done|]. split; [done|]. by right.
    + by apply last_None in Hr.
Qed.

Section FeedFacts.
Context `{U : Unicode}.

(** A failing [x.text.strip()] or [extract_id] raises [AttributeError]. *)
Lemma text_strip_error (x : option element) (e : exn) :
  text_strip x = Raise e -> e = AttributeError.
Proof.
  unfold text_strip. destruct x as [el|]; [|by intros [= <-]].
  destruct (text_of el); [done|by intros [= <-]].
Qed.

Lemma extract_id_error (entry : element) (e : exn) :
  extract_id entry = Raise e -> e = AttributeError.
Proof.
  unfold extract_id.
  destruct (find (atom_ns, u "id") entry) as [id|]; [|by intros [= <-]].
  destruct (text_of id) as [text|]; [|by intros [= <-]].
  rewrite py_index_last. by destruct (split_last 47 text) as (r & -> & _).
Qed.

Lemma parse_entry_no_title (entry : element) :
  find (atom_ns, u "title") entry = None ->
  parse_entry entry = Raise AttributeError.
Proof. intros Hfind. unfold parse_entry. by rewrite Hfind. Qed.

Lemma parse_entry_no_provider (entry : element) (title numerical_id : str) :
  text_strip (find (atom_ns, u "title") entry) = Ok title ->
  find (f_ns, u "leverandor_tekst") entry = None ->
  extract_id entry = Ok numerical_id ->
  parse_entry entry =
  Ok {| title := title; orgnr := []; xml_data := fields_of entry;
        numerical_id := numerical_id |}.
Proof.
  intros Htitle Hprov Hid. unfold parse_entry.
  rewrite Htitle, Hprov. cbn. by rewrite Hid.
Qed.

Lemma parse_entry_no_id (entry : element) (e : exn) :
  extract_id entry = Raise e -> exists e', parse_entry entry = Raise e'.
Proof.
  intros Hid. unfold parse_entry.
  destruct (text_strip (find (atom_ns, u "title") entry)) as [title|e1];
    [|cbn; eauto].
  cbn. destruct (find (f_ns, u "leverandor_tekst") entry) as [provider|].
  - destruct (text_of provider) as [text|]; cbn; [|eauto].
    rewrite Hid. cbn. eauto.
  - cbn. rewrite Hid. cbn. eauto.
Qed.

Lemma parse_entries_raise (entries : list element) (entry : element) (e : exn) :
  entry ∈ entries -> parse_entry entry = Raise e ->
  exists e', parse_entries entries = Raise e'.
Proof.
  induction entries as [|x entries IH]; intros Hin Hraise.
  - by apply elem_of_nil in Hin.
  - cbn [parse_entries]. apply elem_of_cons in Hin as [<-|Hin].
    + rewrite Hraise. cbn. eauto.
    + destruct (parse_entry x) as [y|e1]; [|cbn; eauto].
      destruct (IH Hin Hraise) as [e' He']. cbn. rewrite He'. cbn. eauto.
Qed.

(** A parse failure ends the run before any CMS call is made. *)
Lemma parse_failure_is_fatal (w : world) (fuel t : nat) (root : element) (e : exn) :
  feed w t = Responds 200 root ->
  parse_entries (findall (atom_ns, u "entry") root) = Raise e ->
  parse_xml_and_process w fuel t =
  (Some (Raise e),
   [Call GetFeed;
    Out (TotalEntries (length (findall (atom_ns, u "entry") root)))],
   S t).
Proof.
  intros Hfeed Hparse. unfold parse_xml_and_process.
  rewrite bind_run, http_run, Hfeed. cbn. rewrite !bind_run. cbn.
  rewrite Hparse. reflexivity.
Qed.

(** An entry that does not parse raises [AttributeError], whichever of its
    elements is at fault. *)
Lemma parse_entry_error (entry : element) (e : exn) :
  parse_entry entry = Raise e -> e = AttributeError.
Proof.
  unfold parse_entry.
  destruct (text_strip (find (atom_ns, u "title") entry)) as [title|e1] eqn:Htitle;
    [|intros [= <-]; by apply text_strip_error in Htitle].
  cbn [mbind res_bind].
  destruct (find (f_ns, u "leverandor_tekst") entry) as [provider|].
  - destruct (text_strip (Some provider)) as [orgnr|e2] eqn:Hprov;
      [|intros [= <-]; by apply text_strip_error in Hprov].
    cbn [mbind res_bind].
    destruct (extract_id entry) as [id|e3] eqn:Hid; [done|].
    intros [= <-]. by apply extract_id_error in Hid.
  - cbn [mbind res_bind].
    destruct (extract_id entry) as [id|e3] eqn:Hid; [done|].
    intros [= <-]. by apply extract_id_error in Hid.
Qed.

Lemma parse_entries_error (entries : list element) (e : exn) :
  parse_entries entries = Raise e -> e = AttributeError.
Proof.
  induction entries as [|x entries IH]; [done|]. cbn [parse_entries].
  destruct (parse_entry x) as [y|e1] eqn:Hx;
    [|intros [= <-]; by apply parse_entry_error in Hx].
  cbn [mbind res_bind].
  destruct (parse_entries entries) as [ys|e2]; [done|].
  intros [= <-]. by apply IH.
Qed.

End FeedFacts.

(** C6, as the code has it.  The provider reference falls back to the empty
    string when its element is absent.  The title has no such fallback: an
    entry without a title element raises, like one whose identifier cannot be
    extracted; and a feed that holds an entry of either kind ends the run
    with [AttributeError] right after the feed is read, before any entry is
    reconciled. *)
Theorem feed_entry_parsing `{U : Unicode} :
  (forall (entry : element) (title numerical_id : str),
     text_strip (find (atom_ns, u "title") entry) = Ok title ->
     find (f_ns, u "leverandor_tekst") entry = None ->
     extract_id entry = Ok numerical_id ->
     parse_entry entry =
     Ok {| title := title; orgnr := []; xml_data := fields_of entry;
           numerical_id := numerical_id |}) /\
  (forall entry : element,
     find (atom_ns, u "title") entry = None ->
     parse_entry entry = Raise AttributeError) /\
  (forall (w : world) (fuel t : nat) (root entry : element),
     feed w t = Responds 200 root ->
     entry ∈ findall (atom_ns, u "entry") root ->
     find (atom_ns, u "title") entry = None \/
       (exists e, extract_id entry = Raise e) ->
     parse_xml_and_process w fuel t =
     (Some (Raise AttributeError),
      [Call GetFeed;
       Out (TotalEntries (length (findall (atom_ns, u "entry") root)))],
      S t)).
Proof.
  split; [apply parse_entry_no_provider|].
  split; [apply parse_entry_no_title|].
  intros w fuel t root entry Hfeed Hin Hmissing.
  assert (exists e1, parse_entry entry = Raise e1) as [e1 He1].
  { destruct Hmissing as [Htitle|[e Hid]].
    - exists AttributeError. by apply parse_entry_no_title.
    - by apply (parse_entry_no_id entry e). }
  destruct (parse_entries_raise _ _ _ Hin He1) as [e' He'].
  pose proof (parse_entries_error _ _ He') as ->.
  by apply parse_failure_is_fatal.
Qed.

(** The claim as it stands fails for the title: an entry that has an id and
    a provider but no title element raises instead of getting an empty title. *)
Lemma parse_entry_without_title_raises :
  parse_entry entry_without_title = Raise AttributeError.
Proof. vm_compute. reflexivity. Qed.

(** What the theorem says of the sample entries, of [untitled_feed_world]
    and of [broken_feed_world]. *)
Lemma feed_entry_parsing_witness :
  parse_entry entry_without_provider =
    Ok {| title := u "Gullkort"; orgnr := [];
          xml_data := fields_of entry_without_provider;
          numerical_id := u "101" |} /\
  parse_entry entry_without_title = Raise AttributeError /\
  parse_xml_and_process untitled_feed_world 5 0%nat =
    (Some (Raise AttributeError),
     [Call GetFeed; Out (TotalEntries 2)], 1%nat) /\
  parse_xml_and_process broken_feed_world 5 0%nat =
    (Some (Raise AttributeError),
     [Call GetFeed; Out (TotalEntries 2)], 1%nat).
Proof.
  split; [|split; [|split]].
  - apply (proj1 feed_entry_parsing entry_without_provider (u "Gullkort") (u "101"));
      vm_compute; reflexivity.
  - apply (proj1 (proj2 feed_entry_parsing) entry_without_title).
    vm_compute; reflexivity.
  - apply (proj2 (proj2 feed_entry_parsing) untitled_feed_world 5%nat 0%nat
             (Element (atom_ns, u "feed") None [entry_complete; entry_without_title])
             entry_without_title).
    + reflexivity.
    + vm_compute. apply elem_of_cons. right. apply elem_of_cons. by left.
    + left. vm_compute; reflexivity.
  - apply (proj2 (proj2 feed_entry_parsing) broken_feed_world 5%nat 0%nat
             (Element (atom_ns, u "feed") None [entry_complete; entry_without_id])
             entry_without_id).
    + reflexivity.
    + vm_compute. apply elem_of_cons. right. apply elem_of_cons. by left.
    + right. exists AttributeError. vm_compute; reflexivity.
Defined.

(** ** Reconciler *)

Section ReconcilerFacts.
Context `{U : Unicode} (w : world).

#[local] Arguments dict_update : simpl never.
#[local] Arguments check_andre_fordeler : simpl never.

Lemma spec_print (P : event -> Prop) (l : line) :
  P (Out l) -> spec P (fun _ => True) (print l).
Proof. intros Hl. by apply spec_emit. Qed.

Lemma spec_then {A B} (P : event -> Prop) (Q : B -> Prop) (m : M A) (k : M B) :
  spec P (fun _ => True) m -> spec P Q k -> spec P Q (m ≫= fun _ => k).
Proof. intros Hm Hk. eapply spec_bind; [exact Hm|]. by intros _ _. Qed.

Lemma spec_scan_banks (orgnr : str) (offsets : list nat) :
  spec preparing (fun _ => True) (scan_banks w orgnr offsets).
Proof.
  induction offsets as [|offset rest IH]; cbn [scan_banks].
  - apply spec_then; [by apply spec_print|by apply spec_ret].
  - apply (spec_bind _ (fun _ => True)); [by apply spec_http|].
    intros [status_code items] _.
    destruct (status_code =? 200).
    + destruct (find_bank orgnr items); [|done].
      apply spec_then; [by apply spec_print|by apply spec_ret].
    + apply spec_then; [by apply spec_print|done].
Qed.

Lemma total_scan_banks (orgnr : str) (offsets : list nat) :
  total (scan_banks w orgnr offsets).
Proof.
  induction offsets as [|offset rest IH]; cbn [scan_banks].
  - apply total_bind; [apply total_emit|]. intros _. apply total_ret.
  - apply total_bind; [apply total_http|].
    intros [status_code items].
    destruct (status_code =? 200).
    + destruct (find_bank orgnr items); [|done].
      apply total_bind; [apply total_emit|]. intros _. apply total_ret.
    + apply total_bind; [apply total_emit|]. by intros _.
Qed.

(** [build_payload], step by step. *)
Lemma build_payload_run (e : xml_entry) (t : nat) :
  build_payload w e t =
  match norwegian_date (yesterday w t) with
  | Raise exc => (Some (Raise exc), [], t)
  | Ok sist_oppdatert =>
      match map_fields (xml_data e) field_mapping
              (<[u "sist-oppdatert" := VStr sist_oppdatert]>
                 (<[u "leverandor-tekst" := VStr (orgnr e)]>
                    (<[u "name" := VStr (title e)]> ∅))) with
      | Raise exc => (Some (Raise exc), [], t)
      | Ok mapped =>
          let logged :=
            match calculate_apr_try (xml_data e) with
            | Ok _ => []
            | Raise exc => [Out (AprError exc)]
            end in
          let '(r, evs, t') := get_bank_id w (orgnr e) t in
          (match r with
           | Some (Ok bank_id) =>
               Some (Ok {| isArchived := false; isDraft := false;
                           fieldData :=
                             add_bank bank_id
                               (add_apr (apr_of (xml_data e))
                                  (dict_update
                                     (check_andre_fordeler
                                        (Some (default []
                                           (xml_data e !! u "kredittkort_andre_fordeler_beskrivelse"))))
                                     mapped)) |})
           | Some (Raise exc) => Some (Raise exc)
           | None => None
           end, logged ++ evs, t')
      end
  end.
Proof.
  unfold build_payload. rewrite bind_run. unfold get_norwegian_date, lift.
  destruct (norwegian_date (yesterday w t)) as [sist_oppdatert|exc]; [|done].
  rewrite bind_run.
  destruct (map_fields _ _ _) as [mapped|exc]; [|done].
  rewrite bind_run. unfold calculate_apr, apr_of.
  destruct (calculate_apr_try (xml_data e)) as [result|exc].
  - unfold mret at 1, M_ret at 1. cbv beta iota zeta. rewrite bind_run.
    destruct (get_bank_id w (orgnr e) t) as [[[[bank_id|exc]|] evs] t'];
      unfold mret, M_ret; cbn [app]; by rewrite ?app_nil_r.
  - rewrite bind_run. unfold print, emit, mret at 1, M_ret at 1.
    cbv beta iota zeta. rewrite bind_run.
    destruct (get_bank_id w (orgnr e) t) as [[[[bank_id|exc']|] evs] t'];
      unfold mret, M_ret; cbn [app]; by rewrite ?app_nil_r.
Qed.

Lemma build_payload_events (e : xml_entry) (t : nat) :
  Forall preparing (events (build_payload w e t)).
Proof.
  rewrite build_payload_run.
  destruct (norwegian_date _); [|constructor].
  destruct (map_fields _ _ _); [|constructor].
  pose proof (spec_scan_banks (orgnr e) (range 0 400 100) t) as [Hevs _].
  fold (get_bank_id w (orgnr e)) in Hevs. unfold events in *.
  destruct (get_bank_id w (orgnr e) t) as [[r evs] t']. cbn [fst snd] in *.
  apply Forall_app. split; [|done].
  destruct (calculate_apr_try _); by repeat constructor.
Qed.

Lemma build_payload_total (e : xml_entry) : total (build_payload w e).
Proof.
  intros t. rewrite build_payload_run.
  destruct (norwegian_date _); [|done].
  destruct (map_fields _ _ _); [|done].
  pose proof (total_scan_banks (orgnr e) (range 0 400 100) t) as Htotal.
  fold (get_bank_id w (orgnr e)) in Htotal. unfold result in *.
  by destruct (get_bank_id w (orgnr e) t) as [[[[bank_id|exc]|] evs] t'].
Qed.

(** *** The keys of a payload *)

Lemma keys_within_insert (allowed : list str) (d : gmap str pyval)
    (k : str) (v : pyval) :
  k ∈ allowed -> keys_within allowed d -> keys_within allowed (<[k:=v]> d).
Proof.
  intros Hk Hd k' Hsome.
  destruct (decide (k = k')) as [<-|Hne]; [done|].
  rewrite lookup_insert_ne in Hsome by done. by apply Hd.
Qed.

Lemma keys_within_empty (allowed : list str) : keys_within allowed ∅.
Proof. intros k [v Hv]. by rewrite lookup_empty in Hv. Qed.

Lemma map_field_keys (allowed : list str) (xml_data : gmap str str)
    (fields fields' : gmap str pyval) (kv : str * str) :
  snd kv ∈ allowed -> keys_within allowed fields ->
  map_field xml_data fields kv = Ok fields' -> keys_within allowed fields'.
Proof.
  destruct kv as [xml_field webflow_field]. cbn [snd].
  intros Hk Hd. unfold map_field.
  destruct (xml_data !! xml_field) as [value|]; [|by intros [= <-]].
  repeat case_bool_decide.
  - intros [= <-]. by apply keys_within_insert.
  - destruct (format_norwegian_number value) as [formatted|exc];
      [|discriminate].
    intros [= <-]. by apply keys_within_insert.
  - intros [= <-]. by apply keys_within_insert.
Qed.

Lemma map_fields_keys (allowed : list str) (xml_data : gmap str str)
    (mapping : list (str * str)) :
  (forall kv, kv ∈ mapping -> snd kv ∈ allowed) ->
  forall fields fields' : gmap str pyval,
  keys_within allowed fields ->
  map_fields xml_data mapping fields = Ok fields' ->
  keys_within allowed fields'.
Proof.
  induction mapping as [|kv rest IH]; intros Hall fields fields' Hd.
  - by intros [= <-].
  - cbn [map_fields].
    destruct (map_field xml_data fields kv) as [fields1|exc] eqn:Hstep;
      [|discriminate].
    apply IH.
    + intros kv' Hin. apply Hall. by apply elem_of_cons; right.
    + eapply map_field_keys; [|exact Hd|exact Hstep].
      apply Hall. by apply elem_of_cons; left.
Qed.

Lemma dict_update_keys (allowed : list str) (other : list (str * bool)) :
  (forall kv, kv ∈ other -> fst kv ∈ allowed) ->
  forall d : gmap str pyval,
  keys_within allowed d -> keys_within allowed (dict_update other d).
Proof.
  unfold dict_update.
  induction other as [|kv rest IH]; intros Hall d Hd; [done|].
  cbn [foldl]. apply IH.
  - intros kv' Hin. apply Hall. by apply elem_of_cons; right.
  - apply keys_within_insert; [|done]. apply Hall. by apply elem_of_cons; left.
Qed.

Lemma check_andre_fordeler_keys (text : option str) :
  List.map fst (check_andre_fordeler text) = flag_names.
Proof. reflexivity. Qed.

Lemma in_whitelist {A} `{EqDecision A} (k : A) (allowed : list A) :
  bool_decide (k ∈ allowed) = true -> k ∈ allowed.
Proof. apply bool_decide_eq_true_1. Qed.

Lemma not_in_whitelist (k : str) (allowed : list str) :
  bool_decide (k ∈ allowed) = false -> k ∉ allowed.
Proof. apply bool_decide_eq_false_1. Qed.

Lemma distinct_names (a b : str) : bool_decide (a = b) = false -> a <> b.
Proof. apply bool_decide_eq_false_1. Qed.

Lemma mapped_in_whitelist (kv : str * str) :
  kv ∈ field_mapping -> snd kv ∈ update_whitelist.
Proof.
  intros Hin. unfold update_whitelist.
  apply elem_of_app. right. apply elem_of_app. left.
  apply list_elem_of_In, in_map. by apply list_elem_of_In.
Qed.

Lemma flag_in_whitelist (text : option str) (kv : str * bool) :
  kv ∈ check_andre_fordeler text -> fst kv ∈ update_whitelist.
Proof.
  intros Hin. unfold update_whitelist.
  apply elem_of_app. right. apply elem_of_app. right. apply elem_of_app. left.
  rewrite <- (check_andre_fordeler_keys text).
  apply list_elem_of_In, in_map. by apply list_elem_of_In.
Qed.

Lemma add_apr_keys (result : option apr) (d : gmap str pyval) :
  keys_within update_whitelist d -> keys_within update_whitelist (add_apr result d).
Proof.
  intros Hd. destruct result as [a|]; [|done]. cbn [add_apr].
  apply keys_within_insert; [by apply in_whitelist; vm_compute|].
  apply keys_within_insert; [by apply in_whitelist; vm_compute|done].
Qed.

Lemma add_bank_keys (bank_id : option str) (d : gmap str pyval) :
  keys_within update_whitelist d -> keys_within update_whitelist (add_bank bank_id d).
Proof.
  intros Hd. destruct bank_id as [[|c id]|]; [done| |done]. cbn [add_bank].
  apply keys_within_insert; [by apply in_whitelist; vm_compute|done].
Qed.

(** A payload [build_payload] returns is published and holds whitelisted
    fields only. *)
Lemma build_payload_published (e : xml_entry) (t t1 : nat) (json : payload)
    (evs : list event) :
  build_payload w e t = (Some (Ok json), evs, t1) ->
  published update_whitelist json.
Proof.
  rewrite build_payload_run.
  destruct (norwegian_date _) as [sist_oppdatert|]; [|discriminate].
  destruct (map_fields _ _ _) as [mapped|] eqn:Hmapped; [|discriminate].
  destruct (get_bank_id w (orgnr e) t) as [[[[bank_id|exc]|] evs'] t'];
    [|discriminate..].
  intros Hrun. injection Hrun as <- _ _.
  split; [done|]. split; [done|]. cbn [fieldData].
  apply add_bank_keys, add_apr_keys.
  apply dict_update_keys; [apply flag_in_whitelist|].
  eapply map_fields_keys; [apply mapped_in_whitelist| |exact Hmapped].
  repeat (apply keys_within_insert; [by apply in_whitelist; vm_compute|]).
  apply keys_within_empty.
Qed.

Lemma published_no_slug (json : payload) :
  published update_whitelist json -> fieldData json !! u "slug" = None.
Proof.
  intros (_ & _ & Hkeys).
  destruct (fieldData json !! u "slug") as [v|] eqn:Hslug; [|done].
  assert (Hin : u "slug" ∈ update_whitelist) by (apply Hkeys; eauto).
  exfalso. revert Hin. apply not_in_whitelist. vm_compute. reflexivity.
Qed.

Lemma with_slug_published (numerical_id : str) (json : payload) :
  published update_whitelist json ->
  published create_whitelist (with_slug numerical_id json).
Proof.
  intros (Harchived & Hdraft & Hkeys).
  split; [done|]. split; [done|].
  cbn [with_slug fieldData]. apply keys_within_insert.
  - apply elem_of_cons. by left.
  - intros k Hk. apply elem_of_cons. right. by apply Hkeys.
Qed.

(** *** One entry *)

(** [dispatch], case by case. *)
Lemma dispatch_run (webflow_items : index) (numerical_id : str)
    (update_payload : payload) (successful_updates new_items_created t : nat) :
  dispatch w webflow_items numerical_id update_payload
           successful_updates new_items_created t =
  match webflow_items !! VStr numerical_id with
  | Some webflow_item =>
      match patch_live w t (item_id webflow_item) update_payload with
      | Responds status_code _ =>
          (Some (Ok (if status_code =? 200
                     then (S successful_updates, new_items_created)
                     else (successful_updates, new_items_created))),
           [Call (PatchLive (item_id webflow_item) update_payload);
            Out (ItemStatus numerical_id status_code)],
           S t)
      | Fails exc =>
          (Some (Raise exc),
           [Call (PatchLive (item_id webflow_item) update_payload)], S t)
      end
  | None =>
      match post_live w t (with_slug numerical_id update_payload) with
      | Responds status_code text =>
          (Some (Ok (if status_code =? 200
                     then (successful_updates, S new_items_created)
                     else (successful_updates, new_items_created))),
           Call (PostLive (with_slug numerical_id update_payload))
             :: Out (NewItemStatus numerical_id status_code)
             :: (if status_code =? 200 then []
                 else [Out (CreateFailed numerical_id text)]),
           S t)
      | Fails exc =>
          (Some (Raise exc),
           [Call (PostLive (with_slug numerical_id update_payload))], S t)
      end
  end.
Proof.
  unfold dispatch.
  destruct (webflow_items !! VStr numerical_id) as [webflow_item|].
  - rewrite bind_run, http_run.
    destruct (patch_live w t (item_id webflow_item) update_payload)
      as [exc|status_code []]; [done|].
    cbv beta iota zeta. rewrite bind_run. unfold print, emit.
    cbv beta iota zeta. by destruct (status_code =? 200).
  - rewrite bind_run, http_run.
    destruct (post_live w t (with_slug numerical_id update_payload))
      as [exc|status_code text]; [done|].
    cbv beta iota zeta. rewrite bind_run. unfold print, emit.
    cbv beta iota zeta. destruct (status_code =? 200); [done|].
    by rewrite bind_run.
Qed.

(** [process_entry] in terms of the [try] body: a result goes through, an
    exception becomes the line naming the entry and leaves the counters as
    they were; the delay follows in both cases. *)
Lemma process_entry_run (webflow_items : index) (e : xml_entry)
    (successful_updates new_items_created t : nat) :
  process_entry w webflow_items e successful_updates new_items_created t =
  match entry_try w webflow_items e successful_updates new_items_created t with
  | (Some (Ok counters), evs, t') => (Some (Ok counters), evs ++ [Sleep 1], t')
  | (Some (Raise exc), evs, t') =>
      (Some (Ok (successful_updates, new_items_created)),
       evs ++ [Out (EntryError (numerical_id e) exc); Sleep 1], t')
  | (None, evs, t') => (None, evs, t')
  end.
Proof.
  unfold process_entry. rewrite bind_run. unfold try_except.
  destruct (entry_try w webflow_items e successful_updates new_items_created t)
    as [[[[counters|exc]|] evs] t']; [| |done].
  - unfold sleep. rewrite emit_then. by unfold mret, M_ret.
  - unfold print, sleep. rewrite emit_then. unfold mret at 1, M_ret at 1.
    cbv beta iota zeta. rewrite emit_then. unfold mret, M_ret.
    by rewrite <- app_assoc.
Qed.

Lemma entry_try_run (webflow_items : index) (e : xml_entry)
    (successful_updates new_items_created t : nat) :
  entry_try w webflow_items e successful_updates new_items_created t =
  match build_payload w e t with
  | (Some (Ok update_payload), evs, t1) =>
      let '(r, evs', t2) :=
        dispatch w webflow_items (numerical_id e) update_payload
                 successful_updates new_items_created t1 in
      (r, evs ++ evs', t2)
  | (Some (Raise exc), evs, t1) => (Some (Raise exc), evs, t1)
  | (None, evs, t1) => (None, evs, t1)
  end.
Proof. unfold entry_try. by rewrite bind_run. Qed.

End ReconcilerFacts.

Section DispatchFacts.
Context `{U : Unicode} (w : world).

Lemma preparing_no_outcome (evs : list event) :
  Forall preparing evs -> omap outcome_of evs = [].
Proof.
  induction 1 as [|ev evs Hev _ IH]; [done|].
  cbn [omap list_omap]. rewrite IH.
  by destruct ev as [[]|[]|].
Qed.

Lemma preparing_write_ok (ev : event) : preparing ev -> write_ok ev.
Proof. by destruct ev as [[]|[]|]. Qed.

(** One round of the loop always returns, and leaves exactly one closing
    line, which names the entry. *)
Lemma process_entry_outcome (webflow_items : index) (e : xml_entry)
    (successful_updates new_items_created t : nat) :
  exists counters evs t',
    process_entry w webflow_items e successful_updates new_items_created t =
      (Some (Ok counters), evs, t') /\
    omap outcome_of evs = [numerical_id e].
Proof.
  rewrite process_entry_run, entry_try_run.
  pose proof (build_payload_events w e t) as Hevs.
  pose proof (build_payload_total w e t) as Htotal.
  unfold events, result in *.
  destruct (build_payload w e t) as [[[[json|exc]|] evs] t1];
    cbn [fst snd] in *; [| |done].
  - rewrite dispatch_run.
    destruct (webflow_items !! VStr (numerical_id e)) as [webflow_item|].
    + destruct (patch_live w t1 (item_id webflow_item) json)
        as [exc|status_code []];
        eexists _, _, _; (split; [reflexivity|]);
        rewrite !omap_app, (preparing_no_outcome _ Hevs); reflexivity.
    + destruct (post_live w t1 (with_slug (numerical_id e) json))
        as [exc|status_code text];
        eexists _, _, _; (split; [reflexivity|]);
        rewrite !omap_app, (preparing_no_outcome _ Hevs);
        [reflexivity|by destruct (status_code =? 200)].
  - eexists _, _, _. split; [reflexivity|].
    by rewrite omap_app, (preparing_no_outcome _ Hevs).
Qed.

Lemma reconcile_outcomes (webflow_items : index) (xml_entries : list xml_entry) :
  forall successful_updates new_items_created t : nat,
  exists counters evs t',
    reconcile w webflow_items xml_entries successful_updates new_items_created t =
      (Some (Ok counters), evs, t') /\
    omap outcome_of evs = List.map numerical_id xml_entries.
Proof.
  induction xml_entries as [|e rest IH]; intros successful_updates new_items_created t.
  - by eexists _, _, _.
  - cbn [reconcile]. rewrite bind_run.
    destruct (process_entry_outcome webflow_items e successful_updates
                new_items_created t) as ([su nc] & evs1 & t1 & -> & Hevs1).
    destruct (IH su nc t1) as (counters & evs2 & t2 & -> & Hevs2).
    eexists _, _, _. split; [reflexivity|].
    by rewrite omap_app, Hevs1, Hevs2.
Qed.

Lemma check_webflow_existence_run (fuel : nat) (xml_entries : list xml_entry)
    (total_entries t t0 : nat) (webflow_items : index) (evs0 : list event) :
  fetch_all_webflow_items w fuel t = (Some (Ok webflow_items), evs0, t0) ->
  exists counters evs t',
    reconcile w webflow_items xml_entries 0 0 t0 = (Some (Ok counters), evs, t') /\
    check_webflow_existence w fuel xml_entries total_entries t =
    (Some (Ok tt),
     evs0 ++ evs ++ [Out (Summary (fst counters) total_entries);
                     Out (Created (snd counters))],
     t').
Proof.
  intros Hfetch.
  destruct (reconcile_outcomes webflow_items xml_entries 0 0 t0)
    as (counters & evs & t' & Hloop & _).
  exists counters, evs, t'. split; [done|].
  unfold check_webflow_existence. rewrite bind_run, Hfetch.
  rewrite bind_run, Hloop. unfold summary, print.
  rewrite emit_then. by unfold emit.
Qed.

(** The loop over a list of entries in three parts: the entries before an
    entry, the entry, and the entries after it. *)
Lemma reconcile_chain (webflow_items : index) (before after : list xml_entry)
    (e : xml_entry) :
  forall (su0 nc0 t0 su nc t1 su' nc' t2 t3 : nat) (counters : nat * nat)
         (evs1 evs2 evs3 : list event),
  reconcile w webflow_items before su0 nc0 t0 = (Some (Ok (su, nc)), evs1, t1) ->
  process_entry w webflow_items e su nc t1 = (Some (Ok (su', nc')), evs2, t2) ->
  reconcile w webflow_items after su' nc' t2 = (Some (Ok counters), evs3, t3) ->
  reconcile w webflow_items (before ++ e :: after) su0 nc0 t0 =
  (Some (Ok counters), evs1 ++ evs2 ++ evs3, t3).
Proof.
  induction before as [|x before IH];
    intros su0 nc0 t0 su nc t1 su' nc' t2 t3 counters evs1 evs2 evs3
           Hbefore Hentry Hafter.
  - injection Hbefore as <- <- <- <-. cbn [app reconcile].
    by rewrite bind_run, Hentry, Hafter.
  - cbn [app reconcile] in *. rewrite bind_run in *.
    destruct (process_entry_outcome webflow_items x su0 nc0 t0)
      as ([sux ncx] & evsx & tx & Hx & _).
    rewrite Hx in *.
    destruct (reconcile w webflow_items before sux ncx tx)
      as [[r evs1'] t1'] eqn:Hrest.
    injection Hbefore as -> <- ->.
    rewrite (IH _ _ _ _ _ _ _ _ _ _ _ _ _ _ Hrest Hentry Hafter).
    by rewrite <- app_assoc.
Qed.

End DispatchFacts.

(** C1: in a run of the reconciler, every entry of the feed, wherever it
    stands in the list, is looked up by its identifier in the directory index
    that was fetched before the loop, once its payload is built.  If an item
    is found, a PATCH to that item's live endpoint carries the payload as
    built, and a 200 answer adds one to the update counter; if none is found,
    a POST carries the payload with [slug] set to the identifier, and a 200
    answer adds one to the create counter.  The call and its closing line are
    part of what the run leaves, between the rounds of the entries before and
    of the entries after, and the counters go on to the summary.  The payload
    as built, which is what an update sends, has no [slug] field. *)
Theorem dispatch_by_directory `{U : Unicode} (w : world) (fuel : nat)
    (before after : list xml_entry) (e : xml_entry)
    (total_entries t t0 t1 t2 : nat) (webflow_items : index)
    (evs0 evs1 evs : list event) (successful_updates new_items_created : nat)
    (update_payload : payload) :
  fetch_all_webflow_items w fuel t = (Some (Ok webflow_items), evs0, t0) ->
  reconcile w webflow_items before 0 0 t0 =
    (Some (Ok (successful_updates, new_items_created)), evs1, t1) ->
  build_payload w e t1 = (Some (Ok update_payload), evs, t2) ->
  fieldData update_payload !! u "slug" = None /\
  fieldData (with_slug (numerical_id e) update_payload) =
    <[u "slug" := VStr (numerical_id e)]> (fieldData update_payload) /\
  exists (written : list event) (counters' counters : nat * nat)
         (rest : list event) (t' : nat),
    (written, counters') =
      match webflow_items !! VStr (numerical_id e) with
      | Some webflow_item =>
          match patch_live w t2 (item_id webflow_item) update_payload with
          | Responds status_code _ =>
              ([Call (PatchLive (item_id webflow_item) update_payload);
                Out (ItemStatus (numerical_id e) status_code)],
               if status_code =? 200
               then (S successful_updates, new_items_created)
               else (successful_updates, new_items_created))
          | Fails exc =>
              ([Call (PatchLive (item_id webflow_item) update_payload);
                Out (EntryError (numerical_id e) exc)],
               (successful_updates, new_items_created))
          end
      | None =>
          match post_live w t2 (with_slug (numerical_id e) update_payload) with
          | Responds status_code text =>
              (Call (PostLive (with_slug (numerical_id e) update_payload))
                 :: Out (NewItemStatus (numerical_id e) status_code)
                 :: (if status_code =? 200 then []
                     else [Out (CreateFailed (numerical_id e) text)]),
               if status_code =? 200
               then (successful_updates, S new_items_created)
               else (successful_updates, new_items_created))
          | Fails exc =>
              ([Call (PostLive (with_slug (numerical_id e) update_payload));
                Out (EntryError (numerical_id e) exc)],
               (successful_updates, new_items_created))
          end
      end /\
    reconcile w webflow_items after (fst counters') (snd counters') (S t2) =
      (Some (Ok counters), rest, t') /\
    check_webflow_existence w fuel (before ++ e :: after) total_entries t =
      (Some (Ok tt),
       evs0 ++ evs1 ++ (evs ++ written ++ [Sleep 1]) ++ rest
         ++ [Out (Summary (fst counters) total_entries);
             Out (Created (snd counters))],
       t').
Proof.
  intros Hfetch Hbefore Hbuild.
  split; [eapply published_no_slug, build_payload_published, Hbuild|].
  split; [reflexivity|].
  assert (Hentry : exists written counters',
            (written, counters') =
              match webflow_items !! VStr (numerical_id e) with
              | Some webflow_item =>
                  match patch_live w t2 (item_id webflow_item) update_payload with
                  | Responds status_code _ =>
                      ([Call (PatchLive (item_id webflow_item) update_payload);
                        Out (ItemStatus (numerical_id e) status_code)],
                       if status_code =? 200
                       then (S successful_updates, new_items_created)
                       else (successful_updates, new_items_created))
                  | Fails exc =>
                      ([Call (PatchLive (item_id webflow_item) update_payload);
                        Out (EntryError (numerical_id e) exc)],
                       (successful_updates, new_items_created))
                  end
              | None =>
                  match post_live w t2 (with_slug (numerical_id e) update_payload) with
                  | Responds status_code text =>
                      (Call (PostLive (with_slug (numerical_id e) update_payload))
                         :: Out (NewItemStatus (numerical_id e) status_code)
                         :: (if status_code =? 200 then []
                             else [Out (CreateFailed (numerical_id e) text)]),
                       if status_code =? 200
                       then (successful_updates, S new_items_created)
                       else (successful_updates, new_items_created))
                  | Fails exc =>
                      ([Call (PostLive (with_slug (numerical_id e) update_payload));
                        Out (EntryError (numerical_id e) exc)],
                       (successful_updates, new_items_created))
                  end
              end /\
            process_entry w webflow_items e successful_updates
                          new_items_created t1 =
            (Some (Ok counters'), evs ++ written ++ [Sleep 1], S t2)).
  { rewrite process_entry_run, entry_try_run, Hbuild, dispatch_run.
    destruct (webflow_items !! VStr (numerical_id e)) as [webflow_item|].
    - destruct (patch_live w t2 (item_id webflow_item) update_payload)
        as [exc|status_code []]; eexists _, _; (split; [reflexivity|]);
        by rewrite <- !app_assoc.
    - destruct (post_live w t2 (with_slug (numerical_id e) update_payload))
        as [exc|status_code text]; eexists _, _; (split; [reflexivity|]);
        by rewrite <- !app_assoc. }
  destruct Hentry as (written & [su' nc'] & Hwritten & Hentry).
  destruct (reconcile_outcomes w webflow_items after su' nc' (S t2))
    as (counters & rest & t' & Hafter & _).
  exists written, (su', nc'), counters, rest, t'.
  split; [exact Hwritten|]. split; [exact Hafter|].
  unfold check_webflow_existence. rewrite bind_run, Hfetch, bind_run.
  rewrite (reconcile_chain w webflow_items before after e
             _ _ _ _ _ _ _ _ _ _ _ _ _ _ Hbefore Hentry Hafter).
  unfold summary, print. rewrite emit_then. unfold emit.
  by rewrite <- !app_assoc.
Qed.

(** C2: an exception of the [try] body of an entry (building the fields,
    resolving the bank, the write call) becomes a line naming the entry, and
    the loop goes on: whatever the world answers, the loop returns and has
    left exactly one closing line per entry, in feed order; and when the
    directory was fetched, the function returns after printing the two
    summary lines with the final counters. *)
Theorem entries_are_isolated `{U : Unicode} (w : world) :
  (forall (webflow_items : index) (e : xml_entry)
          (successful_updates new_items_created t : nat),
     process_entry w webflow_items e successful_updates new_items_created t =
     match entry_try w webflow_items e successful_updates new_items_created t with
     | (Some (Ok counters), evs, t') => (Some (Ok counters), evs ++ [Sleep 1], t')
     | (Some (Raise exc), evs, t') =>
         (Some (Ok (successful_updates, new_items_created)),
          evs ++ [Out (EntryError (numerical_id e) exc); Sleep 1], t')
     | (None, evs, t') => (None, evs, t')
     end) /\
  (forall (webflow_items : index) (xml_entries : list xml_entry)
          (successful_updates new_items_created t : nat),
     exists counters evs t',
       reconcile w webflow_items xml_entries successful_updates
                 new_items_created t = (Some (Ok counters), evs, t') /\
       omap outcome_of evs = List.map numerical_id xml_entries) /\
  (forall (fuel : nat) (xml_entries : list xml_entry) (total_entries t t0 : nat)
          (webflow_items : index) (evs0 : list event),
     fetch_all_webflow_items w fuel t = (Some (Ok webflow_items), evs0, t0) ->
     exists counters evs t',
       reconcile w webflow_items xml_entries 0 0 t0 =
         (Some (Ok counters), evs, t') /\
       check_webflow_existence w fuel xml_entries total_entries t =
       (Some (Ok tt),
        evs0 ++ evs ++ [Out (Summary (fst counters) total_entries);
                        Out (Created (snd counters))],
        t')).
Proof.
  split; [apply process_entry_run|].
  split; [apply reconcile_outcomes|].
  apply check_webflow_existence_run.
Qed.

(** What the theorem says of a run over two entries in [two_page_world],
    whose directory knows [sample_entry]: the first entry raises while its
    credit limit is formatted, the second is updated. *)
Lemma dispatch_by_directory_witness :
  exists (update_payload : payload) (evs0 evs1 evs : list event) (t' : nat),
    fetch_all_webflow_items two_page_world 2 0%nat =
      (Some (Ok (foldl index_page ∅ [repeat sample_offer 100; [sample_offer]])),
       evs0, 2%nat) /\
    fieldData update_payload !! u "slug" = None /\
    check_webflow_existence two_page_world 2
      [entry_with_infinite_limit; sample_entry] 2 0%nat =
    (Some (Ok tt),
     evs0 ++ evs1
       ++ (evs ++ [Call (PatchLive (u "i1") update_payload);
                   Out (ItemStatus (u "101") 200)] ++ [Sleep 1])
       ++ [] ++ [Out (Summary 1 2); Out (Created 0)],
     t').
Proof.
  assert (exists evs0,
            fetch_all_webflow_items two_page_world 2 0%nat =
              (Some (Ok (foldl index_page ∅
                           [repeat sample_offer 100; [sample_offer]])),
               evs0, 2%nat)) as (evs0 & Hfetch).
  { eexists. vm_compute. reflexivity. }
  assert (exists evs1 t1,
            reconcile two_page_world
              (foldl index_page ∅ [repeat sample_offer 100; [sample_offer]])
              [entry_with_infinite_limit] 0 0 2%nat =
              (Some (Ok (0%nat, 0%nat)), evs1, t1)) as (evs1 & t1 & Hbefore).
  { eexists _, _. vm_compute. reflexivity. }
  assert (exists json evs t2,
            build_payload two_page_world sample_entry t1 =
              (Some (Ok json), evs, t2)) as (json & evs & t2 & Hbuild).
  { vm_compute in Hbefore. injection Hbefore as <- <-.
    eexists _, _, _. vm_compute. reflexivity. }
  pose proof (dispatch_by_directory two_page_world 2%nat
                [entry_with_infinite_limit] [] sample_entry 2%nat 0%nat 2%nat
                t1 t2 _ evs0 evs1 evs 0%nat 0%nat json Hfetch Hbefore Hbuild)
    as (Hslug & _ & written & counters' & counters & rest & t' & Hwritten
        & Hafter & Hrun).
  assert (foldl index_page ∅ [repeat sample_offer 100; [sample_offer]]
            !! VStr (numerical_id sample_entry) = Some sample_offer) as Hfound
    by (vm_compute; reflexivity).
  rewrite Hfound in Hwritten.
  change (patch_live two_page_world t2 (item_id sample_offer) json)
    with (Responds 200 tt) in Hwritten.
  injection Hwritten as -> ->.
  cbn in Hafter. injection Hafter as <- <- <-.
  exists json, evs0, evs1, evs, (S t2).
  split; [exact Hfetch|]. split; [exact Hslug|]. exact Hrun.
Defined.

(** What the theorem says of a run over two entries in [quiet_world]: the
    first raises while its credit limit is formatted, the second is created. *)
Lemma entries_are_isolated_witness :
  exists evs t',
    check_webflow_existence quiet_world 1
      [entry_with_infinite_limit; sample_entry] 2 0%nat =
    (Some (Ok tt), evs ++ [Out (Summary 0 2); Out (Created 1)], t') /\
    omap outcome_of evs = [u "102"; u "101"] /\
    Out (EntryError (u "102") OverflowError) ∈ evs.
Proof.
  destruct (proj2 (proj2 (entries_are_isolated quiet_world)) 1%nat
              [entry_with_infinite_limit; sample_entry] 2%nat 0%nat 1%nat ∅
              [Call (GetItems 100 0); Out (Fetched 0)] eq_refl)
    as (counters & evs & t' & Hloop & Hrun).
  vm_compute in Hloop. injection Hloop as <- <- <-.
  eexists _, _. split; [rewrite Hrun; rewrite app_assoc; reflexivity|].
  split; [vm_compute; reflexivity|].
  apply elem_of_app. right. apply elem_of_cons. by left.
Defined.

(** ** What is written *)

Section WriteFacts.
Context `{U : Unicode} (w : world).

Lemma spec_out_of_fuel {A} (P : event -> Prop) (Q : A -> Prop) :
  spec P Q (out_of_fuel : M A).
Proof. intros t. split; [constructor|discriminate]. Qed.

Lemma spec_fetch_pages (fuel : nat) :
  forall (offset : nat) (all_items : index),
  spec write_ok (fun _ => True) (fetch_pages w fuel offset all_items).
Proof.
  induction fuel as [|fuel IH]; intros offset all_items; cbn [fetch_pages].
  - apply spec_out_of_fuel.
  - apply (spec_bind _ (fun _ => True)); [by apply spec_http|].
    intros [status_code items] _.
    destruct (status_code =? 200).
    + destruct (length items <? 100)%nat; [by apply spec_ret|].
      apply spec_then; [by apply spec_emit|apply IH].
    + apply spec_then; [by apply spec_print|by apply spec_ret].
Qed.

Ltac forall_events :=
  repeat first [apply List.Forall_nil
               |apply List.Forall_cons; [first [assumption|exact I]|]].

Lemma process_entry_writes (webflow_items : index) (e : xml_entry)
    (successful_updates new_items_created t : nat) :
  Forall write_ok
    (events (process_entry w webflow_items e successful_updates
               new_items_created t)).
Proof.
  rewrite process_entry_run, entry_try_run.
  pose proof (build_payload_events w e t) as Hevs.
  pose proof (Forall_impl _ _ _ Hevs preparing_write_ok) as Hok.
  unfold events in *.
  destruct (build_payload w e t) as [[[[json|exc]|] evs] t1] eqn:Hbuild;
    cbn [fst snd] in *.
  - apply build_payload_published in Hbuild as Hpub.
    pose proof (with_slug_published (numerical_id e) json Hpub) as Hpub'.
    rewrite dispatch_run.
    destruct (webflow_items !! VStr (numerical_id e)) as [webflow_item|].
    + destruct (patch_live w t1 (item_id webflow_item) json)
        as [exc|status_code []]; cbn [fst snd];
        rewrite !Forall_app; (split; [split; [done|]|]); forall_events.
    + destruct (post_live w t1 (with_slug (numerical_id e) json))
        as [exc|status_code text]; cbn [fst snd];
        rewrite !Forall_app; (split; [split; [done|]|]);
        try destruct (status_code =? 200); forall_events.
  - cbn [fst snd]. rewrite Forall_app. split; [done|forall_events].
  - done.
Qed.

Lemma spec_reconcile (webflow_items : index) (xml_entries : list xml_entry) :
  forall successful_updates new_items_created : nat,
  spec write_ok (fun _ => True)
       (reconcile w webflow_items xml_entries successful_updates
                  new_items_created).
Proof.
  induction xml_entries as [|e rest IH];
    intros successful_updates new_items_created; cbn [reconcile].
  - by apply spec_ret.
  - apply (spec_bind _ (fun _ => True)).
    + intros t. split; [apply process_entry_writes|done].
    + intros [su nc] _. apply IH.
Qed.

Lemma main_writes (fuel t : nat) : Forall write_ok (events (main w fuel t)).
Proof.
  assert (Hmain : spec write_ok (fun _ => True) (main w fuel)); [|apply Hmain].
  unfold main, parse_xml_and_process.
  apply (spec_bind _ (fun _ => True)); [by apply spec_http|].
  intros [status_code root] _.
  destruct (status_code =? 200); [|by apply spec_print].
  apply spec_then; [by apply spec_print|].
  apply (spec_bind _ (fun _ => True)); [by apply spec_lift|].
  intros xml_entries _. unfold check_webflow_existence.
  apply (spec_bind _ (fun _ => True)).
  - unfold fetch_all_webflow_items.
    apply (spec_bind _ (fun _ => True)); [apply spec_fetch_pages|].
    intros all_items _. apply spec_then; [by apply spec_print|by apply spec_ret].
  - intros webflow_items _.
    apply (spec_bind _ (fun _ => True)); [apply spec_reconcile|].
    intros counters _. unfold summary.
    apply spec_then; by apply spec_print.
Qed.

(** *** Attributes outside the mapping table *)

Lemma map_field_ext (xml_data xml_data' : gmap str str)
    (fields : gmap str pyval) (kv : str * str) :
  xml_data !! fst kv = xml_data' !! fst kv ->
  map_field xml_data fields kv = map_field xml_data' fields kv.
Proof. destruct kv as [xml_field webflow_field]. cbn. by intros ->. Qed.

Lemma map_fields_ext (xml_data xml_data' : gmap str str)
    (mapping : list (str * str)) :
  (forall kv, kv ∈ mapping -> xml_data !! fst kv = xml_data' !! fst kv) ->
  forall fields : gmap str pyval,
  map_fields xml_data mapping fields = map_fields xml_data' mapping fields.
Proof.
  induction mapping as [|kv rest IH]; intros Hagree fields; [done|].
  cbn [map_fields].
  rewrite (map_field_ext xml_data xml_data')
    by (apply Hagree, elem_of_cons; by left).
  destruct (map_field xml_data' fields kv) as [fields'|exc]; [|done].
  cbn. apply IH. intros kv' Hin. apply Hagree, elem_of_cons. by right.
Qed.

Lemma calculate_apr_try_ext (xml_data xml_data' : gmap str str) :
  (forall kv, kv ∈ field_mapping -> xml_data !! fst kv = xml_data' !! fst kv) ->
  calculate_apr_try xml_data = calculate_apr_try xml_data'.
Proof.
  intros Hagree. unfold calculate_apr_try, float_field.
  pose proof (Hagree (u "kredittkort_nominell_rente",
                      u "kredittkort-nominell-rente-3")
                ltac:(apply in_whitelist; vm_compute; reflexivity)) as Hrate.
  pose proof (Hagree (u "kredittkort_kort_arsgebyr",
                      u "kredittkort-kort-arsgebyr-2")
                ltac:(apply in_whitelist; vm_compute; reflexivity)) as Hannual.
  pose proof (Hagree (u "kredittkort_termingebyr",
                      u "kredittkort-termingebyr-2")
                ltac:(apply in_whitelist; vm_compute; reflexivity)) as Hterm.
  cbn [fst] in *. by rewrite Hrate, Hannual, Hterm.
Qed.

Lemma process_entry_ext (webflow_items : index) (e e' : xml_entry)
    (successful_updates new_items_created t : nat) :
  title e = title e' -> orgnr e = orgnr e' -> numerical_id e = numerical_id e' ->
  (forall kv, kv ∈ field_mapping -> xml_data e !! fst kv = xml_data e' !! fst kv) ->
  process_entry w webflow_items e successful_updates new_items_created t =
  process_entry w webflow_items e' successful_updates new_items_created t.
Proof.
  intros Htitle Horgnr Hid Hagree.
  rewrite !process_entry_run, !entry_try_run, !build_payload_run.
  unfold apr_of.
  rewrite <- Htitle, <- Horgnr, <- Hid.
  rewrite <- (calculate_apr_try_ext _ _ Hagree).
  destruct (norwegian_date (yesterday w t)) as [sist_oppdatert|exc]; [|done].
  rewrite <- (map_fields_ext _ _ _ Hagree).
  pose proof (Hagree (u "kredittkort_andre_fordeler_beskrivelse",
                      u "kredittkort-andre-fordeler-beskrivelse-2")
                ltac:(apply in_whitelist; vm_compute; reflexivity)) as Htext.
  cbn [fst] in Htext. by rewrite <- Htext.
Qed.

Lemma unmapped_attribute_ignored (xml_data : gmap str str) (k v : str)
    (kv : str * str) :
  k ∉ List.map fst field_mapping -> kv ∈ field_mapping ->
  <[k:=v]> xml_data !! fst kv = xml_data !! fst kv.
Proof.
  intros Hk Hkv. apply lookup_insert_ne. intros ->. apply Hk.
  apply list_elem_of_In, in_map. by apply list_elem_of_In.
Qed.

End WriteFacts.

(** C5: every PATCH and POST of a run carries [isArchived] and [isDraft]
    false and field names of the whitelist: the three base fields, the CMS
    names of the mapping table, the four flags, the two cost fields and the
    bank reference, plus [slug] in a POST.  A feed attribute that is not a
    key of the mapping table changes nothing: the entry is processed exactly
    as without it. *)
Theorem writes_are_whitelisted `{U : Unicode} (w : world) :
  (forall fuel t : nat, Forall write_ok (events (main w fuel t))) /\
  (forall (webflow_items : index) (e : xml_entry) (k v : str)
          (successful_updates new_items_created t : nat),
     k ∉ List.map fst field_mapping ->
     process_entry w webflow_items
       {| title := title e; orgnr := orgnr e;
          xml_data := <[k:=v]> (xml_data e);
          numerical_id := numerical_id e |}
       successful_updates new_items_created t =
     process_entry w webflow_items e successful_updates new_items_created t).
Proof.
  split; [apply main_writes|].
  intros webflow_items e k v successful_updates new_items_created t Hk.
  apply process_entry_ext; try reflexivity.
  intros kv Hkv. cbn [xml_data]. by apply unmapped_attribute_ignored.
Qed.

(** What the theorem says in [quiet_world], and of [sample_entry] with one
    more attribute the mapping table does not know. *)
Lemma writes_are_whitelisted_witness :
  Forall write_ok (events (main quiet_world 3 0%nat)) /\
  (u "ukjent_felt" ∉ List.map fst field_mapping) /\
  process_entry quiet_world ∅
    {| title := title sample_entry; orgnr := orgnr sample_entry;
       xml_data := <[u "ukjent_felt" := u "x"]> (xml_data sample_entry);
       numerical_id := numerical_id sample_entry |} 0 0 0%nat =
  process_entry quiet_world ∅ sample_entry 0 0 0%nat.
Proof.
  assert (Hk : u "ukjent_felt" ∉ List.map fst field_mapping)
    by (apply not_in_whitelist; vm_compute; reflexivity).
  split; [apply (proj1 (writes_are_whitelisted quiet_world))|].
  split; [exact Hk|].
  exact (proj2 (writes_are_whitelisted quiet_world) ∅ sample_entry
           (u "ukjent_felt") (u "x") 0%nat 0%nat 0%nat Hk).
Defined.

(** ** The cost fields of a payload *)

Section CostFacts.
Context `{U : Unicode} (w : world).

#[local] Arguments dict_update : simpl never.
#[local] Arguments check_andre_fordeler : simpl never.

Lemma map_field_other (xml_data : gmap str str) (fields fields' : gmap str pyval)
    (kv : str * str) (k : str) :
  snd kv <> k -> map_field xml_data fields kv = Ok fields' ->
  fields' !! k = fields !! k.
Proof.
  destruct kv as [xml_field webflow_field]. cbn [snd]. intros Hne.
  unfold map_field.
  destruct (xml_data !! xml_field) as [value|]; [|by intros [= <-]].
  repeat case_bool_decide.
  - intros [= <-]. by apply lookup_insert_ne.
  - destruct (format_norwegian_number value) as [formatted|exc];
      [|discriminate].
    intros [= <-]. by apply lookup_insert_ne.
  - intros [= <-]. by apply lookup_insert_ne.
Qed.

Lemma map_fields_other (xml_data : gmap str str) (mapping : list (str * str))
    (k : str) :
  k ∉ List.map snd mapping ->
  forall fields fields' : gmap str pyval,
  map_fields xml_data mapping fields = Ok fields' ->
  fields' !! k = fields !! k.
Proof.
  induction mapping as [|kv rest IH]; intros Hk fields fields'.
  - by intros [= <-].
  - cbn [map_fields].
    destruct (map_field xml_data fields kv) as [fields1|exc] eqn:Hstep;
      [|discriminate].
    cbn. intros Hrest.
    rewrite (IH ltac:(intros Hin; apply Hk; cbn; by apply elem_of_cons; right)
               _ _ Hrest).
    eapply map_field_other; [|exact Hstep].
    intros Heq. apply Hk. cbn. apply elem_of_cons. by left.
Qed.

Lemma map_field_copied (xml_data : gmap str str) (fields fields' : gmap str pyval)
    (xml_field webflow_field : str) :
  copied webflow_field ->
  map_field xml_data fields (xml_field, webflow_field) = Ok fields' ->
  fields' !! webflow_field =
  match xml_data !! xml_field with
  | Some value => Some (VStr value)
  | None => fields !! webflow_field
  end.
Proof.
  intros [Hlong Hlimit]. unfold map_field.
  destruct (xml_data !! xml_field) as [value|]; [|by intros [= <-]].
  repeat case_bool_decide; try done.
  intros [= <-]. by apply lookup_insert_eq.
Qed.

Lemma map_fields_app (xml_data : gmap str str) (l1 l2 : list (str * str))
    (fields : gmap str pyval) :
  map_fields xml_data (l1 ++ l2) fields =
  (fields1 ← map_fields xml_data l1 fields; map_fields xml_data l2 fields1).
Proof.
  revert fields. induction l1 as [|kv l1 IH]; intros fields; [done|].
  cbn [app map_fields].
  destruct (map_field xml_data fields kv) as [fields1|exc]; [|done].
  cbn. apply IH.
Qed.

(** A copied field that one pair of the table writes holds the feed's text
    when the feed has the attribute, and what it held before otherwise. *)
Lemma map_fields_copied (xml_data : gmap str str) (l1 l2 : list (str * str))
    (xml_field webflow_field : str) (fields fields' : gmap str pyval) :
  copied webflow_field ->
  webflow_field ∉ List.map snd l1 -> webflow_field ∉ List.map snd l2 ->
  map_fields xml_data (l1 ++ (xml_field, webflow_field) :: l2) fields
    = Ok fields' ->
  fields' !! webflow_field =
  match xml_data !! xml_field with
  | Some value => Some (VStr value)
  | None => fields !! webflow_field
  end.
Proof.
  intros Hcopied H1 H2. rewrite map_fields_app.
  destruct (map_fields xml_data l1 fields) as [fields1|exc] eqn:Hl1;
    [|discriminate].
  unfold mbind at 1, res_bind at 1. cbn [map_fields].
  destruct (map_field xml_data fields1 (xml_field, webflow_field))
    as [fields2|exc] eqn:Hstep; [|discriminate].
  unfold mbind at 1, res_bind at 1. intros Hl2.
  rewrite (map_fields_other _ _ _ H2 _ _ Hl2).
  rewrite (map_field_copied _ _ _ _ _ Hcopied Hstep).
  by rewrite (map_fields_other _ _ _ H1 _ _ Hl1).
Qed.

Lemma mapped_copied (xml_data : gmap str str) (fields mapped : gmap str pyval)
    (l1 l2 : list (str * str)) (xml_field webflow_field : str) :
  field_mapping = l1 ++ (xml_field, webflow_field) :: l2 ->
  copied webflow_field ->
  webflow_field ∉ List.map snd l1 -> webflow_field ∉ List.map snd l2 ->
  map_fields xml_data field_mapping fields = Ok mapped ->
  mapped !! webflow_field =
  match xml_data !! xml_field with
  | Some value => Some (VStr value)
  | None => fields !! webflow_field
  end.
Proof. intros ->. apply map_fields_copied. Qed.

Lemma dict_update_other (other : list (str * bool)) (k : str) :
  k ∉ List.map fst other ->
  forall d : gmap str pyval, dict_update other d !! k = d !! k.
Proof.
  unfold dict_update.
  induction other as [|kv rest IH]; intros Hk d; [done|].
  cbn [foldl]. rewrite IH.
  - apply lookup_insert_ne. intros Heq. apply Hk. cbn. apply elem_of_cons. by left.
  - intros Hin. apply Hk. cbn. apply elem_of_cons. by right.
Qed.

Lemma add_bank_other (bank_id : option str) (d : gmap str pyval) (k : str) :
  k <> u "bank" -> add_bank bank_id d !! k = d !! k.
Proof.
  intros Hk. destruct bank_id as [[|c id]|]; [done| |done].
  cbn [add_bank]. by apply lookup_insert_ne.
Qed.

(** The two cost fields of the fields [build_payload] returns. *)
Lemma cost_fields_of_payload (e : xml_entry) (t t1 : nat) (json : payload)
    (evs : list event) :
  build_payload w e t = (Some (Ok json), evs, t1) ->
  fieldData json !! u "effektiv-rente-4" =
    match calculate_apr_try (xml_data e) with
    | Ok result => Some (VStr (apr_effective_rate result))
    | Raise _ => VStr <$> xml_data e !! u "effektiv_rente"
    end /\
  fieldData json !! u "eksempel-rente" =
    match calculate_apr_try (xml_data e) with
    | Ok result => Some (VStr (apr_example result))
    | Raise _ => VStr <$> xml_data e !! u "eksempel_rente"
    end.
Proof.
  rewrite build_payload_run.
  destruct (norwegian_date _) as [sist_oppdatert|]; [|discriminate].
  destruct (map_fields _ _ _) as [mapped|] eqn:Hmapped; [|discriminate].
  destruct (get_bank_id w (orgnr e) t) as [[[[bank_id|exc]|] evs'] t'];
    [|discriminate..].
  intros Hrun. injection Hrun as <- _ _. cbn [fieldData].
  rewrite 2!add_bank_other by (apply distinct_names; vm_compute; reflexivity).
  unfold apr_of. destruct (calculate_apr_try (xml_data e)) as [result|exc].
  - cbn [add_apr]. split.
    + rewrite lookup_insert_ne
        by (apply distinct_names; vm_compute; reflexivity).
      apply lookup_insert_eq.
    + apply lookup_insert_eq.
  - cbn [add_apr].
    rewrite !dict_update_other
      by (rewrite check_andre_fordeler_keys; apply not_in_whitelist;
          vm_compute; reflexivity).
    pose proof (mapped_copied (xml_data e) _ mapped
                  (firstn 14 field_mapping) (skipn 15 field_mapping)
                  (u "effektiv_rente") (u "effektiv-rente-4")
                  ltac:(vm_compute; reflexivity)
                  ltac:(split; [apply not_in_whitelist|apply distinct_names];
                        vm_compute; reflexivity)
                  ltac:(apply not_in_whitelist; vm_compute; reflexivity)
                  ltac:(apply not_in_whitelist; vm_compute; reflexivity)
                  Hmapped) as ->.
    pose proof (mapped_copied (xml_data e) _ mapped
                  (firstn 16 field_mapping) (skipn 17 field_mapping)
                  (u "eksempel_rente") (u "eksempel-rente")
                  ltac:(vm_compute; reflexivity)
                  ltac:(split; [apply not_in_whitelist|apply distinct_names];
                        vm_compute; reflexivity)
                  ltac:(apply not_in_whitelist; vm_compute; reflexivity)
                  ltac:(apply not_in_whitelist; vm_compute; reflexivity)
                  Hmapped) as ->.
    split.
    + by destruct (xml_data e !! u "effektiv_rente").
    + by destruct (xml_data e !! u "eksempel_rente").
Qed.

End CostFacts.

Section CostClaims.
Context `{U : Unicode} (w : world).

Lemma calculate_apr_run (xml_data : gmap str str) (t : nat) :
  calculate_apr xml_data t =
  (Some (Ok (apr_of xml_data)),
   match calculate_apr_try xml_data with
   | Ok _ => []
   | Raise exc => [Out (AprError exc)]
   end, t).
Proof.
  unfold calculate_apr, apr_of.
  by destruct (calculate_apr_try xml_data).
Qed.

Lemma float_field_error (xml_data : gmap str str) (key : str) (e : exn) :
  float_field xml_data key = Raise e -> e = ValueError.
Proof.
  unfold float_field. destruct (xml_data !! key); [|discriminate].
  apply float_of_str_error.
Qed.

(** A rate or fee that is no number makes the body of [calculate_apr] raise
    a [ValueError]. *)
Lemma calculate_apr_try_not_numeric (xml_data : gmap str str) (key text : str) :
  key ∈ [u "kredittkort_nominell_rente"; u "kredittkort_kort_arsgebyr";
         u "kredittkort_termingebyr"] ->
  xml_data !! key = Some text ->
  float_of_str text = Raise ValueError ->
  calculate_apr_try xml_data = Raise ValueError.
Proof.
  intros Hkey Htext Hfloat.
  assert (Hfield : float_field xml_data key = Raise ValueError)
    by (unfold float_field; by rewrite Htext).
  unfold calculate_apr_try.
  destruct (float_field xml_data (u "kredittkort_nominell_rente"))
    as [rate|e1] eqn:Hrate;
    [|by rewrite (float_field_error _ _ _ Hrate)].
  destruct (float_field xml_data (u "kredittkort_kort_arsgebyr"))
    as [annual_fee|e2] eqn:Hannual;
    [|by rewrite (float_field_error _ _ _ Hannual)].
  destruct (float_field xml_data (u "kredittkort_termingebyr"))
    as [term_fee|e3] eqn:Hterm;
    [|by rewrite (float_field_error _ _ _ Hterm)].
  exfalso. repeat (apply elem_of_cons in Hkey as [->|Hkey]); try congruence.
  by apply elem_of_nil in Hkey.
Qed.

(** [dispatch] starts with the write call. *)
Lemma dispatch_issues (webflow_items : index) (numerical_id : str)
    (json : payload) (successful_updates new_items_created t : nat) :
  exists r rest t',
    dispatch w webflow_items numerical_id json successful_updates
             new_items_created t =
    (r, Call (write_request webflow_items numerical_id json) :: rest, t').
Proof.
  rewrite dispatch_run. unfold write_request.
  destruct (webflow_items !! VStr numerical_id) as [webflow_item|].
  - destruct (patch_live w t (item_id webflow_item) json); by eexists _, _, _.
  - destruct (post_live w t (with_slug numerical_id json)); by eexists _, _, _.
Qed.

End CostClaims.

(** C10: for an entry whose feed fields hold [effektiv_rente], the field
    [effektiv-rente-4] of the payload is the calculator's formatted adjusted
    rate when the calculation succeeds, in place of the feed's value, and the
    feed's raw text when the calculation fails; a create payload holds the
    same value. *)
Theorem effektiv_rente_field `{U : Unicode} (w : world) (e : xml_entry)
    (raw : str) (t t1 : nat) (json : payload) (evs : list event) :
  xml_data e !! u "effektiv_rente" = Some raw ->
  build_payload w e t = (Some (Ok json), evs, t1) ->
  result (calculate_apr (xml_data e) t) = Some (Ok (apr_of (xml_data e))) /\
  fieldData json !! u "effektiv-rente-4" =
    Some (VStr match apr_of (xml_data e) with
               | Some result => apr_effective_rate result
               | None => raw
               end) /\
  fieldData (with_slug (numerical_id e) json) !! u "effektiv-rente-4" =
    fieldData json !! u "effektiv-rente-4".
Proof.
  intros Hraw Hbuild. split; [by rewrite calculate_apr_run|].
  split.
  - rewrite (proj1 (cost_fields_of_payload w e t t1 json evs Hbuild)).
    unfold apr_of.
    destruct (calculate_apr_try (xml_data e)); [done|by rewrite Hraw].
  - cbn [with_slug fieldData]. apply lookup_insert_ne.
    apply distinct_names. vm_compute. reflexivity.
Qed.

(** What the theorem says of [sample_entry], whose costs are computed, and
    of [entry_with_bad_fee], whose costs are not. *)
Lemma effektiv_rente_field_witness :
  (exists json evs t1,
     build_payload quiet_world sample_entry 0%nat = (Some (Ok json), evs, t1) /\
     fieldData json !! u "effektiv-rente-4" = Some (VStr (u "24.34%"))) /\
  (exists json evs t1,
     build_payload quiet_world entry_with_bad_fee 0%nat
       = (Some (Ok json), evs, t1) /\
     fieldData json !! u "effektiv-rente-4" = Some (VStr (u "24.5"))).
Proof.
  split.
  - assert (exists json evs t1,
              build_payload quiet_world sample_entry 0%nat =
                (Some (Ok json), evs, t1)) as (json & evs & t1 & Hbuild)
      by (eexists _, _, _; vm_compute; reflexivity).
    exists json, evs, t1. split; [exact Hbuild|].
    exact (proj1 (proj2 (effektiv_rente_field quiet_world sample_entry
                           (u "24.5") 0%nat t1 json evs eq_refl Hbuild))).
  - assert (exists json evs t1,
              build_payload quiet_world entry_with_bad_fee 0%nat =
                (Some (Ok json), evs, t1)) as (json & evs & t1 & Hbuild)
      by (eexists _, _, _; vm_compute; reflexivity).
    exists json, evs, t1. split; [exact Hbuild|].
    exact (proj1 (proj2 (effektiv_rente_field quiet_world entry_with_bad_fee
                           (u "24.5") 0%nat t1 json evs eq_refl Hbuild))).
Defined.

(** C4, as the code has it.  When a rate or fee of an entry is no number,
    [calculate_apr] logs the error and returns [None] without raising.  If
    the date, the mapped fields and the bank resolve, the payload is built
    from them alone and the write call is issued; the fields
    [effektiv-rente-4] and [eksempel-rente] then hold the feed's own
    [effektiv_rente] and [eksempel_rente] where the feed has them, and are
    absent only where it has not. *)
Theorem cost_failure_keeps_entry `{U : Unicode} (w : world) (e : xml_entry)
    (key text : str) :
  key ∈ [u "kredittkort_nominell_rente"; u "kredittkort_kort_arsgebyr";
         u "kredittkort_termingebyr"] ->
  xml_data e !! key = Some text ->
  float_of_str text = Raise ValueError ->
  (forall t : nat,
     calculate_apr (xml_data e) t =
     (Some (Ok None), [Out (AprError ValueError)], t)) /\
  (forall (t t1 : nat) (sist_oppdatert : str) (mapped : gmap str pyval)
          (bank_id : option str) (evs : list event),
     norwegian_date (yesterday w t) = Ok sist_oppdatert ->
     map_fields (xml_data e) field_mapping
       (<[u "sist-oppdatert" := VStr sist_oppdatert]>
          (<[u "leverandor-tekst" := VStr (orgnr e)]>
             (<[u "name" := VStr (title e)]> ∅))) = Ok mapped ->
     get_bank_id w (orgnr e) t = (Some (Ok bank_id), evs, t1) ->
     exists json,
       build_payload w e t =
         (Some (Ok json), Out (AprError ValueError) :: evs, t1) /\
       fieldData json =
         add_bank bank_id
           (dict_update
              (check_andre_fordeler
                 (Some (default []
                    (xml_data e !! u "kredittkort_andre_fordeler_beskrivelse"))))
              mapped) /\
       fieldData json !! u "effektiv-rente-4" =
         VStr <$> xml_data e !! u "effektiv_rente" /\
       fieldData json !! u "eksempel-rente" =
         VStr <$> xml_data e !! u "eksempel_rente" /\
       forall (webflow_items : index) (successful_updates new_items_created : nat),
       exists r rest t2,
         entry_try w webflow_items e successful_updates new_items_created t =
         (r,
          (Out (AprError ValueError) :: evs)
            ++ Call (write_request webflow_items (numerical_id e) json) :: rest,
          t2)).
Proof.
  intros Hkey Htext Hfloat.
  pose proof (calculate_apr_try_not_numeric _ _ _ Hkey Htext Hfloat) as Htry.
  split.
  - intros t. rewrite calculate_apr_run. unfold apr_of. by rewrite Htry.
  - intros t t1 sist_oppdatert mapped bank_id evs Hdate Hmapped Hbank.
    set (json := {| isArchived := false; isDraft := false;
                    fieldData :=
                      add_bank bank_id
                        (dict_update
                           (check_andre_fordeler
                              (Some (default []
                                 (xml_data e !! u "kredittkort_andre_fordeler_beskrivelse"))))
                           mapped) |}).
    assert (Hbuild : build_payload w e t =
              (Some (Ok json), Out (AprError ValueError) :: evs, t1)).
    { rewrite build_payload_run, Hdate, Hmapped, Hbank.
      unfold apr_of. by rewrite Htry. }
    exists json. split; [exact Hbuild|]. split; [reflexivity|].
    pose proof (cost_fields_of_payload w e t t1 json _ Hbuild) as [Heff Heks].
    rewrite Htry in Heff, Heks.
    split; [exact Heff|]. split; [exact Heks|].
    intros webflow_items successful_updates new_items_created.
    rewrite entry_try_run, Hbuild.
    destruct (dispatch_issues w webflow_items (numerical_id e) json
                successful_updates new_items_created t1)
      as (r & rest & t2 & ->).
    by eexists _, _, _.
Qed.

(** The claim as it stands fails where the feed has its own
    [effektiv_rente]: the fee "abc" makes the calculation fail, and the
    payload that is sent still holds [effektiv-rente-4], with the feed's
    text. *)
Lemma failed_costs_keep_feed_rate :
  omap (M:=list) (sent_field (u "effektiv-rente-4"))
       (events (process_entry quiet_world ∅ entry_with_bad_fee 0 0 0%nat)) =
  [Some (VStr (u "24.5"))].
Proof. vm_compute. reflexivity. Qed.

(** What the theorem says of [entry_with_bad_fee] in [quiet_world]. *)
Lemma cost_failure_keeps_entry_witness :
  calculate_apr (xml_data entry_with_bad_fee) 0%nat =
    (Some (Ok None), [Out (AprError ValueError)], 0%nat) /\
  exists json r rest t2,
    fieldData json !! u "effektiv-rente-4" = Some (VStr (u "24.5")) /\
    fieldData json !! u "eksempel-rente" = None /\
    entry_try quiet_world ∅ entry_with_bad_fee 0 0 0%nat =
    (r,
     Out (AprError ValueError)
       :: [Call (GetBanks 100 0); Call (GetBanks 100 100);
           Call (GetBanks 100 200); Call (GetBanks 100 300);
           Out (BankNotFound (u "Bank"))]
       ++ Call (PostLive (with_slug (u "101") json)) :: rest,
     t2).
Proof.
  destruct (cost_failure_keeps_entry quiet_world entry_with_bad_fee
              (u "kredittkort_termingebyr") (u "abc")
              ltac:(apply in_whitelist; vm_compute; reflexivity)
              ltac:(vm_compute; reflexivity)
              ltac:(vm_compute; reflexivity)) as [Hcalc Hentry].
  split; [apply Hcalc|].
  assert (exists mapped,
            map_fields (xml_data entry_with_bad_fee) field_mapping
              (<[u "sist-oppdatert" := VStr (u "Oppdatert 2. november 2026 - 23:59")]>
                 (<[u "leverandor-tekst" := VStr (orgnr entry_with_bad_fee)]>
                    (<[u "name" := VStr (title entry_with_bad_fee)]> ∅)))
            = Ok mapped) as [mapped Hmapped]
    by (eexists; vm_compute; reflexivity).
  destruct (Hentry 0%nat 4%nat (u "Oppdatert 2. november 2026 - 23:59") mapped None
              [Call (GetBanks 100 0); Call (GetBanks 100 100);
               Call (GetBanks 100 200); Call (GetBanks 100 300);
               Out (BankNotFound (u "Bank"))]
              ltac:(vm_compute; reflexivity) Hmapped
              ltac:(vm_compute; reflexivity))
    as (json & _ & _ & Heff & Heks & Hcall).
  destruct (Hcall ∅ 0%nat 0%nat) as (r & rest & t2 & Hrun).
  exists json, r, rest, t2.
  split; [exact Heff|]. split; [exact Heks|]. exact Hrun.
Defined.

(** ** The cost calculator *)







(** A rate that is a number, but whose twelfth power overflows: the
    calculator has no result. *)
Example calculate_apr_overflow :
  calculate_apr_try {[ u "kredittkort_nominell_rente" := u "1e200" ]}
  = Raise OverflowError.
Proof. vm_compute. reflexivity. Qed.

(** * Further properties *)

(** ** Slugs and sanitized text *)

(** *** [strip] *)

Lemma lstrip_split (s : str) :
  exists p, s = p ++ lstrip s /\ Forall (fun c => isspace c = true) p.
Proof.
  induction s as [|c s (p & Hs & Hp)]; [by exists []|].
  cbn [lstrip]. destruct (isspace c) eqn:Hc.
  - exists (c :: p). split; [by rewrite Hs at 1|by constructor].
  - by exists [].
Qed.

Lemma lstrip_head (s : str) (c : N) : head (lstrip s) = Some c -> isspace c = false.
Proof.
  induction s as [|a s IH]; [done|]. cbn [lstrip].
  destruct (isspace a) eqn:Ha; [done|]. by intros [= <-].
Qed.

Lemma lstrip_id (s : str) :
  (forall c, head s = Some c -> isspace c = false) -> lstrip s = s.
Proof.
  destruct s as [|a s]; [done|]. intros Hhead. cbn [lstrip].
  by rewrite (Hhead a eq_refl).
Qed.

(** [strip] takes whitespace off both ends and nothing else. *)
Lemma strip_split (s : str) :
  exists p q, s = p ++ strip s ++ q /\
    Forall (fun c => isspace c = true) p /\ Forall (fun c => isspace c = true) q.
Proof.
  unfold strip, rstrip.
  destruct (lstrip_split s) as (p & Hs & Hp).
  destruct (lstrip_split (rev (lstrip s))) as (q & Hr & Hq).
  exists p, (rev q). split; [|split; [done|]].
  - rewrite <- rev_app_distr, <- Hr, rev_involutive. exact Hs.
  - apply Forall_forall. intros c Hc%list_elem_of_In%in_rev%list_elem_of_In.
    rewrite Forall_forall in Hq. by apply Hq.
Qed.

Lemma head_of_rev {A} (l : list A) : head (rev l) = last l.
Proof.
  induction l as [|a l IH] using rev_ind; [done|].
  by rewrite rev_app_distr, last_snoc.
Qed.

Lemma last_of_rev {A} (l : list A) : last (rev l) = head l.
Proof. by rewrite <- head_of_rev, rev_involutive. Qed.

Lemma lstrip_last (s : str) (c : N) :
  last (lstrip s) = Some c -> last s = Some c.
Proof.
  destruct (lstrip_split s) as (p & Hs & _). intros Hlast.
  rewrite Hs. destruct (lstrip s) as [|a r] eqn:Hr; [done|].
  rewrite last_app. by rewrite Hlast.
Qed.

Lemma strip_head (s : str) (c : N) : head (strip s) = Some c -> isspace c = false.
Proof.
  unfold strip, rstrip. rewrite head_of_rev. intros Hc%lstrip_last.
  rewrite last_of_rev in Hc. by apply lstrip_head in Hc.
Qed.

Lemma strip_last (s : str) (c : N) : last (strip s) = Some c -> isspace c = false.
Proof. unfold strip, rstrip. rewrite last_of_rev. apply lstrip_head. Qed.

Lemma strip_id (s : str) :
  (forall c, head s = Some c -> isspace c = false) ->
  (forall c, last s = Some c -> isspace c = false) ->
  strip s = s.
Proof.
  intros Hhead Hlast. unfold strip, rstrip.
  rewrite (lstrip_id s Hhead), lstrip_id, rev_involutive; [done|].
  intros c. rewrite head_of_rev. apply Hlast.
Qed.

(** X1: whatever the Unicode tables say, a slug holds ASCII characters only,
    none of them a space or a character of the strip set, and it neither
    starts nor ends with whitespace. *)
Theorem normalize_for_slug_alphabet `{U : Unicode} (text : option str) :
  Forall (fun c => (c < 128)%N /\ c <> 32%N /\ c ∉ strip_set)
         (normalize_for_slug text) /\
  (forall c, head (normalize_for_slug text) = Some c -> isspace c = false) /\
  (forall c, last (normalize_for_slug text) = Some c -> isspace c = false).
Proof.
  split; [|split; [apply strip_head|apply strip_last]].
  apply Forall_forall. intros c Hc.
  pose proof (normalize_for_slug_strip_set text c Hc) as Hset.
  unfold normalize_for_slug in Hc.
  apply strip_incl in Hc. unfold sub_strip_set in Hc.
  apply list_elem_of_In, filter_In in Hc as [Hc _].
  unfold replace1 at 1 in Hc. apply in_map_iff in Hc as (x & Hx & Hin).
  unfold encode_ascii_ignore in Hin. apply filter_In in Hin as [_ Hlt].
  apply N.ltb_lt in Hlt.
  destruct (x =? 32)%N eqn:Hsp.
  - subst c. split; [lia|by split].
  - subst c. apply N.eqb_neq in Hsp. split; [done|by split].
Qed.

(** What the theorem says of " Re:mi (Gull) 50% ", whose slug starts with
    a hyphen. *)
Lemma normalize_for_slug_alphabet_witness :
  head (normalize_for_slug (U:=latin1) (Some (u " Re:mi (Gull) 50% "))) = Some 45%N /\
  isspace 45 = false.
Proof.
  split; [vm_compute; reflexivity|].
  apply (proj1 (proj2 (normalize_for_slug_alphabet (U:=latin1)
                         (Some (u " Re:mi (Gull) 50% ")))) 45%N).
  vm_compute; reflexivity.
Defined.

Lemma latin1_point_lower (x c : N) :
  (x < 256)%N ->
  In c (nfkd_point
          ((fun c => if (c =? 229)%N then 97%N else c)
             ((fun c => if (c =? 248)%N then 111%N else c)
                ((fun c => if (c =? 230)%N then 97%N else c) (lower_point x))))) ->
  is_ascii_upper c = false.
Proof.
  intros Hx Hc.
  assert (Hall :
    forallb (fun x =>
      forallb (fun c => negb (is_ascii_upper c))
        (nfkd_point
          ((fun c => if (c =? 229)%N then 97%N else c)
             ((fun c => if (c =? 248)%N then 111%N else c)
                ((fun c => if (c =? 230)%N then 97%N else c) (lower_point x))))))
      (List.map N.of_nat (seq 0 256)) = true) by (vm_compute; reflexivity).
  rewrite forallb_forall in Hall.
  assert (Hin : In x (List.map N.of_nat (seq 0 256))).
  { apply in_map_iff. exists (N.to_nat x). split; [lia|]. apply in_seq. lia. }
  specialize (Hall x Hin). rewrite forallb_forall in Hall.
  by apply negb_true_iff, Hall.
Qed.

(** X2: for a text whose code points all lie below U+0100, the slug holds no
    upper-case ASCII letter: capitals can come from code points beyond
    Latin-1 only. *)
Theorem normalize_for_slug_latin1_lower (s : str) :
  Forall (fun c => (c < 256)%N) s ->
  existsb is_ascii_upper (normalize_for_slug (U:=latin1) (Some s)) = false.
Proof.
  intros Hs. apply not_true_is_false. intros Hex.
  apply existsb_exists in Hex as (c & Hc & Hupper).
  unfold normalize_for_slug in Hc.
  apply list_elem_of_In, strip_incl, list_elem_of_In in Hc.
  unfold sub_strip_set in Hc. apply filter_In in Hc as [Hc _].
  unfold replace1 at 1 in Hc. apply in_map_iff in Hc as (y & Hy & Hin).
  unfold encode_ascii_ignore in Hin. apply filter_In in Hin as [Hin _].
  cbn [nfkd latin1] in Hin. apply in_concat in Hin as (l & Hl & Hyl).
  apply in_map_iff in Hl as (z & <- & Hz).
  unfold replace1 in Hz. cbn [lower latin1] in Hz. rewrite !List.map_map in Hz.
  apply in_map_iff in Hz as (x & <- & Hx).
  rewrite Forall_forall in Hs. apply list_elem_of_In, Hs in Hx.
  pose proof (latin1_point_lower x y Hx Hyl) as Hlow.
  destruct (y =? 32)%N; subst c; [done|congruence].
Qed.

(** What the theorem says of a text with the capital letter U+00C5. *)
Lemma normalize_for_slug_latin1_lower_witness :
  normalize_for_slug (U:=latin1) (Some (u "Bl" ++ [197%N] ++ u " Kort & Co."))
    = u "bla-kort--co" /\
  existsb is_ascii_upper
    (normalize_for_slug (U:=latin1) (Some (u "Bl" ++ [197%N] ++ u " Kort & Co.")))
  = false.
Proof.
  split; [vm_compute; reflexivity|].
  apply normalize_for_slug_latin1_lower.
  vm_compute. repeat constructor.
Defined.

(** *** [sanitize_text] *)

Lemma sub_whitespace_spaces (s : str) :
  forall b, Forall (fun c => isspace c = true -> c = 32%N) (sub_whitespace b s).
Proof.
  induction s as [|c s IH]; intros b; cbn [sub_whitespace]; [constructor|].
  destruct (isspace c) eqn:Hc.
  - destruct b; [apply IH|]. constructor; [done|apply IH].
  - constructor; [congruence|apply IH].
Qed.

Lemma sub_whitespace_head (s : str) (c : N) :
  head (sub_whitespace true s) = Some c -> isspace c = false.
Proof.
  induction s as [|a s IH]; [done|]. cbn [sub_whitespace].
  destruct (isspace a) eqn:Ha; [done|]. by intros [= <-].
Qed.

Lemma sub_whitespace_single (s : str) :
  forall b a r, sub_whitespace b s <> a ++ 32%N :: 32%N :: r.
Proof.
  induction s as [|c s IH]; intros b a r; cbn [sub_whitespace].
  - by destruct a.
  - destruct (isspace c) eqn:Hc.
    + destruct b; [apply IH|].
      destruct a as [|x a]; cbn [app].
      * intros [= Hs]. by apply (f_equal head), sub_whitespace_head in Hs.
      * intros [= _ Hs]. by apply IH in Hs.
    + destruct a as [|x a]; cbn [app].
      * intros [= -> _]. done.
      * intros [= _ Hs]. by apply IH in Hs.
Qed.

Lemma tidy_from_intro (s : str) :
  forall b,
  Forall (fun c => isspace c = true -> c = 32%N) s ->
  (forall a r, s <> a ++ 32%N :: 32%N :: r) ->
  (b = true -> forall c, head s = Some c -> isspace c = false) ->
  (forall c, last s = Some c -> isspace c = false) ->
  (s = [] -> b = false) ->
  tidy_from b s = true.
Proof.
  induction s as [|c s IH]; intros b Hsp Hsingle Hhead Hlast Hnil.
  - cbn. by rewrite Hnil.
  - cbn [tidy_from]. inversion Hsp as [|? ? Hc Hsp']; subst.
    assert (Hsingle' : forall a r, s <> a ++ 32%N :: 32%N :: r).
    { intros a r ->. by apply (Hsingle (c :: a) r). }
    assert (Hlast' : forall d, last s = Some d -> isspace d = false).
    { intros d Hd. apply Hlast. by destruct s. }
    destruct (isspace c) eqn:Hspace.
    + rewrite (Hc eq_refl) in *.
      destruct b; [by rewrite (Hhead eq_refl 32%N eq_refl) in Hspace|].
      cbn. apply IH; try done.
      * intros _ d Hd. destruct (isspace d) eqn:Hd'; [|done].
        destruct s as [|d' s]; [done|]. injection Hd as ->.
        inversion Hsp' as [|? ? Hd'' _]; subst. rewrite (Hd'' Hd') in *.
        by destruct (Hsingle [] s).
      * intros ->. by rewrite (Hlast 32%N eq_refl) in Hspace.
    + apply IH; try done.
Qed.

Lemma tidy_from_fixed (s : str) :
  forall b, tidy_from b s = true -> sub_whitespace b s = s.
Proof.
  induction s as [|c s IH]; intros b; [done|].
  cbn [tidy_from sub_whitespace]. destruct (isspace c).
  - intros [[Hc Hb]%andb_prop Hs]%andb_prop.
    apply negb_true_iff in Hb. apply N.eqb_eq in Hc. subst.
    by rewrite (IH _ Hs).
  - intros Hs. by rewrite (IH _ Hs).
Qed.

Lemma tidy_from_last (s : str) :
  forall b c, tidy_from b s = true -> last s = Some c -> isspace c = false.
Proof.
  induction s as [|a s IH]; intros b c; [done|]. cbn [tidy_from].
  destruct s as [|a' s].
  - intros Hs [= <-]. destruct (isspace a); [|done].
    cbn in Hs. by rewrite andb_false_r in Hs.
  - intros Hs Hlast. change (last (a :: a' :: s)) with (last (a' :: s)) in Hlast.
    destruct (isspace a).
    + apply andb_prop in Hs as [_ Hs]. by eapply IH.
    + by eapply IH.
Qed.

Lemma sanitize_text_is_tidy (text : str) : tidy (sanitize_text text) = true.
Proof.
  unfold sanitize_text.
  destruct (strip_split (sub_whitespace false text)) as (p & q & Hs & _ & _).
  destruct (strip (sub_whitespace false text)) as [|c s] eqn:Hstrip; [done|].
  cbn [tidy]. rewrite <- Hstrip in *. apply tidy_from_intro.
  - pose proof (sub_whitespace_spaces text false) as Hall.
    rewrite Hs, !Forall_app in Hall. by destruct Hall as (_ & ? & _).
  - intros a r Heq. apply (sub_whitespace_single text false (p ++ a) (r ++ q)).
    rewrite Hs at 1. rewrite Heq. by rewrite <- !app_assoc.
  - intros _. apply strip_head.
  - apply strip_last.
  - by rewrite Hstrip.
Qed.

Lemma sanitize_text_fixed (text : str) :
  tidy text = true -> sanitize_text text = text.
Proof.
  destruct text as [|c s]; [done|]. cbn [tidy]. intros Htidy.
  unfold sanitize_text.
  assert (Hc : isspace c = false).
  { cbn [tidy_from] in Htidy. destruct (isspace c); [|done].
    cbn in Htidy. by rewrite andb_false_r in Htidy. }
  assert (Hsub : sub_whitespace false (c :: s) = c :: s).
  { rewrite <- (tidy_from_fixed _ _ Htidy) at 2. cbn [sub_whitespace].
    by rewrite Hc. }
  rewrite Hsub. apply strip_id.
  - by intros d [= <-].
  - intros d. by apply (tidy_from_last _ true).
Qed.

(** X3: the sanitized text is tidy (its only whitespace is single spaces
    between other characters); a text that is tidy already is returned as it
    is; so sanitizing twice is sanitizing once. *)
Theorem sanitize_text_tidy (text : str) :
  tidy (sanitize_text text) = true /\
  (tidy text = true -> sanitize_text text = text) /\
  sanitize_text (sanitize_text text) = sanitize_text text.
Proof.
  split; [apply sanitize_text_is_tidy|].
  split; [apply sanitize_text_fixed|].
  apply sanitize_text_fixed, sanitize_text_is_tidy.
Qed.

(** What the theorem says of "Gratis reise", which is tidy. *)
Lemma sanitize_text_tidy_witness :
  tidy (u "Gratis reise") = true /\
  sanitize_text (u "Gratis reise") = u "Gratis reise".
Proof.
  split; [vm_compute; reflexivity|].
  apply (proj1 (proj2 (sanitize_text_tidy (u "Gratis reise")))).
  vm_compute; reflexivity.
Defined.

Lemma ink_spaces (p : str) : Forall (fun c => isspace c = true) p -> ink p = [].
Proof.
  induction 1 as [|c p Hc _ IH]; [done|]. unfold ink in *. cbn [List.filter].
  by rewrite Hc.
Qed.

Lemma ink_sub_whitespace (s : str) : forall b, ink (sub_whitespace b s) = ink s.
Proof.
  unfold ink. induction s as [|c s IH]; intros b; [done|].
  cbn [sub_whitespace List.filter]. destruct (isspace c) eqn:Hc; cbn [negb].
  - destruct b; [apply IH|]. cbn [List.filter].
    change (isspace 32) with true. cbn [negb]. apply IH.
  - cbn [List.filter]. rewrite Hc. cbn [negb]. by rewrite IH.
Qed.

Lemma sub_whitespace_length (s : str) :
  forall b, (length (sub_whitespace b s) <= length s)%nat.
Proof.
  induction s as [|c s IH]; intros b; [done|]. cbn [sub_whitespace].
  pose proof (IH true). pose proof (IH false).
  destruct (isspace c); [destruct b|]; cbn [length]; lia.
Qed.

(** X4: sanitizing keeps the characters that are not whitespace, all of them
    and in their order, and never makes a text longer. *)
Theorem sanitize_text_keeps_ink (text : str) :
  ink (sanitize_text text) = ink text /\
  (length (sanitize_text text) <= length text)%nat.
Proof.
  unfold sanitize_text.
  destruct (strip_split (sub_whitespace false text)) as (p & q & Hs & Hp & Hq).
  split.
  - rewrite <- (ink_sub_whitespace text false). rewrite Hs at 2.
    unfold ink in *. rewrite !List.filter_app.
    fold (ink p). fold (ink q). rewrite (ink_spaces p Hp), (ink_spaces q Hq).
    by rewrite app_nil_r.
  - pose proof (sub_whitespace_length text false) as Hlen.
    rewrite Hs in Hlen at 1. rewrite !length_app in Hlen. lia.
Qed.


(** ** The number formatter and the date line *)

(** X5: the only exception that leaves [format_norwegian_number] is the
    [OverflowError] of an input that parses to an infinity; an input that
    parses to NaN is returned as it is. *)
Theorem format_norwegian_number_errors `{U : Unicode} (number : str) :
  (forall e : exn,
     format_norwegian_number number = Raise e <->
     e = OverflowError /\ exists s, parse_float number = Some (S754_infinity s)) /\
  (parse_float number = Some S754_nan ->
   format_norwegian_number number = Ok number).
Proof.
  unfold format_norwegian_number, float_of_str.
  destruct (parse_float number) as [[s|s| |s m e']|]; cbn; split; try done.
  - intros e. split; [done|]. by intros [_ [s' ?]].
  - intros e. split; [by intros [= <-]; eauto|]. by intros [-> _].
  - intros e. split; [done|]. by intros [_ [s' ?]].
  - intros e. split; [done|]. by intros [_ [s' ?]].
  - intros e. split; [done|]. by intros [_ [s' ?]].
Qed.

(** What the theorem says of "NaN". *)
Lemma format_norwegian_number_errors_witness :
  format_norwegian_number (U:=latin1) (u "NaN") = Ok (u "NaN").
Proof.
  apply (proj2 (format_norwegian_number_errors (U:=latin1) (u "NaN"))).
  vm_compute; reflexivity.
Defined.

(** *** Indexing *)

Lemma py_index_nonneg {A} (l : list A) (i : Z) (x : A) :
  0 <= i -> l !! Z.to_nat i = Some x -> py_index l i = Ok x.
Proof.
  intros Hi Hx. unfold py_index.
  apply lookup_lt_Some in Hx as Hlt.
  assert ((i <? 0) = false) as -> by lia.
  assert ((0 <=? i) && (i <? Z.of_nat (length l)) = true) as -> by lia.
  by rewrite Hx.
Qed.

(** X6: for a date whose month lies between 1 and 12, the date line is
    returned without an exception, and names the month by its entry in
    [months]. *)
Theorem norwegian_date_calendar (d : date) :
  1 <= month d <= 12 ->
  exists name,
    months !! Z.to_nat (month d - 1) = Some name /\
    norwegian_date d =
    Ok (u "Oppdatert " ++ str_of_Z (day d) ++ u ". " ++ name ++ u " "
        ++ str_of_Z (year d) ++ u " - 23:59").
Proof.
  intros Hm.
  destruct (lookup_lt_is_Some_2 months (Z.to_nat (month d - 1))) as [name Hname].
  { change (length months) with 12%nat. lia. }
  exists name. split; [done|]. unfold norwegian_date.
  rewrite (py_index_nonneg months (month d - 1) name); [done|lia|done].
Qed.

(** What the theorem says of [sample_day]. *)
Lemma norwegian_date_calendar_witness :
  norwegian_date sample_day = Ok (u "Oppdatert 2. november 2026 - 23:59").
Proof.
  destruct (norwegian_date_calendar sample_day ltac:(cbn; lia))
    as (name & Hname & ->).
  vm_compute in Hname. injection Hname as <-. vm_compute. reflexivity.
Defined.

(** ** The feature flags *)

Lemma startswith_prefix (p s : str) :
  startswith p s = true <-> exists r, s = p ++ r.
Proof.
  revert s. induction p as [|a p IH]; intros s; cbn [startswith].
  - split; [by exists s|done].
  - destruct s as [|b s].
    + split; [done|]. by intros [r ?].
    + rewrite andb_true_iff, N.eqb_eq, IH. split.
      * intros [-> [r ->]]. by exists r.
      * intros [r [= -> ->]]. eauto.
Qed.

Lemma contains_occurs (k s : str) : contains k s = true <-> occurs k s.
Proof.
  unfold occurs. induction s as [|c s IH]; cbn [contains].
  - rewrite orb_false_r, startswith_prefix. split.
    + intros [r ->]. by exists [], r.
    + intros (a & b & Hs). symmetry in Hs.
      apply app_eq_nil in Hs as [-> Hs]. exists b. done.
  - rewrite orb_true_iff, startswith_prefix, IH. split.
    + intros [[r ->]|(a & b & ->)]; [by exists [], r|by exists (c :: a), b].
    + intros ([|x a] & b & Hs).
      * left. by exists b.
      * right. injection Hs as -> ->. by exists a, b.
Qed.

(** X7: the result holds the four flags in the order of the literal, and
    each flag tells whether one of its keywords occurs in the lower-cased
    description (the empty text for an absent or empty description), as a
    substring at any place. *)
Theorem check_andre_fordeler_flags `{U : Unicode}
    (andre_fordeler_beskrivelse : option str) :
  let text :=
    match andre_fordeler_beskrivelse with
    | Some ((_ :: _) as t) => lower t
    | _ => []
    end in
  exists priority_pass cashback rabatter bonuser : bool,
    check_andre_fordeler andre_fordeler_beskrivelse =
      [(u "priority-pass", priority_pass); (u "cashback", cashback);
       (u "rabatter", rabatter); (u "bonuser", bonuser)] /\
    (priority_pass = true <->
       occurs (u "priority pass") text \/ occurs (u "lounge") text) /\
    (cashback = true <->
       occurs (u "cashback") text \/ occurs (u "cash back") text
       \/ occurs (u "penger tilbake") text) /\
    (rabatter = true <-> occurs (u "rabatt") text) /\
    (bonuser = true <-> occurs (u "bonus") text).
Proof.
  intros text. eexists _, _, _, _. split; [reflexivity|].
  fold text. unfold any_in. cbn [existsb].
  rewrite ?orb_false_r, !orb_true_iff, !contains_occurs. by repeat split.
Qed.

(** ** The cost calculator, at its edges *)

Section CalculatorFacts.
Context `{U : Unicode}.

Lemma float_of_zero : float_of_str (u "0") = Ok (of_Z 0).
Proof. vm_compute. reflexivity. Qed.

Lemma float_field_default (xml_data : gmap str str) (key key' : str) :
  xml_data !! key = None ->
  float_field (<[key := u "0"]> xml_data) key' = float_field xml_data key'.
Proof.
  intros Hnone. unfold float_field.
  destruct (decide (key = key')) as [<-|Hne].
  - rewrite lookup_insert_eq, Hnone. apply float_of_zero.
  - by rewrite lookup_insert_ne.
Qed.

(** X8: an attribute the feed does not give counts as "0" in the cost
    calculation: adding it with that text changes nothing. *)
Theorem calculate_apr_default_zero (xml_data : gmap str str) (key : str) :
  xml_data !! key = None ->
  calculate_apr_try (<[key := u "0"]> xml_data) = calculate_apr_try xml_data.
Proof.
  intros Hnone. unfold calculate_apr_try.
  by rewrite !(float_field_default _ _ _ Hnone).
Qed.

Lemma math_pow_error (x : float) (n : positive) (e : exn) :
  math_pow x n = Raise e -> e = OverflowError.
Proof.
  unfold math_pow. destruct x as [s|s| |s m e']; try discriminate.
  destruct (binary_round _ _ _ _ _); try discriminate. by intros [= <-].
Qed.

(** X9: the body of [calculate_apr] fails in two ways only: with a
    [ValueError], when the rate or one of the fees is present and is no
    number; or with an [OverflowError], when all three are numbers and the
    twelfth power overflows. *)
Theorem calculate_apr_try_errors (xml_data : gmap str str) (e : exn) :
  calculate_apr_try xml_data = Raise e ->
  (e = ValueError /\
   exists key text,
     key ∈ [u "kredittkort_nominell_rente"; u "kredittkort_kort_arsgebyr";
            u "kredittkort_termingebyr"] /\
     xml_data !! key = Some text /\ parse_float text = None) \/
  (e = OverflowError /\
   exists rate,
     float_field xml_data (u "kredittkort_nominell_rente") = Ok rate /\
     math_pow (fadd (of_Z 1) (fdiv (fdiv rate (of_Z 100)) (of_Z 12))) 12
     = Raise OverflowError).
Proof.
  assert (Hfield : forall key e',
            float_field xml_data key = Raise e' ->
            e' = ValueError /\
            exists text, xml_data !! key = Some text /\ parse_float text = None).
  { intros key e'. unfold float_field, float_of_str.
    destruct (xml_data !! key) as [text|]; [|discriminate].
    destruct (parse_float text) eqn:Hp; [discriminate|].
    intros [= <-]. eauto. }
  unfold calculate_apr_try.
  destruct (float_field xml_data (u "kredittkort_nominell_rente"))
    as [rate|e1] eqn:Hrate.
  2: { intros [= <-]. destruct (Hfield _ _ Hrate) as (-> & text & ? & ?).
       left. split; [done|]. exists (u "kredittkort_nominell_rente"), text.
       split; [|done]. apply elem_of_cons. by left. }
  destruct (float_field xml_data (u "kredittkort_kort_arsgebyr"))
    as [annual_fee|e2] eqn:Hannual.
  2: { intros [= <-]. destruct (Hfield _ _ Hannual) as (-> & text & ? & ?).
       left. split; [done|]. exists (u "kredittkort_kort_arsgebyr"), text.
       split; [|done]. apply elem_of_cons. right. apply elem_of_cons. by left. }
  destruct (float_field xml_data (u "kredittkort_termingebyr"))
    as [term_fee|e3] eqn:Hterm.
  2: { intros [= <-]. destruct (Hfield _ _ Hterm) as (-> & text & ? & ?).
       left. split; [done|]. exists (u "kredittkort_termingebyr"), text.
       split; [|done]. do 2 (apply elem_of_cons; right). apply elem_of_cons. by left. }
  cbn [mbind res_bind]. unfold yearly_costs.
  cbn [pow_ of_int add_ div_ float_arith].
  destruct (math_pow _ 12) as [p|e4] eqn:Hpow; [discriminate|].
  cbn [mbind res_bind]. intros [= <-].
  pose proof (math_pow_error _ _ _ Hpow) as ->.
  right. split; [done|]. by exists rate.
Qed.

End CalculatorFacts.

(** What the theorem says of an entry that gives a rate and no fee. *)
Lemma calculate_apr_default_zero_witness :
  calculate_apr_try (U:=latin1)
    (<[u "kredittkort_termingebyr" := u "0"]>
       {[ u "kredittkort_nominell_rente" := u "20" ]})
  = calculate_apr_try (U:=latin1) {[ u "kredittkort_nominell_rente" := u "20" ]}.
Proof.
  apply (calculate_apr_default_zero (U:=latin1)). vm_compute. reflexivity.
Defined.

(** What the theorem says of the rate "1e200", whose power overflows. *)
Lemma calculate_apr_try_errors_witness :
  exists rate,
    float_field (U:=latin1) {[ u "kredittkort_nominell_rente" := u "1e200" ]}
      (u "kredittkort_nominell_rente") = Ok rate /\
    math_pow (fadd (of_Z 1) (fdiv (fdiv rate (of_Z 100)) (of_Z 12))) 12
    = Raise OverflowError.
Proof.
  assert (Hraise : calculate_apr_try (U:=latin1)
                     {[ u "kredittkort_nominell_rente" := u "1e200" ]}
                   = Raise OverflowError) by (vm_compute; reflexivity).
  pose proof (calculate_apr_try_errors (U:=latin1) _ _ Hraise) as Hcases.
  destruct Hcases as [[He _]|[_ Hpow]].
  - discriminate He.
  - exact Hpow.
Defined.

Section NanFacts.
Context `{U : Unicode}.

Lemma fadd_nan_r (x : float) : fadd x S754_nan = S754_nan.
Proof. by destruct x as [[]|[]| |]. Qed.

Lemma fmul_nan_r (x : float) : fmul x S754_nan = S754_nan.
Proof. by destruct x as [[]|[]| |]. Qed.

(** X10: a rate that parses to NaN (the text "nan", say) is no error: when
    both fees parse, the calculation returns, and the effective rate it
    formats is "nan%". *)
Theorem calculate_apr_nan_rate (xml_data : gmap str str) (text : str)
    (annual_fee term_fee : float) :
  xml_data !! u "kredittkort_nominell_rente" = Some text ->
  parse_float text = Some S754_nan ->
  float_field xml_data (u "kredittkort_kort_arsgebyr") = Ok annual_fee ->
  float_field xml_data (u "kredittkort_termingebyr") = Ok term_fee ->
  exists a,
    calculate_apr_try xml_data = Ok a /\
    apr_effective_rate a = u "nan%".
Proof.
  intros Htext Hnan Hannual Hterm.
  assert (Hrate : float_field xml_data (u "kredittkort_nominell_rente")
                  = Ok S754_nan).
  { unfold float_field, float_of_str. by rewrite Htext, Hnan. }
  unfold calculate_apr_try. rewrite Hrate, Hannual, Hterm.
  cbn [mbind res_bind].
  unfold yearly_costs. cbn [pow_ of_int add_ sub_ mul_ div_ float_arith].
  change (fdiv S754_nan (of_Z 100)) with S754_nan.
  change (fdiv S754_nan (of_Z 12)) with S754_nan.
  rewrite fadd_nan_r. cbn [math_pow mbind res_bind].
  eexists. split; [reflexivity|]. cbn [apr_effective_rate adjusted_effective_rate].
  change (fsub S754_nan (of_Z 1)) with S754_nan.
  rewrite fmul_nan_r, fadd_nan_r.
  reflexivity.
Qed.

End NanFacts.

(** What the theorem says of the rate "nan" with no fees. *)
Lemma calculate_apr_nan_rate_witness :
  exists a,
    calculate_apr_try (U:=latin1) {[ u "kredittkort_nominell_rente" := u "nan" ]}
      = Ok a /\
    apr_effective_rate a = u "nan%".
Proof.
  apply (calculate_apr_nan_rate (U:=latin1)
           {[ u "kredittkort_nominell_rente" := u "nan" ]} (u "nan")
           (of_Z 0) (of_Z 0)); vm_compute; reflexivity.
Defined.

(** ** The feed reader, entry by entry *)

(** *** [extract_id] *)

(** X11: when the entry has an [atom:id] with a text, [extract_id] returns
    the part of that text after its last slash (the whole text when it has
    none), which holds no slash; otherwise it raises [AttributeError]. *)
Theorem extract_id_last_segment (entry : element) :
  match find (atom_ns, u "id") entry with
  | Some id =>
      match text_of id with
      | Some text =>
          exists r, extract_id entry = Ok r /\ (47%N ∉ r) /\
                    (text = r \/ exists p, text = p ++ 47%N :: r)
      | None => extract_id entry = Raise AttributeError
      end
  | None => extract_id entry = Raise AttributeError
  end.
Proof.
  unfold extract_id.
  destruct (find (atom_ns, u "id") entry) as [id|]; [|done].
  destruct (text_of id) as [text|]; [|done].
  destruct (split_last 47 text) as (r & Hr & Hsep & Htext).
  exists r. by rewrite py_index_last, Hr.
Qed.

(** *** The attributes of an entry *)

(** Inserting one by one, the last element of a key decides its value. *)
Lemma foldl_insert_last `{Countable K} {A V} (key : A -> K) (val : A -> V)
    (l : list A) (d : gmap K V) (k : K) :
  foldl (fun d x => <[key x := val x]> d) d l !! k =
  match last (List.filter (fun x => bool_decide (key x = k)) l) with
  | Some x => Some (val x)
  | None => d !! k
  end.
Proof.
  induction l as [|x l IH] using rev_ind; [done|].
  rewrite foldl_app, List.filter_app. cbn [foldl List.filter].
  case_bool_decide as Hk.
  - rewrite last_snoc, <- Hk. apply lookup_insert_eq.
  - rewrite app_nil_r, lookup_insert_ne by done. apply IH.
Qed.

Lemma filter_both {A} (f g : A -> bool) (l : list A) :
  List.filter f (List.filter g l) = List.filter (fun x => g x && f x) l.
Proof.
  induction l as [|x l IH]; [done|]. cbn [List.filter].
  destruct (g x); cbn [List.filter andb]; [|done].
  destruct (f x); by rewrite IH.
Qed.

(** X12: the attributes of an entry are its children in the [f:] namespace:
    a name holds the stripped text of the last child of that name, [''] when
    that child has no text, and is absent when there is no such child. *)
Theorem fields_of_lookup (entry : element) (k : str) :
  fields_of entry !! k = field_text <$> last (findall (f_ns, k) entry).
Proof.
  unfold fields_of, findall, findall_ns.
  rewrite (foldl_insert_last (fun elem => snd (tag_of elem)) field_text).
  rewrite filter_both, lookup_empty.
  assert (Hext : List.filter
            (fun x => bool_decide (fst (tag_of x) = f_ns)
                      && bool_decide (snd (tag_of x) = k)) (children_of entry)
          = List.filter (fun c => bool_decide (tag_of c = (f_ns, k)))
                        (children_of entry)).
  { apply List.filter_ext. intros c. destruct (tag_of c) as [ns name]. cbn [fst snd].
    repeat case_bool_decide; naive_solver. }
  rewrite Hext. by destruct (last _).
Qed.

(** *** [parse_entry] *)

Section ParseFacts.
Context `{U : Unicode}.

Lemma text_strip_ok (x : option element) :
  (exists s, text_strip x = Ok s) <->
  exists e, x = Some e /\ is_Some (text_of e).
Proof.
  unfold text_strip. split.
  - intros [s Hs]. destruct x as [e|]; [|done].
    exists e. split; [done|]. by destruct (text_of e).
  - intros (e & -> & [text ->]). eauto.
Qed.

Lemma extract_id_ok (entry : element) :
  (exists r, extract_id entry = Ok r) <->
  exists i, find (atom_ns, u "id") entry = Some i /\ is_Some (text_of i).
Proof.
  unfold extract_id.
  destruct (find (atom_ns, u "id") entry) as [id|].
  - destruct (text_of id) as [text|] eqn:Htext.
    + rewrite py_index_last. destruct (split_last 47 text) as (r & -> & _).
      split; [|by eauto]. intros _. exists id. by rewrite Htext.
    + split; [by intros [r ?]|]. intros (i & [= <-] & [text Hi]). congruence.
  - split; [by intros [r ?]|]. by intros (i & ? & _).
Qed.

(** X13: an entry parses exactly when it has a title element with a text, an
    id element with a text, and its provider element, if it has one, has a
    text; and an entry that does not parse raises [AttributeError]. *)
Theorem parse_entry_returns (entry : element) :
  ((exists e, parse_entry entry = Ok e) <->
   (exists t, find (atom_ns, u "title") entry = Some t /\ is_Some (text_of t)) /\
   (forall p, find (f_ns, u "leverandor_tekst") entry = Some p ->
              is_Some (text_of p)) /\
   (exists i, find (atom_ns, u "id") entry = Some i /\ is_Some (text_of i))) /\
  (forall e, parse_entry entry = Raise e -> e = AttributeError).
Proof.
  unfold parse_entry.
  pose proof (text_strip_ok (find (atom_ns, u "title") entry)) as Htitle.
  pose proof (text_strip_error (find (atom_ns, u "title") entry)) as Htitle'.
  pose proof (extract_id_ok entry) as Hid.
  pose proof (extract_id_error entry) as Hid'.
  destruct (text_strip (find (atom_ns, u "title") entry)) as [title|e1].
  2: { split; [|intros e [= <-]; by apply Htitle'].
       split; [by intros [e ?]|]. intros (Ht & _ & _).
       apply Htitle in Ht as [s ?]. done. }
  cbn [mbind res_bind].
  destruct (find (f_ns, u "leverandor_tekst") entry) as [p|] eqn:Hp.
  - pose proof (text_strip_ok (Some p)) as Hprov.
    pose proof (text_strip_error (Some p)) as Hprov'.
    destruct (text_strip (Some p)) as [orgnr|e2].
    + cbn [mbind res_bind].
      destruct (extract_id entry) as [numerical_id|e3]; cbn [mbind res_bind].
      * split; [|done]. split; [|by eauto]. intros _.
        split; [apply Htitle; eauto|]. split; [|apply Hid; eauto].
        intros p' [= <-]. destruct (proj1 Hprov) as (p' & [= <-] & ?); eauto.
      * split; [|intros e [= <-]; by apply Hid'].
        split; [by intros [e ?]|]. intros (_ & _ & Hi).
        apply Hid in Hi as [r ?]. done.
    + split; [|intros e [= <-]; by apply Hprov'].
      split; [by intros [e ?]|]. intros (_ & Hsome & _).
      destruct (proj2 Hprov) as [s ?]; [|done]. exists p. split; [done|]. by apply Hsome.
  - cbn [mbind res_bind].
    destruct (extract_id entry) as [numerical_id|e3]; cbn [mbind res_bind].
    + split; [|done]. split; [|by eauto]. intros _.
      split; [apply Htitle; eauto|]. split; [done|apply Hid; eauto].
    + split; [|intros e [= <-]; by apply Hid'].
      split; [by intros [e ?]|]. intros (_ & _ & Hi).
      apply Hid in Hi as [r ?]. done.
Qed.

End ParseFacts.

(** What the theorem says of [entry_complete]. *)
Lemma parse_entry_returns_witness :
  exists e, parse_entry entry_complete = Ok e.
Proof.
  apply (proj1 (parse_entry_returns entry_complete)). split; [|split].
  - exists atom_title. split; [vm_compute; reflexivity|]. by eexists.
  - intros p Hp. vm_compute in Hp. injection Hp as <-. by eexists.
  - exists atom_id. split; [vm_compute; reflexivity|]. by eexists.
Defined.

(** ** The directory and the bank scan *)

(** X14: after a page is indexed, a key holds the last item of the page
    filed under it (its [slug], or [''] when it has none), and what it held
    before when the page has no such item. *)
Theorem index_page_lookup (all_items : index) (items : list item) (k : pyval) :
  index_page all_items items !! k =
  match last (List.filter (fun it => bool_decide (slug_key it = k)) items) with
  | Some it => Some it
  | None => all_items !! k
  end.
Proof.
  unfold index_page.
  apply (foldl_insert_last slug_key (fun it => it)).
Qed.

Section DirectoryMore.
Context (w : world).

Lemma fetch_pages_short (fuel offset t : nat) (all_items : index)
    (items : list item) :
  offers_page w t offset = Responds 200 items ->
  (length items < 100)%nat ->
  fetch_pages w (S fuel) offset all_items t =
  (Some (Ok (index_page all_items items)), [Call (GetItems 100 offset)], S t).
Proof.
  intros Hpage Hlen. cbn [fetch_pages].
  rewrite bind_run, http_run, Hpage. cbn.
  assert ((length items <=? 99)%nat = true) as -> by (apply Nat.leb_le; lia).
  reflexivity.
Qed.

Lemma fetch_pages_raises (fuel offset t : nat) (all_items : index) (e : exn) :
  offers_page w t offset = Fails e ->
  fetch_pages w (S fuel) offset all_items t =
  (Some (Raise e), [Call (GetItems 100 offset)], S t).
Proof.
  intros Hpage. cbn [fetch_pages]. by rewrite bind_run, http_run, Hpage.
Qed.

Lemma fetch_pages_through (pages : list (list item)) :
  forall (fuel offset t : nat) (all_items : index),
  serves w t offset pages ->
  fetch_pages w (length pages + fuel) offset all_items t =
  let '(r, evs, t') :=
    fetch_pages w fuel (offset + 100 * length pages)
                (foldl index_page all_items pages) (t + length pages)%nat in
  (r, full_page_events offset (length pages) ++ evs, t').
Proof.
  induction pages as [|page pages IH]; intros fuel offset t all_items Hserves.
  - cbn [length foldl full_page_events app Nat.add].
    rewrite Nat.mul_0_r, !Nat.add_0_r.
    by destruct (fetch_pages w fuel offset all_items t) as [[r evs] t'].
  - destruct Hserves as (Hpage & Hlen & Hrest). cbn [length foldl].
    change (S (length pages) + fuel)%nat with (S (length pages + fuel)).
    rewrite (fetch_pages_full w _ _ _ _ _ Hpage Hlen).
    rewrite (IH fuel _ _ _ Hrest).
    replace (offset + 100 + 100 * length pages)%nat
      with (offset + 100 * S (length pages))%nat by lia.
    replace (S t + length pages)%nat with (t + S (length pages))%nat by lia.
    by destruct (fetch_pages w fuel _ _ _) as [[r evs] t'].
Qed.

(** X15: when the CMS serves full pages followed by a short one, the
    directory fetch returns the index of all of them, having asked for the
    offsets 0, 100, 200, ... with a delay after every full page, and prints
    the size of the index; as long as the pages are full the loop goes on
    (the fuel runs out first). *)
Theorem fetch_all_webflow_items_complete (pages : list (list item))
    (items : list item) (fuel t : nat) :
  serves w t 0 pages ->
  offers_page w (t + length pages) (100 * length pages) = Responds 200 items ->
  (length items < 100)%nat ->
  fetch_all_webflow_items w (length pages + S fuel) t =
  (Some (Ok (foldl index_page ∅ (pages ++ [items]))),
   full_page_events 0 (length pages)
     ++ [Call (GetItems 100 (100 * length pages));
         Out (Fetched (size (foldl index_page ∅ (pages ++ [items]))))],
   S (t + length pages)) /\
  fetch_pages w (length pages) 0 ∅ t =
  (None, full_page_events 0 (length pages), (t + length pages)%nat).
Proof.
  intros Hserves Hlast Hshort. split.
  - unfold fetch_all_webflow_items. rewrite bind_run.
    rewrite (fetch_pages_through pages (S fuel) 0 t ∅ Hserves).
    rewrite (fetch_pages_short _ _ _ _ _ Hlast Hshort).
    rewrite foldl_app. cbn [foldl]. unfold print. rewrite emit_then.
    unfold mret, M_ret. by rewrite <- app_assoc.
  - pose proof (fetch_pages_through pages 0 0 t ∅ Hserves) as Hrun.
    rewrite Nat.add_0_r in Hrun. rewrite Hrun. cbn [fetch_pages].
    unfold out_of_fuel. by rewrite app_nil_r.
Qed.

End DirectoryMore.

(** What the theorem says in [two_page_world]. *)
Lemma fetch_all_webflow_items_complete_witness :
  fetch_all_webflow_items two_page_world 2 0%nat =
  (Some (Ok (foldl index_page ∅ [repeat sample_offer 100; [sample_offer]])),
   [Call (GetItems 100 0); Sleep 1; Call (GetItems 100 100);
    Out (Fetched (size (foldl index_page ∅ [repeat sample_offer 100; [sample_offer]])))],
   2%nat).
Proof.
  exact (proj1 (fetch_all_webflow_items_complete two_page_world
    [repeat sample_offer 100] [sample_offer] 0%nat 0%nat
    ltac:(cbn [serves]; split; [reflexivity|split; [rewrite repeat_length; lia|exact I]])
    eq_refl ltac:(cbn; lia))).
Defined.

(** *** The bank scan *)

Section BankFacts.
Context (w : world).

Lemma scan_banks_nil (orgnr : str) (t : nat) :
  scan_banks w orgnr [] t = (Some (Ok None), [Out (BankNotFound orgnr)], t).
Proof. reflexivity. Qed.

Lemma scan_banks_cons (orgnr : str) (offset : nat) (rest : list nat) (t : nat) :
  scan_banks w orgnr (offset :: rest) t =
  match banks_page w t offset with
  | Fails e => (Some (Raise e), [Call (GetBanks 100 offset)], S t)
  | Responds status_code items =>
      if status_code =? 200 then
        match find_bank orgnr items with
        | Some id =>
            (Some (Ok (Some id)),
             [Call (GetBanks 100 offset); Out (BankFound id orgnr)], S t)
        | None =>
            let '(r, evs, t') := scan_banks w orgnr rest (S t) in
            (r, Call (GetBanks 100 offset) :: evs, t')
        end
      else
        let '(r, evs, t') := scan_banks w orgnr rest (S t) in
        (r, Call (GetBanks 100 offset) :: Out (BankPageFailed offset status_code)
              :: evs, t')
  end.
Proof.
  cbn [scan_banks]. rewrite bind_run, http_run.
  destruct (banks_page w t offset) as [e|status_code items]; [done|].
  cbv beta iota zeta. destruct (status_code =? 200).
  - destruct (find_bank orgnr items) as [id|]; [done|].
    by destruct (scan_banks w orgnr rest (S t)) as [[r evs] t'].
  - rewrite bind_run. unfold print, emit. cbv beta iota zeta.
    by destruct (scan_banks w orgnr rest (S t)) as [[r evs] t'].
Qed.

Lemma scan_banks_first (orgnr : str) (offsets : list nat) :
  forall (t : nat) (id : str),
  result (scan_banks w orgnr offsets t) = Some (Ok (Some id)) <->
  exists (i offset : nat) (items : list item),
    offsets !! i = Some offset /\
    banks_page w (t + i) offset = Responds 200 items /\
    find_bank orgnr items = Some id /\
    forall (j offset' : nat), (j < i)%nat -> offsets !! j = Some offset' ->
      exists status_code items',
        banks_page w (t + j) offset' = Responds status_code items' /\
        (status_code = 200 -> find_bank orgnr items' = None).
Proof.
  induction offsets as [|offset rest IH]; intros t id.
  - rewrite scan_banks_nil. split; [done|]. by intros (i & o & items & ? & _).
  - assert (Hshift :
      result (scan_banks w orgnr rest (S t)) = Some (Ok (Some id)) <->
      exists (i offset0 : nat) (items : list item),
        (offset :: rest) !! S i = Some offset0 /\
        banks_page w (t + S i) offset0 = Responds 200 items /\
        find_bank orgnr items = Some id /\
        forall (j offset' : nat), (j < i)%nat -> rest !! j = Some offset' ->
          exists status_code items',
            banks_page w (t + S j) offset' = Responds status_code items' /\
            (status_code = 200 -> find_bank orgnr items' = None)).
    { rewrite IH. cbn [lookup list_lookup].
      split; intros (i & o & items & Hi & Hpage & Hfind & Hbefore);
        exists i, o, items; (split; [done|]).
      - replace (t + S i)%nat with (S t + i)%nat by lia.
        split; [done|]. split; [done|]. intros j o' Hj Ho'.
        replace (t + S j)%nat with (S t + j)%nat by lia. by apply Hbefore.
      - replace (S t + i)%nat with (t + S i)%nat by lia.
        split; [done|]. split; [done|]. intros j o' Hj Ho'.
        replace (S t + j)%nat with (t + S j)%nat by lia. by apply Hbefore. }
    rewrite scan_banks_cons.
    destruct (banks_page w t offset) as [e|status_code items] eqn:Hpage.
    + split; [done|]. intros ([|i] & o & items & Hi & Hp & Hfind & Hbefore).
      * injection Hi as <-. rewrite Nat.add_0_r in Hp. congruence.
      * destruct (Hbefore 0%nat offset ltac:(lia) eq_refl) as (s & its & Hp0 & _).
        rewrite Nat.add_0_r in Hp0. congruence.
    + destruct (status_code =? 200) eqn:Hstatus.
      * apply Z.eqb_eq in Hstatus as ->.
        destruct (find_bank orgnr items) as [id'|] eqn:Hfind.
        -- cbn. split.
           ++ intros [= ->]. exists 0%nat, offset, items.
              rewrite Nat.add_0_r. repeat split; try done. intros j o' Hj. lia.
           ++ intros ([|i] & o & items' & Hi & Hp & Hfind' & Hbefore).
              ** injection Hi as <-. rewrite Nat.add_0_r in Hp. congruence.
              ** destruct (Hbefore 0%nat offset ltac:(lia) eq_refl)
                   as (s & its & Hp0 & Hnone).
                 rewrite Nat.add_0_r in Hp0. rewrite Hpage in Hp0.
                 injection Hp0 as <- <-. rewrite (Hnone eq_refl) in Hfind. done.
        -- destruct (scan_banks w orgnr rest (S t)) as [[r evs] t'] eqn:Hrest.
           change (result (r, Call (GetBanks 100 offset) :: evs, t'))
             with (result (r, evs, t')).
           rewrite Hshift. split.
           ++ intros (i & o & items' & Hi & Hp & Hfind' & Hbefore).
              exists (S i), o, items'. repeat split; try done.
              intros [|j] o' Hj Ho'.
              ** injection Ho' as <-. rewrite Nat.add_0_r. eauto.
              ** apply Hbefore; [lia|done].
           ++ intros ([|i] & o & items' & Hi & Hp & Hfind' & Hbefore).
              ** injection Hi as <-. rewrite Nat.add_0_r in Hp. congruence.
              ** exists i, o, items'. repeat split; try done.
                 intros j o' Hj Ho'. apply (Hbefore (S j)); [lia|done].
      * apply Z.eqb_neq in Hstatus.
        destruct (scan_banks w orgnr rest (S t)) as [[r evs] t'] eqn:Hrest.
        change (result (r, Call (GetBanks 100 offset)
                             :: Out (BankPageFailed offset status_code) :: evs, t'))
          with (result (r, evs, t')).
        rewrite Hshift. split.
        -- intros (i & o & items' & Hi & Hp & Hfind' & Hbefore).
           exists (S i), o, items'. repeat split; try done.
           intros [|j] o' Hj Ho'.
           ++ injection Ho' as <-. rewrite Nat.add_0_r.
              exists status_code, items. split; [done|]. done.
           ++ apply Hbefore; [lia|done].
        -- intros ([|i] & o & items' & Hi & Hp & Hfind' & Hbefore).
           ++ injection Hi as <-. rewrite Nat.add_0_r in Hp. congruence.
           ++ exists i, o, items'. repeat split; try done.
              intros j o' Hj Ho'. apply (Hbefore (S j)); [lia|done].
Qed.

(** X16: [get_bank_id] returns an id exactly when, among the four pages in
    order, some page answers 200 and holds an item named like the provider,
    every page before it has answered (with any status) and, where it
    answered 200, held no such item; the id is that of the first such item. *)
Theorem get_bank_id_first_match (orgnr : str) (t : nat) (id : str) :
  result (get_bank_id w orgnr t) = Some (Ok (Some id)) <->
  exists (i : nat) (items : list item),
    (i < 4)%nat /\
    banks_page w (t + i) (100 * i) = Responds 200 items /\
    find_bank orgnr items = Some id /\
    forall j : nat, (j < i)%nat ->
      exists status_code items',
        banks_page w (t + j) (100 * j) = Responds status_code items' /\
        (status_code = 200 -> find_bank orgnr items' = None).
Proof.
  unfold get_bank_id. rewrite scan_banks_first.
  change (range 0 400 100) with [0; 100; 200; 300]%nat.
  assert (Hnth : forall i o, [0; 100; 200; 300]%nat !! i = Some o <->
                             (i < 4)%nat /\ o = (100 * i)%nat).
  { intros [|[|[|[|i]]]] o; cbn; split; try (intros [= <-]; split; lia);
      try (intros [_ ->]; done); try done; intros [? _]; lia. }
  split.
  - intros (i & o & items & Hi%Hnth & Hpage & Hfind & Hbefore).
    destruct Hi as [Hi ->]. exists i, items. repeat split; try done.
    intros j Hj. apply Hbefore; [done|]. apply Hnth. split; [lia|done].
  - intros (i & items & Hi & Hpage & Hfind & Hbefore).
    exists i, (100 * i)%nat, items. split; [by apply Hnth|].
    repeat split; try done. intros j o Hj [_ ->]%Hnth. by apply Hbefore.
Qed.

End BankFacts.

(** What the theorem says in [bank_retry_world]: the first page fails, the
    second holds the bank. *)
Lemma get_bank_id_first_match_witness :
  result (get_bank_id bank_retry_world (u "Bank") 0%nat) = Some (Ok (Some (u "b1"))).
Proof.
  apply (get_bank_id_first_match bank_retry_world (u "Bank") 0%nat (u "b1")).
  exists 1%nat, [sample_bank]. split; [lia|]. split; [reflexivity|].
  split; [vm_compute; reflexivity|].
  intros j Hj. assert (j = 0%nat) as -> by lia.
  exists 500, []. split; [reflexivity|discriminate].
Defined.

(** ** The accounts of the loop *)

Lemma count_app (kind : event -> bool) (evs evs' : list event) :
  count kind (evs ++ evs') = (count kind evs + count kind evs')%nat.
Proof. unfold count. by rewrite List.filter_app, length_app. Qed.

Lemma count_preparing (kind : event -> bool) (evs : list event) :
  (forall ev, preparing ev -> kind ev = false) ->
  Forall preparing evs -> count kind evs = 0%nat.
Proof.
  intros Hkind. induction 1 as [|ev evs Hev _ IH]; [done|].
  unfold count in *. cbn [List.filter]. by rewrite (Hkind ev Hev).
Qed.

Section Accounts.
Context `{U : Unicode} (w : world).

Lemma scan_banks_calls (orgnr : str) (offsets : list nat) :
  forall t : nat,
  let '(r, evs, t') := scan_banks w orgnr offsets t in
  t' = (t + count is_call evs)%nat /\ (count is_call evs <= length offsets)%nat.
Proof.
  unfold count.
  induction offsets as [|offset rest IH]; intros t.
  - rewrite scan_banks_nil. cbn. split; [lia|done].
  - rewrite scan_banks_cons.
    destruct (banks_page w t offset) as [e|status_code items];
      [cbn; split; lia|].
    specialize (IH (S t)).
    destruct (status_code =? 200).
    + destruct (find_bank orgnr items) as [id|]; [cbn; split; lia|].
      destruct (scan_banks w orgnr rest (S t)) as [[r evs] t'].
      destruct IH as [-> IH]. cbn in *. split; lia.
    + destruct (scan_banks w orgnr rest (S t)) as [[r evs] t'].
      destruct IH as [-> IH]. cbn in *. split; lia.
Qed.

Lemma build_payload_calls (e : xml_entry) (t : nat) :
  let '(r, evs, t') := build_payload w e t in
  t' = (t + count is_call evs)%nat /\ (count is_call evs <= 4)%nat /\
  Forall preparing evs /\ r <> None.
Proof.
  pose proof (build_payload_events w e t) as Hprep.
  pose proof (build_payload_total w e t) as Htotal.
  unfold events, result in *. revert Hprep Htotal.
  rewrite build_payload_run.
  destruct (norwegian_date _);
    [|intros _ _; unfold count; cbn; repeat split; first [done|lia]].
  destruct (map_fields _ _ _);
    [|intros _ _; unfold count; cbn; repeat split; first [done|lia]].
  pose proof (scan_banks_calls (orgnr e) (range 0 400 100) t) as Hscan.
  fold (get_bank_id w (orgnr e)) in Hscan.
  destruct (get_bank_id w (orgnr e) t) as [[r evs] t'].
  destruct Hscan as [-> Hscan]. change (length (range 0 400 100)) with 4%nat in Hscan.
  cbn [fst snd]. intros Hprep Htotal. rewrite count_app.
  assert (count is_call
            match calculate_apr_try (xml_data e) with
            | Ok _ => []
            | Raise exc => [Out (AprError exc)]
            end = 0%nat) as -> by (by destruct (calculate_apr_try _)).
  repeat split; try done; lia.
Qed.

(** One round of the loop, with its accounts: the counters grow by the
    number of 200 answers printed, the clock by the number of calls. *)
Lemma process_entry_accounts (webflow_items : index) (e : xml_entry)
    (successful_updates new_items_created t : nat) :
  let '(r, evs, t') :=
    process_entry w webflow_items e successful_updates new_items_created t in
  r = Some (Ok ((successful_updates + count updated evs)%nat,
                (new_items_created + count created evs)%nat)) /\
  t' = (t + count is_call evs)%nat /\
  (count is_call evs <= 5)%nat /\
  (count updated evs + count created evs <= count is_write evs)%nat /\
  (count is_write evs <= 1)%nat /\
  count is_sleep evs = 1%nat /\
  last evs = Some (Sleep 1) /\
  (0 < count is_patch evs -> is_Some (webflow_items !! VStr (numerical_id e)))%nat.
Proof.
  rewrite process_entry_run, entry_try_run.
  pose proof (build_payload_calls e t) as Hbuild.
  destruct (build_payload w e t) as [[[[json|exc]|] evs] t1];
    destruct Hbuild as (-> & Hcalls & Hprep & Htotal); [| |done].
  - pose proof (count_preparing updated evs ltac:(by intros [[]|[]|]) Hprep) as Hu.
    pose proof (count_preparing created evs ltac:(by intros [[]|[]|]) Hprep) as Hc.
    pose proof (count_preparing is_write evs ltac:(by intros [[]|[]|]) Hprep) as Hw.
    pose proof (count_preparing is_patch evs ltac:(by intros [[]|[]|]) Hprep) as Hp.
    pose proof (count_preparing is_sleep evs ltac:(by intros [[]|[]|]) Hprep) as Hs.
    rewrite dispatch_run.
    destruct (webflow_items !! VStr (numerical_id e)) as [webflow_item|] eqn:Hfound.
    + destruct (patch_live w _ (item_id webflow_item) json) as [exc|status_code []];
        cbv beta iota zeta; rewrite last_app; cbn [last];
        rewrite !count_app, Hu, Hc, Hw, Hs, Hp; unfold count in *;
        cbn [List.filter is_call is_write is_patch is_sleep updated created
             length app].
      * rewrite !Nat.add_0_r. repeat split; eauto; lia.
      * destruct (status_code =? 200); cbn [List.filter length];
          (split; [do 3 f_equal; lia|]); repeat split; eauto; lia.
    + destruct (post_live w _ (with_slug (numerical_id e) json))
        as [exc|status_code text];
        cbv beta iota zeta; [|destruct (status_code =? 200) eqn:Hstatus];
        rewrite last_app; cbn [last];
        rewrite !count_app, Hu, Hc, Hw, Hs, Hp; unfold count in *;
        cbn [List.filter is_call is_write is_patch is_sleep updated created
             length app]; rewrite ?Hstatus; cbn [List.filter length];
        (split; [do 3 f_equal; lia|]); repeat split; try lia.
  - pose proof (count_preparing updated evs ltac:(by intros [[]|[]|]) Hprep) as Hu.
    pose proof (count_preparing created evs ltac:(by intros [[]|[]|]) Hprep) as Hc.
    pose proof (count_preparing is_write evs ltac:(by intros [[]|[]|]) Hprep) as Hw.
    pose proof (count_preparing is_patch evs ltac:(by intros [[]|[]|]) Hprep) as Hp.
    pose proof (count_preparing is_sleep evs ltac:(by intros [[]|[]|]) Hprep) as Hs.
    rewrite last_app. cbn [last].
    rewrite !count_app, Hu, Hc, Hw, Hs, Hp. unfold count in *.
    cbn [List.filter is_call is_write is_patch is_sleep updated created
         length app].
    rewrite !Nat.add_0_r. repeat split; try lia.
Qed.

End Accounts.

(** X17: one round of the loop always returns; it makes at most five calls
    (four bank pages and one write), at most one of them a write, and ends
    with the one-second delay. *)
Theorem process_entry_budget `{U : Unicode} (w : world) (webflow_items : index)
    (e : xml_entry) (successful_updates new_items_created t : nat) :
  exists counters evs t',
    process_entry w webflow_items e successful_updates new_items_created t =
      (Some (Ok counters), evs, t') /\
    t' = (t + count is_call evs)%nat /\
    (count is_call evs <= 5)%nat /\
    (count is_write evs <= 1)%nat /\
    count is_sleep evs = 1%nat /\
    last evs = Some (Sleep 1).
Proof.
  pose proof (process_entry_accounts w webflow_items e successful_updates
                new_items_created t) as Hacc.
  destruct (process_entry w webflow_items e successful_updates
              new_items_created t) as [[r evs] t'].
  destruct Hacc as (-> & Ht & Hcalls & _ & Hwrites & Hsleep & Hlast & _).
  by eexists _, evs, t'.
Qed.

Section LoopAccounts.
Context `{U : Unicode} (w : world).

Lemma reconcile_accounts (webflow_items : index) (xml_entries : list xml_entry) :
  forall successful_updates new_items_created t : nat,
  exists evs t',
    reconcile w webflow_items xml_entries successful_updates new_items_created t =
      (Some (Ok ((successful_updates + count updated evs)%nat,
                 (new_items_created + count created evs)%nat)), evs, t') /\
    (count updated evs + count created evs <= count is_write evs)%nat /\
    (count is_write evs <= length xml_entries)%nat /\
    count is_sleep evs = length xml_entries /\
    (0 < count is_patch evs ->
     exists e, e ∈ xml_entries /\ is_Some (webflow_items !! VStr (numerical_id e)))%nat.
Proof.
  induction xml_entries as [|e rest IH]; intros su nc t.
  - exists [], t. cbn [reconcile]. unfold mret, M_ret, count. cbn.
    rewrite !Nat.add_0_r. repeat split; try done; lia.
  - cbn [reconcile]. rewrite bind_run.
    pose proof (process_entry_accounts w webflow_items e su nc t) as Hacc.
    destruct (process_entry w webflow_items e su nc t) as [[r1 evs1] t1].
    destruct Hacc as (-> & _ & _ & Hu1 & Hw1 & Hs1 & _ & Hp1).
    destruct (IH (su + count updated evs1)%nat (nc + count created evs1)%nat t1)
      as (evs2 & t2 & -> & Hw2 & Hl2 & Hs2 & Hp2).
    exists (evs1 ++ evs2), t2. rewrite !count_app. cbn [length].
    split; [by rewrite !Nat.add_assoc|]. repeat split; try lia.
    intros Hpatch.
    destruct (count is_patch evs1) as [|n] eqn:Hn.
    + destruct Hp2 as (e' & Hin & Hsome); [lia|].
      exists e'. split; [|done]. apply elem_of_cons. by right.
    + exists e. split; [apply elem_of_cons; by left|]. apply Hp1. lia.
Qed.

End LoopAccounts.

(** X18: the loop over the entries returns counters that have grown by the
    number of update lines, and of creation lines, printed with status 200;
    there are no more such lines than write calls, no more write calls than
    entries, and one delay per entry. *)
Theorem reconcile_counters `{U : Unicode} (w : world) (webflow_items : index)
    (xml_entries : list xml_entry) (successful_updates new_items_created t : nat) :
  exists evs t',
    reconcile w webflow_items xml_entries successful_updates new_items_created t =
      (Some (Ok ((successful_updates + count updated evs)%nat,
                 (new_items_created + count created evs)%nat)), evs, t') /\
    (count updated evs + count created evs <= count is_write evs)%nat /\
    (count is_write evs <= length xml_entries)%nat /\
    count is_sleep evs = length xml_entries.
Proof.
  destruct (reconcile_accounts w webflow_items xml_entries successful_updates
              new_items_created t) as (evs & t' & Hrun & Hu & Hw & Hs & _).
  by exists evs, t'.
Qed.

(** X19: the loop sends a PATCH only if the directory index knows the
    identifier of one of the entries; so when the first directory page
    answers another status than 200, the index is empty and the run sends no
    PATCH at all: every entry that is written is created. *)
Theorem patch_needs_directory `{U : Unicode} (w : world) :
  (forall (webflow_items : index) (xml_entries : list xml_entry)
          (successful_updates new_items_created t : nat),
     (0 < count is_patch
            (events (reconcile w webflow_items xml_entries successful_updates
                       new_items_created t)))%nat ->
     exists e, e ∈ xml_entries /\
               is_Some (webflow_items !! VStr (numerical_id e))) /\
  (forall (fuel t total_entries : nat) (xml_entries : list xml_entry)
          (status_code : Z) (items : list item),
     offers_page w t 0 = Responds status_code items ->
     status_code <> 200 ->
     count is_patch
       (events (check_webflow_existence w (S fuel) xml_entries total_entries t))
     = 0%nat).
Proof.
  split.
  - intros webflow_items xml_entries su nc t.
    destruct (reconcile_accounts w webflow_items xml_entries su nc t)
      as (evs & t' & -> & _ & _ & _ & Hp). exact Hp.
  - intros fuel t total_entries xml_entries status_code items Hpage Hstatus.
    unfold check_webflow_existence, fetch_all_webflow_items.
    rewrite !bind_run, (fetch_pages_failed w _ _ _ _ _ _ Hpage Hstatus).
    unfold print. rewrite emit_then. unfold mret at 1, M_ret at 1.
    cbv beta iota zeta. rewrite bind_run.
    destruct (reconcile_accounts w ∅ xml_entries 0 0 (S t))
      as (evs & t' & -> & _ & _ & _ & Hp).
    unfold summary, print. rewrite emit_then. unfold emit, events.
    cbn [fst snd app]. unfold count in *. cbn [List.filter is_patch].
    rewrite List.filter_app, length_app. cbn [List.filter is_patch length].
    destruct (length (List.filter is_patch evs)) as [|n] eqn:Hn; [done|].
    destruct Hp as (e & _ & [it Hit]); [lia|]. by rewrite lookup_empty in Hit.
Qed.

(** What the theorem says in [outage_world]. *)
Lemma patch_needs_directory_witness :
  count is_patch
    (events (check_webflow_existence (U:=latin1) outage_world 1
               [sample_entry] 1 0%nat)) = 0%nat.
Proof.
  apply (proj2 (patch_needs_directory (U:=latin1) outage_world)
           0%nat 0%nat 1%nat [sample_entry] 503 []).
  - reflexivity.
  - discriminate.
Defined.

(** ** The fields of a payload *)

Lemma nodup_names (l : list str) : bool_decide (NoDup l) = true -> NoDup l.
Proof. apply bool_decide_eq_true_1. Qed.

Section PayloadFacts.
Context `{U : Unicode} (w : world).

#[local] Arguments dict_update : simpl never.
#[local] Arguments check_andre_fordeler : simpl never.

Lemma add_apr_other (result : option apr) (d : gmap str pyval) (k : str) :
  k ∉ cost_fields -> add_apr result d !! k = d !! k.
Proof.
  intros Hk. destruct result as [a|]; [|done]. cbn [add_apr].
  rewrite !lookup_insert_ne; [done| |].
  - intros <-. apply Hk. apply elem_of_cons. by left.
  - intros <-. apply Hk. apply elem_of_cons. right. apply elem_of_cons. by left.
Qed.

(** The fields of a built payload, layer by layer. *)
Lemma build_payload_fields (e : xml_entry) (t t1 : nat) (json : payload)
    (evs : list event) :
  build_payload w e t = (Some (Ok json), evs, t1) ->
  exists sist_oppdatert mapped bank_id,
    norwegian_date (yesterday w t) = Ok sist_oppdatert /\
    map_fields (xml_data e) field_mapping
      (<[u "sist-oppdatert" := VStr sist_oppdatert]>
         (<[u "leverandor-tekst" := VStr (orgnr e)]>
            (<[u "name" := VStr (title e)]> ∅))) = Ok mapped /\
    result (get_bank_id w (orgnr e) t) = Some (Ok bank_id) /\
    fieldData json =
      add_bank bank_id
        (add_apr (apr_of (xml_data e))
           (dict_update
              (check_andre_fordeler
                 (Some (default []
                    (xml_data e !! u "kredittkort_andre_fordeler_beskrivelse"))))
              mapped)).
Proof.
  rewrite build_payload_run.
  destruct (norwegian_date _) as [sist_oppdatert|]; [|discriminate].
  destruct (map_fields _ _ _) as [mapped|] eqn:Hmapped; [|discriminate].
  destruct (get_bank_id w (orgnr e) t) as [[[[bank_id|exc]|] evs'] t'];
    [|discriminate..].
  intros Hrun. injection Hrun as <- _ _.
  by exists sist_oppdatert, mapped, bank_id.
Qed.

Lemma dict_update_flag (k : str) (b : bool) (other : list (str * bool))
    (d : gmap str pyval) :
  NoDup (List.map fst other) -> (k, b) ∈ other ->
  dict_update other d !! k = Some (VBool b).
Proof.
  unfold dict_update. revert d.
  induction other as [|[k' b'] rest IH]; intros d Hnodup Hin.
  - by apply elem_of_nil in Hin.
  - cbn [List.map fst] in Hnodup. apply NoDup_cons in Hnodup as [Hk' Hnodup].
    cbn [foldl fst snd]. apply elem_of_cons in Hin as [[= -> ->]|Hin].
    + fold (dict_update rest (<[k':=VBool b']> d)).
      rewrite dict_update_other by done. apply lookup_insert_eq.
    + by apply IH.
Qed.

End PayloadFacts.

(** X20: a built payload holds each of the four flags, as the boolean
    [check_andre_fordeler] gives it for the entry's description; the create
    payload holds the same. *)
Theorem payload_flags `{U : Unicode} (w : world) (e : xml_entry) (t t1 : nat)
    (json : payload) (evs : list event) (k : str) (b : bool) :
  build_payload w e t = (Some (Ok json), evs, t1) ->
  (k, b) ∈ check_andre_fordeler
             (Some (default []
                (xml_data e !! u "kredittkort_andre_fordeler_beskrivelse"))) ->
  fieldData json !! k = Some (VBool b) /\
  fieldData (with_slug (numerical_id e) json) !! k = Some (VBool b).
Proof.
  intros Hbuild Hin.
  destruct (build_payload_fields w e t t1 json evs Hbuild)
    as (sist & mapped & bank_id & _ & _ & _ & Hfields).
  assert (Hk : k ∈ flag_names).
  { rewrite <- (check_andre_fordeler_keys
                 (Some (default []
                    (xml_data e !! u "kredittkort_andre_fordeler_beskrivelse")))).
    apply list_elem_of_In, (in_map fst) in Hin. by apply list_elem_of_In. }
  assert (Hother : k <> u "bank" /\ (k ∉ cost_fields) /\ k <> u "slug").
  { unfold flag_names in Hk. repeat (apply elem_of_cons in Hk as [->|Hk]);
      [..|by apply elem_of_nil in Hk];
      (split; [apply distinct_names; vm_compute; reflexivity|]);
      (split; [apply not_in_whitelist|apply distinct_names]);
      vm_compute; reflexivity. }
  destruct Hother as (Hbank & Hcost & Hslug).
  assert (Hjson : fieldData json !! k = Some (VBool b)).
  { rewrite Hfields, add_bank_other, add_apr_other by done.
    apply dict_update_flag; [|done].
    rewrite check_andre_fordeler_keys. apply nodup_names.
    vm_compute. reflexivity. }
  split; [done|]. cbn [with_slug fieldData]. by rewrite lookup_insert_ne.
Qed.

Section MappingFacts.
Context `{U : Unicode}.

(** What the CMS names of the table are not. *)
Lemma mapping_values_apart (k v : str) :
  (k, v) ∈ field_mapping ->
  (v ∉ flag_names) /\ v <> u "bank" /\ v <> u "name" /\ v <> u "sist-oppdatert"
  /\ v <> u "slug".
Proof.
  intros Hin.
  assert (Hv : v ∈ List.map snd field_mapping).
  { apply list_elem_of_In, (in_map snd) in Hin. by apply list_elem_of_In. }
  assert (Hall : forallb (fun v =>
                   negb (bool_decide (v ∈ flag_names))
                   && negb (bool_decide (v = u "bank"))
                   && negb (bool_decide (v = u "name"))
                   && negb (bool_decide (v = u "sist-oppdatert"))
                   && negb (bool_decide (v = u "slug")))
                 (List.map snd field_mapping) = true)
    by (vm_compute; reflexivity).
  rewrite forallb_forall in Hall.
  specialize (Hall v ltac:(by apply list_elem_of_In)).
  repeat (apply andb_prop in Hall as [Hall ?]).
  repeat match goal with
         | H : negb (bool_decide _) = true |- _ =>
             apply negb_true_iff, bool_decide_eq_false_1 in H
         end.
  by repeat split.
Qed.

(** The table names every CMS field once. *)
Lemma field_mapping_values_distinct : NoDup (List.map snd field_mapping).
Proof. apply nodup_names. vm_compute. reflexivity. Qed.

(** The pair of the table that writes a CMS field decides it alone. *)
Lemma map_fields_pair (xml_data : gmap str str) (mapping : list (str * str))
    (k v : str) (fields fields' : gmap str pyval) :
  NoDup (List.map snd mapping) -> (k, v) ∈ mapping ->
  map_fields xml_data mapping fields = Ok fields' ->
  exists fields0 fields1,
    map_field xml_data fields0 (k, v) = Ok fields1 /\
    fields0 !! v = fields !! v /\ fields' !! v = fields1 !! v.
Proof.
  intros Hnodup Hin.
  apply list_elem_of_split in Hin as (l1 & l2 & ->).
  rewrite List.map_app in Hnodup. cbn [List.map snd] in Hnodup.
  apply NoDup_app in Hnodup as (_ & Hl1 & [Hl2 _]%NoDup_cons).
  assert (Hv1 : v ∉ List.map snd l1).
  { intros Hv. apply (Hl1 v Hv). apply elem_of_cons. by left. }
  rewrite map_fields_app.
  destruct (map_fields xml_data l1 fields) as [fields0|exc] eqn:H1; [|discriminate].
  unfold mbind at 1, res_bind at 1. cbn [map_fields].
  destruct (map_field xml_data fields0 (k, v)) as [fields1|exc] eqn:Hstep;
    [|discriminate].
  unfold mbind at 1, res_bind at 1. intros H2.
  exists fields0, fields1. split; [done|]. split.
  - by apply (map_fields_other _ _ _ Hv1 _ _ H1).
  - by apply (map_fields_other _ _ _ Hl2 _ _ H2).
Qed.

End MappingFacts.

(** X21: in a built payload, [name] is the entry's title, [sist-oppdatert]
    is the date line, and [leverandor-tekst] is the feed's
    [leverandor_tekst] attribute when the entry has one and the provider
    reference otherwise. *)
Theorem payload_base_fields `{U : Unicode} (w : world) (e : xml_entry)
    (t t1 : nat) (json : payload) (evs : list event) :
  build_payload w e t = (Some (Ok json), evs, t1) ->
  fieldData json !! u "name" = Some (VStr (title e)) /\
  (exists sist_oppdatert,
     norwegian_date (yesterday w t) = Ok sist_oppdatert /\
     fieldData json !! u "sist-oppdatert" = Some (VStr sist_oppdatert)) /\
  fieldData json !! u "leverandor-tekst" =
    Some (VStr (default (orgnr e) (xml_data e !! u "leverandor_tekst"))).
Proof.
  intros Hbuild.
  destruct (build_payload_fields w e t t1 json evs Hbuild)
    as (sist & mapped & bank_id & Hdate & Hmapped & _ & ->).
  assert (Hlayers : forall k,
            k <> u "bank" -> k ∉ cost_fields -> k ∉ flag_names ->
            add_bank bank_id
              (add_apr (apr_of (xml_data e))
                 (dict_update
                    (check_andre_fordeler
                       (Some (default []
                          (xml_data e !! u "kredittkort_andre_fordeler_beskrivelse"))))
                    mapped)) !! k = mapped !! k).
  { intros k Hbank Hcost Hflag.
    rewrite add_bank_other, add_apr_other, dict_update_other; try done.
    all: by rewrite check_andre_fordeler_keys. }
  rewrite !Hlayers;
    try (first [apply distinct_names|apply not_in_whitelist]; vm_compute; reflexivity).
  split; [|split].
  - rewrite (map_fields_other (xml_data e) field_mapping (u "name")
               ltac:(apply not_in_whitelist; vm_compute; reflexivity) _ _ Hmapped).
    rewrite !lookup_insert_ne
      by (apply distinct_names; vm_compute; reflexivity).
    apply lookup_insert_eq.
  - exists sist. split; [done|].
    rewrite (map_fields_other (xml_data e) field_mapping (u "sist-oppdatert")
               ltac:(apply not_in_whitelist; vm_compute; reflexivity) _ _ Hmapped).
    apply lookup_insert_eq.
  - destruct (map_fields_pair (xml_data e) field_mapping
                (u "leverandor_tekst") (u "leverandor-tekst")
                _ _ field_mapping_values_distinct
                ltac:(apply in_whitelist; vm_compute; reflexivity) Hmapped)
      as (fields0 & fields1 & Hstep & H0 & ->).
    rewrite lookup_insert_ne in H0
      by (apply distinct_names; vm_compute; reflexivity).
    rewrite lookup_insert_eq in H0.
    rewrite (map_field_copied (xml_data e) fields0 fields1
               (u "leverandor_tekst") (u "leverandor-tekst")
               ltac:(split; [apply not_in_whitelist|apply distinct_names];
                     vm_compute; reflexivity) Hstep).
    by destruct (xml_data e !! u "leverandor_tekst").
Qed.

(** X22: for a pair of the mapping table other than the provider text and
    the two cost fields, the CMS field of a built payload is absent when the
    entry lacks the attribute, and otherwise holds the attribute's text:
    sanitized for the two descriptions, formatted for the credit limit, as it
    is for every other field. *)
Theorem payload_mapped_fields `{U : Unicode} (w : world) (e : xml_entry)
    (t t1 : nat) (json : payload) (evs : list event) (k v : str) :
  build_payload w e t = (Some (Ok json), evs, t1) ->
  (k, v) ∈ field_mapping ->
  v ∉ cost_fields ->
  v <> u "leverandor-tekst" ->
  match xml_data e !! k with
  | None => fieldData json !! v = None
  | Some value =>
      if bool_decide (v ∈ [u "kredittkort-reiseforsikring-beskrivelse-3";
                           u "kredittkort-andre-fordeler-beskrivelse-2"])
      then fieldData json !! v = Some (VStr (sanitize_text value))
      else if bool_decide (v = u "kredittkort-maks-ramme-2")
      then exists formatted,
             format_norwegian_number value = Ok formatted /\
             fieldData json !! v = Some (VStr formatted)
      else fieldData json !! v = Some (VStr value)
  end.
Proof.
  intros Hbuild Hin Hcost Hprovider.
  destruct (build_payload_fields w e t t1 json evs Hbuild)
    as (sist & mapped & bank_id & Hdate & Hmapped & _ & ->).
  destruct (mapping_values_apart k v Hin) as (Hflag & Hbank & Hname & Hdate' & _).
  rewrite add_bank_other, add_apr_other, dict_update_other;
    [|by rewrite check_andre_fordeler_keys|done..].
  destruct (map_fields_pair _ _ k v _ _ field_mapping_values_distinct Hin Hmapped)
    as (fields0 & fields1 & Hstep & H0 & ->).
  rewrite !lookup_insert_ne, lookup_empty in H0 by done.
  unfold map_field in Hstep.
  destruct (xml_data e !! k) as [value|]; [|by injection Hstep as <-].
  destruct (bool_decide (v ∈ _)).
  - injection Hstep as <-. apply lookup_insert_eq.
  - destruct (bool_decide (v = _)).
    + destruct (format_norwegian_number value) as [formatted|exc];
        [|discriminate].
      injection Hstep as <-. exists formatted. split; [done|].
      apply lookup_insert_eq.
    + injection Hstep as <-. apply lookup_insert_eq.
Qed.

(** X23: a built payload holds [bank] exactly when [get_bank_id] has
    returned a non-empty id, and then it is that id. *)
Theorem payload_bank_reference `{U : Unicode} (w : world) (e : xml_entry)
    (t t1 : nat) (json : payload) (evs : list event) :
  build_payload w e t = (Some (Ok json), evs, t1) ->
  exists bank_id,
    result (get_bank_id w (orgnr e) t) = Some (Ok bank_id) /\
    fieldData json !! u "bank" =
      match bank_id with
      | Some [] | None => None
      | Some id => Some (VStr id)
      end.
Proof.
  intros Hbuild.
  destruct (build_payload_fields w e t t1 json evs Hbuild)
    as (sist & mapped & bank_id & Hdate & Hmapped & Hbank & ->).
  exists bank_id. split; [done|].
  assert (Hnone :
    add_apr (apr_of (xml_data e))
      (dict_update
         (check_andre_fordeler
            (Some (default []
               (xml_data e !! u "kredittkort_andre_fordeler_beskrivelse"))))
         mapped) !! u "bank" = None).
  { rewrite add_apr_other, dict_update_other;
      try (first [apply distinct_names|apply not_in_whitelist];
           vm_compute; reflexivity).
    rewrite (map_fields_other (xml_data e) field_mapping (u "bank")
               ltac:(apply not_in_whitelist; vm_compute; reflexivity)
               _ _ Hmapped).
    rewrite !lookup_insert_ne
      by (apply distinct_names; vm_compute; reflexivity).
    apply lookup_empty. }
  destruct bank_id as [[|c id]|]; cbn [add_bank]; [done| |done].
  apply lookup_insert_eq.
Qed.

(** The payload of [sample_entry] in [bank_retry_world], where the bank is
    found on the second page. *)
Lemma sample_payload :
  exists json evs t1,
    build_payload (U:=latin1) bank_retry_world sample_entry 0%nat =
      (Some (Ok json), evs, t1).
Proof. eexists _, _, _. vm_compute. reflexivity. Defined.

(** What the theorems say of that payload. *)
Lemma payload_flags_witness :
  exists json evs t1,
    build_payload (U:=latin1) bank_retry_world sample_entry 0%nat =
      (Some (Ok json), evs, t1) /\
    fieldData json !! u "cashback" = Some (VBool false).
Proof.
  destruct sample_payload as (json & evs & t1 & Hbuild).
  exists json, evs, t1. split; [exact Hbuild|].
  apply (payload_flags (U:=latin1) bank_retry_world sample_entry 0%nat t1 json evs
           (u "cashback") false Hbuild).
  apply in_whitelist. vm_compute. reflexivity.
Defined.

Lemma payload_base_fields_witness :
  exists json evs t1,
    build_payload (U:=latin1) bank_retry_world sample_entry 0%nat =
      (Some (Ok json), evs, t1) /\
    fieldData json !! u "name" = Some (VStr (u "Gullkort")) /\
    fieldData json !! u "leverandor-tekst" = Some (VStr (u "Bank")).
Proof.
  destruct sample_payload as (json & evs & t1 & Hbuild).
  exists json, evs, t1. split; [exact Hbuild|].
  destruct (payload_base_fields (U:=latin1) bank_retry_world sample_entry
              0%nat t1 json evs Hbuild) as (Hname & _ & Hprovider).
  split; [exact Hname|exact Hprovider].
Defined.

Lemma payload_mapped_fields_witness :
  exists json evs t1,
    build_payload (U:=latin1) bank_retry_world sample_entry 0%nat =
      (Some (Ok json), evs, t1) /\
    fieldData json !! u "kredittkort-termingebyr-2" = Some (VStr (u "35")).
Proof.
  destruct sample_payload as (json & evs & t1 & Hbuild).
  exists json, evs, t1. split; [exact Hbuild|].
  exact (payload_mapped_fields (U:=latin1) bank_retry_world sample_entry
           0%nat t1 json evs (u "kredittkort_termingebyr")
           (u "kredittkort-termingebyr-2") Hbuild
           ltac:(apply in_whitelist; vm_compute; reflexivity)
           ltac:(apply not_in_whitelist; vm_compute; reflexivity)
           ltac:(apply distinct_names; vm_compute; reflexivity)).
Defined.

Lemma payload_bank_reference_witness :
  exists json evs t1,
    build_payload (U:=latin1) bank_retry_world sample_entry 0%nat =
      (Some (Ok json), evs, t1) /\
    fieldData json !! u "bank" = Some (VStr (u "b1")).
Proof.
  destruct sample_payload as (json & evs & t1 & Hbuild).
  exists json, evs, t1. split; [exact Hbuild|].
  destruct (payload_bank_reference (U:=latin1) bank_retry_world sample_entry
              0%nat t1 json evs Hbuild) as (bank_id & Hbank & Hfield).
  vm_compute in Hbank. injection Hbank as <-. exact Hfield.
Defined.

(** ** A whole run *)

Section RunFacts.
Context `{U : Unicode} (w : world).

Lemma parse_entries_each (entries : list element) (es : list xml_entry) :
  parse_entries entries = Ok es <->
  Forall2 (fun entry e => parse_entry entry = Ok e) entries es.
Proof.
  revert es. induction entries as [|entry rest IH]; intros es; cbn [parse_entries].
  - split; [intros [= <-]; constructor|]. by intros ->%Forall2_nil_inv_l.
  - destruct (parse_entry entry) as [e|exc] eqn:He; cbn [mbind res_bind].
    + destruct (parse_entries rest) as [es'|exc] eqn:Hes; cbn [mbind res_bind].
      * unfold mret, res_ret. split.
        -- intros [= <-]. constructor; [done|]. by apply IH.
        -- intros (e' & es'' & He' & Hrest & ->)%Forall2_cons_inv_l.
           apply IH in Hrest. congruence.
      * split; [done|].
        intros (e' & es'' & He' & Hrest & ->)%Forall2_cons_inv_l.
        apply IH in Hrest. done.
    + split; [done|].
      intros (e' & es'' & He' & Hrest & ->)%Forall2_cons_inv_l. congruence.
Qed.

Lemma main_run (fuel t : nat) (root : element) (es : list xml_entry) :
  feed w t = Responds 200 root ->
  parse_entries (findall (atom_ns, u "entry") root) = Ok es ->
  main w fuel t =
  let '(r, evs, t') :=
    check_webflow_existence w fuel es
      (length (findall (atom_ns, u "entry") root)) (S t) in
  (r, Call GetFeed
        :: Out (TotalEntries (length (findall (atom_ns, u "entry") root)))
        :: evs, t').
Proof.
  intros Hfeed Hparse. unfold main, parse_xml_and_process.
  rewrite bind_run, http_run, Hfeed. cbv beta iota zeta.
  change (200 =? 200) with true. cbv beta iota zeta.
  unfold print. rewrite emit_then, bind_run. unfold lift. rewrite Hparse.
  cbv beta iota zeta.
  by destruct (check_webflow_existence w fuel es _ (S t)) as [[r evs] t'].
Qed.

End RunFacts.

(** X24: a run ends before any entry is processed when the feed request
    raises (the exception leaves [main]), when the feed answers another
    status than 200 (the status is logged and [main] returns), and when the
    first directory request raises (the exception leaves [main]). *)
Theorem run_stops_early `{U : Unicode} (w : world) (fuel t : nat) :
  (forall e : exn,
     feed w t = Fails e ->
     main w fuel t = (Some (Raise e), [Call GetFeed], S t)) /\
  (forall (status_code : Z) (root : element),
     feed w t = Responds status_code root -> status_code <> 200 ->
     main w fuel t =
     (Some (Ok tt), [Call GetFeed; Out (FeedFailed status_code)], S t)) /\
  (forall (root : element) (es : list xml_entry) (e : exn),
     feed w t = Responds 200 root ->
     parse_entries (findall (atom_ns, u "entry") root) = Ok es ->
     offers_page w (S t) 0 = Fails e ->
     main w (S fuel) t =
     (Some (Raise e),
      [Call GetFeed;
       Out (TotalEntries (length (findall (atom_ns, u "entry") root)));
       Call (GetItems 100 0)],
      S (S t))).
Proof.
  split; [|split].
  - intros e Hfeed. unfold main, parse_xml_and_process.
    by rewrite bind_run, http_run, Hfeed.
  - intros status_code root Hfeed Hstatus. unfold main, parse_xml_and_process.
    rewrite bind_run, http_run, Hfeed. cbv beta iota zeta.
    apply Z.eqb_neq in Hstatus. by rewrite Hstatus.
  - intros root es e Hfeed Hparse Hpage.
    rewrite (main_run w _ _ _ _ Hfeed Hparse).
    unfold check_webflow_existence, fetch_all_webflow_items.
    rewrite !bind_run. cbn [fetch_pages].
    by rewrite bind_run, http_run, Hpage.
Qed.

(** X25: when the feed answers 200, all its entries parse and the directory
    is fetched, [main] returns; it logs the number of entries, leaves one
    closing line per entry, in feed order, and prints the summary over that
    same number. *)
Theorem main_reports_every_entry `{U : Unicode} (w : world) (fuel t t0 : nat)
    (root : element) (es : list xml_entry) (webflow_items : index)
    (evs0 : list event) :
  feed w t = Responds 200 root ->
  Forall2 (fun entry e => parse_entry entry = Ok e)
          (findall (atom_ns, u "entry") root) es ->
  fetch_all_webflow_items w fuel (S t) = (Some (Ok webflow_items), evs0, t0) ->
  exists counters evs t',
    main w fuel t =
    (Some (Ok tt),
     Call GetFeed :: Out (TotalEntries (length es))
       :: evs0 ++ evs ++ [Out (Summary (fst counters) (length es));
                          Out (Created (snd counters))],
     t') /\
    omap outcome_of evs = List.map numerical_id es.
Proof.
  intros Hfeed Hes Hfetch.
  pose proof (Forall2_length _ _ _ Hes) as Hlen.
  apply parse_entries_each in Hes.
  destruct (reconcile_outcomes w webflow_items es 0 0 t0)
    as (counters & evs & t' & Hloop & Hlines).
  destruct (check_webflow_existence_run w fuel es
              (length (findall (atom_ns, u "entry") root)) (S t) t0
              webflow_items evs0 Hfetch)
    as (counters' & evs' & t'' & Hloop' & Hrun).
  rewrite Hloop in Hloop'. injection Hloop' as <- <- <-.
  exists counters, evs, t'. split; [|done].
  rewrite (main_run w _ _ _ _ Hfeed Hes), Hrun. by rewrite Hlen.
Qed.

(** What the theorem says in [feed_down_world]. *)
Lemma run_stops_early_witness :
  main (U:=latin1) feed_down_world 1 0%nat =
  (Some (Ok tt), [Call GetFeed; Out (FeedFailed 503)], 1%nat).
Proof.
  apply (proj1 (proj2 (run_stops_early (U:=latin1) feed_down_world 1 0))
           503 (Element (atom_ns, u "feed") None [])).
  - reflexivity.
  - discriminate.
Defined.

(** What the theorem says in [one_entry_world]. *)
Lemma main_reports_every_entry_witness :
  exists counters evs t',
    main (U:=latin1) one_entry_world 1 0%nat =
    (Some (Ok tt),
     Call GetFeed :: Out (TotalEntries 1)
       :: [Call (GetItems 100 0); Out (Fetched 0)]
       ++ evs ++ [Out (Summary (fst counters) 1); Out (Created (snd counters))],
     t') /\
    omap outcome_of evs = [u "101"].
Proof.
  assert (exists e, parse_entry entry_complete = Ok e /\ numerical_id e = u "101")
    as (e & He & Hid) by (eexists; split; vm_compute; reflexivity).
  destruct (main_reports_every_entry (U:=latin1) one_entry_world 1 0 2
              (Element (atom_ns, u "feed") None [entry_complete]) [e] ∅
              [Call (GetItems 100 0); Out (Fetched 0)])
    as (counters & evs & t' & Hrun & Hlines).
  - reflexivity.
  - change (findall (atom_ns, u "entry")
              (Element (atom_ns, u "feed") None [entry_complete]))
      with [entry_complete].
    by repeat constructor.
  - reflexivity.
  - exists counters, evs, t'. split; [exact Hrun|].
    rewrite Hlines. cbn [List.map]. by rewrite Hid.
Defined.

(** ** Single items *)

(** X26: [update_specific_item] starts by reading the item; a write call it
    makes carries the payload built from the item it has read with status
    200 and from the date line; when the read answers another status it
    returns without writing. *)
Theorem update_specific_item_after_fetch (w : Single.world) (slug_id : str)
    (t : nat) :
  let '(r, evs, t') := Single.update_specific_item w slug_id t in
  head evs = Some (Single.Call (Single.GetItem slug_id)) /\
  (forall json, Single.Call (Single.PatchItemLive slug_id json) ∈ evs ->
     exists item sist_oppdatert,
       Single.get_item w t slug_id = Responds 200 item /\
       norwegian_date (Single.yesterday w (S t)) = Ok sist_oppdatert /\
       json = Single.update_payload_of item sist_oppdatert) /\
  (forall status_code item,
     Single.get_item w t slug_id = Responds status_code item ->
     status_code <> 200 ->
     r = Ok tt /\ omap Single.sent evs = []).
Proof.
  unfold Single.update_specific_item.
  destruct (Single.get_item w t slug_id) as [e|status_code item] eqn:Hget.
  - split; [done|]. split; [|done]. intros json Hin.
    repeat (apply elem_of_cons in Hin as [Hin|Hin]; [discriminate|]).
    by apply elem_of_nil in Hin.
  - destruct (status_code =? 200) eqn:Hstatus; cbn [negb].
    + apply Z.eqb_eq in Hstatus as ->.
      destruct (norwegian_date _) as [sist|e] eqn:Hdate.
      * destruct (Single.patch_item w (S t) slug_id _) as [e|status_code []];
          cbn [app]; (split; [done|]); (split; [|by intros ? ? [= <- <-]]);
          intros json Hin; exists item, sist; (split; [done|]); (split; [done|]);
          apply elem_of_cons in Hin as [Hin|Hin]; try discriminate;
          apply elem_of_cons in Hin as [Hin|Hin]; try (by injection Hin);
          repeat (apply elem_of_cons in Hin as [Hin|Hin]; [discriminate|]);
          by apply elem_of_nil in Hin.
      * split; [done|]. split; [|by intros ? ? [= <- <-]].
        intros json Hin.
        repeat (apply elem_of_cons in Hin as [Hin|Hin]; [discriminate|]).
        by apply elem_of_nil in Hin.
    + split; [done|]. split.
      * intros json Hin.
        repeat (apply elem_of_cons in Hin as [Hin|Hin]; [discriminate|]).
        by apply elem_of_nil in Hin.
      * by intros ? ? [= <- <-] _.
Qed.

(** X27: the payload of [update_specific_item] is published, and holds
    exactly [name], [f-leverandor-tekst] and [sist-oppdatert];
    [f-leverandor-tekst] is no field the reconciler ever writes, so this
    payload does not pass the reconciler's whitelist. *)
Theorem update_specific_item_payload (item : item) (sist_oppdatert : str) :
  let json := Single.update_payload_of item sist_oppdatert in
  isArchived json = false /\ isDraft json = false /\
  (forall k, is_Some (fieldData json !! k) <->
             k ∈ [u "name"; u "f-leverandor-tekst"; u "sist-oppdatert"]) /\
  fieldData json !! u "name" =
    Some (default (VStr []) (item_fieldData item !! u "name")) /\
  fieldData json !! u "sist-oppdatert" = Some (VStr sist_oppdatert) /\
  (u "f-leverandor-tekst" ∉ update_whitelist) /\
  ~ published update_whitelist json.
Proof.
  assert (Hnot : u "f-leverandor-tekst" ∉ update_whitelist)
    by (apply not_in_whitelist; vm_compute; reflexivity).
  cbv zeta. split; [done|]. split; [done|]. cbn [Single.update_payload_of fieldData].
  split; [|split; [|split; [|split; [done|]]]].
  - intros k. rewrite !lookup_insert_is_Some, lookup_empty, !elem_of_cons,
      elem_of_nil. split.
    + intros [<-|[_ [<-|[_ [<-|[_ []%is_Some_None]]]]]]; tauto.
    + intros [->|[->|[->|[]]]]; [| |by left].
      * right. split; [apply distinct_names; vm_compute; reflexivity|].
        right. split; [apply distinct_names; vm_compute; reflexivity|]. by left.
      * right. split; [apply distinct_names; vm_compute; reflexivity|]. by left.
  - rewrite !lookup_insert_ne by (apply distinct_names; vm_compute; reflexivity).
    apply lookup_insert_eq.
  - apply lookup_insert_eq.
  - intros (_ & _ & Hkeys). apply Hnot, Hkeys.
    cbn [Single.update_payload_of fieldData].
    rewrite lookup_insert_ne by (apply distinct_names; vm_compute; reflexivity).
    rewrite lookup_insert_eq. eauto.
Qed.

(** What the theorem says in [single_world]. *)
Lemma update_specific_item_after_fetch_witness :
  exists item sist_oppdatert,
    Single.get_item single_world 0 (u "i1") = Responds 200 item /\
    norwegian_date (Single.yesterday single_world 1) = Ok sist_oppdatert /\
    Single.update_payload_of sample_item (u "Oppdatert 2. november 2026 - 23:59")
    = Single.update_payload_of item sist_oppdatert.
Proof.
  pose proof (update_specific_item_after_fetch single_world (u "i1") 0) as Hrun.
  assert (Hevs : Single.update_specific_item single_world (u "i1") 0 =
            (Ok tt,
             [Single.Call (Single.GetItem (u "i1"));
              Single.Call (Single.PatchItemLive (u "i1")
                (Single.update_payload_of sample_item
                   (u "Oppdatert 2. november 2026 - 23:59")));
              Single.Log (Single.ItemUpdated (u "i1"))], 2%nat))
    by (vm_compute; reflexivity).
  rewrite Hevs in Hrun. destruct Hrun as (_ & Hsent & _).
  apply Hsent. apply elem_of_cons. right. apply elem_of_cons. by left.
Defined.



(** ** Integers through [float] *)

(** *** Integers as floats *)

Lemma digits2_pos_log2 (m : positive) :
  Zpos (digits2_pos m) = Z.log2 (Zpos m) + 1.
Proof.
  induction m as [m IH|m IH|]; cbn [digits2_pos]; [| |done].
  - rewrite Pos2Z.inj_succ, IH. destruct m; cbn [Z.log2 Pos.size]; lia.
  - rewrite Pos2Z.inj_succ, IH. destruct m; cbn [Z.log2 Pos.size]; lia.
Qed.

Lemma iter_xO_digits (m k : positive) :
  digits2_pos (Pos.iter xO m k) = (digits2_pos m + k)%positive.
Proof.
  induction k as [|k IH] using Pos.peano_ind.
  - cbn. lia.
  - rewrite Pos.iter_succ. cbn [digits2_pos]. rewrite IH. lia.
Qed.

Lemma iter_xO_value (m k : positive) :
  Zpos (Pos.iter xO m k) = Zpos m * 2 ^ Zpos k.
Proof.
  induction k as [|k IH] using Pos.peano_ind.
  - cbn. lia.
  - rewrite Pos.iter_succ, Pos2Z.inj_xO, IH, Pos2Z.inj_succ, Z.pow_succ_r; lia.
Qed.

(** A mantissa that fills the precision is not rounded. *)
Lemma binary_round_aux_canonical (s : bool) (mz : positive) (ez : Z) :
  fexp prec emax (Zpos (digits2_pos mz) + ez) = ez -> ez <= emax - prec ->
  binary_round_aux prec emax s (Zpos mz) ez loc_Exact = S754_finite s mz ez.
Proof.
  intros Hfexp Hez. unfold binary_round_aux, shr_fexp.
  cbn [Zdigits2 shr_record_of_loc]. rewrite Hfexp, Z.sub_diag.
  cbn [shr shr_m loc_of_shr_record round_nearest_even Zdigits2 shr_record_of_loc].
  rewrite Hfexp, Z.sub_diag. cbn [shr shr_m].
  apply Z.leb_le in Hez. by rewrite Hez.
Qed.

(** An integer below 2^53 is a float, and [int] gives it back. *)
Lemma int_of_binary_round (s : bool) (m : positive) :
  Zpos m < 2 ^ 53 ->
  int_of_float (binary_round prec emax s m 0) = Ok (cond_Zopp s (Zpos m)).
Proof.
  intros Hm.
  assert (Hd : Zpos (digits2_pos m) <= 53).
  { rewrite digits2_pos_log2.
    assert (Z.log2 (Zpos m) < 53) by (apply Z.log2_lt_pow2; lia). lia. }
  unfold binary_round, shl_align.
  assert (Hfexp : fexp prec emax (Zpos (digits2_pos m) + 0)
                  = Zpos (digits2_pos m) - 53).
  { unfold fexp, emin, prec, emax. lia. }
  rewrite Hfexp, Z.sub_0_r.
  destruct (Zpos (digits2_pos m) - 53) as [|k|k] eqn:Hk; [|lia|].
  - rewrite binary_round_aux_canonical.
    + cbn [int_of_float]. by rewrite Z.shiftl_0_r.
    + rewrite Hfexp. lia.
    + unfold emax, prec. lia.
  - rewrite binary_round_aux_canonical.
    + cbn [int_of_float]. rewrite iter_xO_value.
      rewrite Z.shiftl_div_pow2 by lia.
      change (- Zneg k) with (Zpos k).
      rewrite Z.div_mul by (apply Z.pow_nonzero; lia). done.
    + rewrite iter_xO_digits, Pos2Z.inj_add.
      unfold fexp, emin, prec, emax. lia.
    + unfold emax, prec. lia.
Qed.

(** *** The digits of an integer *)

Lemma is_digit_digit (n : N) : is_digit (48 + n mod 10) = true.
Proof.
  unfold is_digit. pose proof (N.mod_upper_bound n 10 ltac:(done)) as Hlt.
  revert Hlt. generalize (n mod 10)%N. intros d Hlt.
  apply andb_true_intro. split; apply N.leb_le; lia.
Qed.

Lemma log2_div10 (n : N) : (10 <= n -> N.log2 (n / 10) < N.log2 n)%N.
Proof.
  intros Hn.
  assert (Hq : (0 < n / 10)%N) by (apply N.div_str_pos; lia).
  assert (H2 : (2 * (n / 10) <= n)%N).
  { pose proof (N.Div0.mul_div_le n 10). lia. }
  apply N.log2_le_mono in H2. rewrite N.log2_double in H2 by done. lia.
Qed.

(** The digits [digits_fuel] puts before [acc] are read back by
    [take_digits] as the number they were made from. *)
Lemma digits_fuel_read (fuel : nat) :
  forall (n : N) (acc : str),
  (N.to_nat (N.log2 n) < fuel)%nat ->
  exists ds,
    digits_fuel fuel n acc = ds ++ acc /\ ds <> [] /\
    Forall (fun c => is_digit c = true) ds /\
    forall (a : N) (rest : str),
      take_digits a (ds ++ rest) =
      let '(k, v, r) := take_digits (a * 10 ^ N.of_nat (length ds) + n)%N rest in
      ((length ds + k)%nat, v, r).
Proof.
  induction fuel as [|fuel IH]; intros n acc Hfuel; [lia|].
  cbn [digits_fuel]. destruct (n <? 10)%N eqn:Hn.
  - apply N.ltb_lt in Hn. exists [(48 + n mod 10)%N].
    split; [done|]. split; [done|]. split; [repeat constructor; apply is_digit_digit|].
    intros a rest. cbn [app take_digits length]. rewrite is_digit_digit.
    rewrite N.mod_small by done.
    replace (10 * a + (48 + n - 48))%N with (a * 10 ^ N.of_nat 1 + n)%N
      by (change (10 ^ N.of_nat 1)%N with 10%N; lia).
    by destruct (take_digits _ rest) as [[k v] r].
  - apply N.ltb_ge in Hn.
    destruct (IH (n / 10)%N ((48 + n mod 10)%N :: acc)) as (ds & -> & Hne & Hds & Hread).
    { pose proof (log2_div10 n Hn). lia. }
    exists (ds ++ [(48 + n mod 10)%N]). split; [by rewrite <- app_assoc|].
    split; [by destruct ds|]. split.
    { apply Forall_app. split; [done|]. repeat constructor. apply is_digit_digit. }
    intros a rest. rewrite <- app_assoc. cbn [app]. rewrite Hread.
    cbn [take_digits]. rewrite is_digit_digit, length_app. cbn [length].
    replace (10 * (a * 10 ^ N.of_nat (length ds) + n / 10)
             + (48 + n mod 10 - 48))%N
      with (a * 10 ^ N.of_nat (length ds + 1) + n)%N.
    2: { rewrite Nat2N.inj_add, N.pow_add_r. change (10 ^ N.of_nat 1)%N with 10%N.
         pose proof (N.div_mod n 10 ltac:(done)) as Hdiv.
         revert Hdiv. generalize (n / 10)%N (n mod 10)%N (10 ^ N.of_nat (length ds))%N.
         intros q r p Hdiv. nia. }
    destruct (take_digits _ rest) as [[k v] r].
    f_equal. f_equal. lia.
Qed.

Lemma digits_read (n : N) :
  digits n <> [] /\
  Forall (fun c => is_digit c = true) (digits n) /\
  take_digits 0 (digits n) = (length (digits n), n, []).
Proof.
  unfold digits.
  destruct (digits_fuel_read (S (N.to_nat (N.log2 n))) n [] ltac:(lia))
    as (ds & -> & Hne & Hds & Hread).
  rewrite app_nil_r. split; [done|]. split; [done|].
  rewrite <- (app_nil_r ds) at 1. rewrite Hread. cbn [take_digits].
  by rewrite Nat.add_0_r.
Qed.

(** *** Parsing the digits *)

Section ParseDigits.
Context `{U : Unicode}.

Lemma is_digit_bounds (c : N) : is_digit c = true -> (48 <= c <= 57)%N.
Proof.
  unfold is_digit. intros [?%N.leb_le ?%N.leb_le]%andb_prop. lia.
Qed.

Lemma to_ascii_plain (s : str) :
  Forall (fun c => (c < 127)%N) s -> to_ascii s = Some s.
Proof.
  induction 1 as [|c s Hc _ IH]; [done|]. cbn [to_ascii].
  apply N.ltb_lt in Hc. by rewrite Hc, IH.
Qed.

Lemma lstrip_ascii_id (s : str) :
  (forall c, head s = Some c -> is_ascii_space c = false) -> lstrip_ascii s = s.
Proof.
  destruct s as [|c s]; [done|]. intros Hhead. cbn [lstrip_ascii].
  by rewrite (Hhead c eq_refl).
Qed.

Lemma strip_ascii_id (s : str) :
  Forall (fun c => is_ascii_space c = false) s -> strip_ascii s = s.
Proof.
  intros Hs. unfold strip_ascii.
  assert (Hhead : forall l : str,
            Forall (fun c => is_ascii_space c = false) l ->
            forall c, head l = Some c -> is_ascii_space c = false).
  { intros [|x l] Hl c; [done|]. intros [= <-]. by inversion Hl. }
  rewrite (lstrip_ascii_id s (Hhead s Hs)).
  rewrite lstrip_ascii_id, rev_involutive; [done|].
  apply Hhead. apply Forall_forall. intros c Hc%list_elem_of_In%in_rev.
  rewrite Forall_forall in Hs. by apply Hs, list_elem_of_In.
Qed.

Lemma drop_underscores_digits (ds : str) :
  Forall (fun c => is_digit c = true) ds ->
  forall prev, prev <> 95%N -> drop_underscores prev ds = Some ds.
Proof.
  induction 1 as [|c ds Hc _ IH]; intros prev Hprev; cbn [drop_underscores].
  - apply N.eqb_neq in Hprev. by rewrite Hprev.
  - apply is_digit_bounds in Hc as Hb.
    assert ((c =? 95)%N = false) as -> by (apply N.eqb_neq; lia).
    rewrite Hc. cbn [negb]. rewrite andb_false_r.
    rewrite IH by lia. done.
Qed.

End ParseDigits.

Section ParseIntegers.
Context `{U : Unicode}.

Lemma digit_is_plain (c : N) :
  is_digit c = true ->
  (c < 127)%N /\ is_ascii_space c = false /\ ascii_lower c = c /\
  take_sign [c] = (false, [c]) /\ c <> 105%N /\ c <> 110%N.
Proof.
  intros Hc%is_digit_bounds.
  assert (Hcases : c ∈ [48; 49; 50; 51; 52; 53; 54; 55; 56; 57]%N).
  { assert (c = 48 \/ c = 49 \/ c = 50 \/ c = 51 \/ c = 52 \/ c = 53 \/ c = 54
            \/ c = 55 \/ c = 56 \/ c = 57)%N as Hor by lia.
    repeat (destruct Hor as [->|Hor]; [apply in_whitelist; vm_compute; reflexivity|]).
    subst. apply in_whitelist. vm_compute. reflexivity. }
  repeat (apply elem_of_cons in Hcases as [->|Hcases]);
    [..|by apply elem_of_nil in Hcases]; by repeat split.
Qed.

Lemma take_sign_digit (c : N) (s : str) :
  is_digit c = true -> take_sign (c :: s) = (false, c :: s).
Proof.
  intros (_ & _ & _ & Hsign & _)%digit_is_plain.
  unfold take_sign in *. destruct c as [|p]; [done|].
  repeat (destruct p as [p|p|]; try done).
Qed.

(** The text of a sign and the digits of [n] is the float nearest to that
    integer. *)
Lemma parse_float_digits (neg : bool) (n : N) :
  parse_float ((if neg then [45%N] else []) ++ digits n)
  = Some (of_decimal neg n 0).
Proof.
  destruct (digits_read n) as (Hne & Hds & Hread).
  destruct (digits n) as [|c ds] eqn:Hdigits; [done|]. clear Hne.
  inversion Hds as [|? ? Hc Hds']; subst.
  destruct (digit_is_plain c Hc) as (Hlt & Hspace & Hlower & _ & Hi & Hn).
  assert (Hplain : Forall (fun c => (c < 127)%N)
                     ((if neg then [45%N] else []) ++ c :: ds)).
  { apply Forall_app. split; [destruct neg; by repeat constructor|].
    eapply Forall_impl; [exact Hds|]. by intros x (? & _)%digit_is_plain. }
  assert (Hnospace : Forall (fun c => is_ascii_space c = false)
                       ((if neg then [45%N] else []) ++ c :: ds)).
  { apply Forall_app. split; [destruct neg; by repeat constructor|].
    eapply Forall_impl; [exact Hds|]. by intros x (_ & ? & _)%digit_is_plain. }
  unfold parse_float. rewrite (to_ascii_plain _ Hplain). cbn [mbind option_bind].
  rewrite (strip_ascii_id _ Hnospace).
  assert (Hdrop : drop_underscores 0 ((if neg then [45%N] else []) ++ c :: ds)
                  = Some ((if neg then [45%N] else []) ++ c :: ds)).
  { destruct neg; cbn [app].
    - change (drop_underscores 0 (45%N :: c :: ds))
        with (option_map (cons 45%N) (drop_underscores 45 (c :: ds))).
      by rewrite (drop_underscores_digits _ Hds 45%N).
    - by apply drop_underscores_digits. }
  rewrite Hdrop. cbn [mbind option_bind].
  assert (Hsign : take_sign ((if neg then [45%N] else []) ++ c :: ds)
                  = (neg, c :: ds)).
  { destruct neg; [done|]. cbn [app]. by apply take_sign_digit. }
  rewrite Hsign. cbn [List.map]. rewrite Hlower.
  assert (Hname : forall k : string,
            (exists x r, u k = x :: r /\ (x = 105 \/ x = 110)%N) ->
            str_eqb (c :: List.map ascii_lower ds) (u k) = false).
  { intros k (x & r & -> & Hx). apply bool_decide_eq_false_2.
    intros [= -> _]. by destruct Hx. }
  rewrite !Hname by (eexists _, _; split; [vm_compute; reflexivity|]; by eauto).
  cbn [orb]. rewrite Hread.
  destruct (length (c :: ds)) as [|len] eqn:Hlen; [done|].
  cbn [Nat.add parse_exponent mbind option_bind]. reflexivity.
Qed.

Lemma int_of_decimal (neg : bool) (n : N) :
  Z.of_N n < 2 ^ 53 ->
  int_of_float (of_decimal neg n 0) = Ok (cond_Zopp neg (Z.of_N n)).
Proof.
  intros Hn. destruct n as [|m]; [by destruct neg|].
  unfold of_decimal. change (310 <=? 0) with false. cbv beta iota.
  assert ((0 <? - (Z.of_N (N.log2 (Npos m)) + 1100)) = false) as ->
    by (apply Z.ltb_ge; lia).
  change (0 <=? 0) with true. cbv beta iota.
  change (Z.to_pos (10 ^ 0)) with 1%positive. rewrite Pos.mul_1_r.
  by apply int_of_binary_round.
Qed.

(** X29: for every integer of absolute value below 2^53, the decimal text of
    the integer parses to the float of that integer, and
    [format_norwegian_number] returns the integer with its digits grouped by
    three: nothing is lost on the way through [float]. *)
Theorem format_norwegian_number_integer (z : Z) :
  Z.abs z < 2 ^ 53 ->
  float_of_str (str_of_Z z) = Ok (of_decimal (z <? 0) (Z.abs_N z) 0) /\
  format_norwegian_number (str_of_Z z) = Ok (replace1 44 32 (format_comma z)).
Proof.
  intros Hz.
  assert (Hparse : parse_float (str_of_Z z)
                   = Some (of_decimal (z <? 0) (Z.abs_N z) 0)).
  { rewrite <- parse_float_digits. unfold str_of_Z. by destruct (z <? 0). }
  unfold format_norwegian_number, float_of_str. rewrite Hparse.
  split; [done|]. cbn [mbind res_bind].
  rewrite int_of_decimal by lia.
  replace (cond_Zopp (z <? 0) (Z.of_N (Z.abs_N z))) with z; [done|].
  destruct (z <? 0) eqn:Hneg; cbn [cond_Zopp]; lia.
Qed.

End ParseIntegers.

(** What the theorem says of -150000. *)
Lemma format_norwegian_number_integer_witness :
  format_norwegian_number (U:=latin1) (u "-150000") = Ok (u "-150 000").
Proof.
  exact (proj2 (format_norwegian_number_integer (U:=latin1) (-150000)
                  ltac:(vm_compute; reflexivity))).
Defined.
